(** * libdns/linode: the provider's record translation and call sequencing

A shallow embedding of the Go package [linode] (files [client.go] and
[provider.go]) together with the parts of its collaborators that the
package calls: Go's [strings], [strconv] and [time], [libdns] v0.2.1
and the [linodego] client.

The repository holds two revisions of the package.
- [Rev1]: the paged domain scan of [client.go] (first revision) and the
  operations of [provider.go].
- [Rev2]: the filtered domain query of [client.go] (second revision) and
  the operations that go with it.

Go's [int] is taken to be 64 bits wide, as on every platform the
package is built for; integers are [Z] with the wrap-around written
out where the code can reach it. *)

From Stdlib Require Import ZArith List Bool Lia String Ascii.
From Stdlib Require Import DecimalString DecimalPos.
From Stdlib Require Import Floats.SpecFloat.
Import ListNotations.

Open Scope string_scope.
Open Scope Z_scope.

(* ================================================================== *)
(** * Go integers *)

Module GoInt.

Definition minInt64 : Z := - 2 ^ 63.
Definition maxInt64 : Z := 2 ^ 63 - 1.
Definition maxUint64 : Z := 2 ^ 64 - 1.

(** Two's-complement reduction of an exact result to [int64]. *)
Definition wrap (z : Z) : Z := (z + 2 ^ 63) mod 2 ^ 64 - 2 ^ 63.

Definition inRange (z : Z) : bool := (minInt64 <=? z) && (z <=? maxInt64).

Definition add (a b : Z) : Z := wrap (a + b).
Definition mul (a b : Z) : Z := wrap (a * b).
Definition neg (a : Z) : Z := wrap (- a).

(** Go's [/] and [%] on signed integers truncate toward zero. *)
Definition quo (a b : Z) : Z := wrap (Z.quot a b).
Definition rem (a b : Z) : Z := Z.rem a b.

End GoInt.

(* ================================================================== *)
(** * Package [strings] *)

Module strings.

Definition len (s : string) : nat := String.length s.

(** [s[i:]] and [s[:j]] *)
Definition sliceFrom (s : string) (i : nat) : string :=
  substring i (len s - i) s.
Definition sliceTo (s : string) (j : nat) : string :=
  substring 0 j s.

(** [len(s) >= len(prefix) && s[:len(prefix)] == prefix] *)
Definition HasPrefix (s prefix : string) : bool :=
  (len prefix <=? len s)%nat && (sliceTo s (len prefix) =? prefix)%string.

(** [len(s) >= len(suffix) && s[len(s)-len(suffix):] == suffix] *)
Definition HasSuffix (s suffix : string) : bool :=
  (len suffix <=? len s)%nat
  && (sliceFrom s (len s - len suffix) =? suffix)%string.

Definition TrimSuffix (s suffix : string) : string :=
  if HasSuffix s suffix then sliceTo s (len s - len suffix) else s.

(** [for len(s) > 0 && s[0] == c { s = s[1:] }] *)
Fixpoint trimLeftByte (s : string) (c : ascii) : string :=
  match s with
  | EmptyString => EmptyString
  | String a s' => if Ascii.eqb a c then trimLeftByte s' c else s
  end.

(** [for len(s) > 0 && s[len(s)-1] == c { s = s[:len(s)-1] }]: the bytes
    are dropped from the far end, so the loop runs on the reversed
    string. *)
Fixpoint dropLeading (l : list ascii) (c : ascii) : list ascii :=
  match l with
  | [] => []
  | a :: l' => if Ascii.eqb a c then dropLeading l' c else l
  end.

Definition trimRightByte (s : string) (c : ascii) : string :=
  string_of_list_ascii
    (rev (dropLeading (rev (list_ascii_of_string s)) c)).

Definition inSet (cutset : string) (a : ascii) : bool :=
  existsb (Ascii.eqb a) (list_ascii_of_string cutset).

Fixpoint trimLeftSet (s : string) (cutset : string) : string :=
  match s with
  | EmptyString => EmptyString
  | String a s' => if inSet cutset a then trimLeftSet s' cutset else s
  end.

Fixpoint dropLeadingSet (l : list ascii) (cutset : string) : list ascii :=
  match l with
  | [] => []
  | a :: l' => if inSet cutset a then dropLeadingSet l' cutset else l
  end.

Definition trimRightSet (s : string) (cutset : string) : string :=
  string_of_list_ascii
    (rev (dropLeadingSet (rev (list_ascii_of_string s)) cutset)).

(** [Trim] for a cut set of ASCII bytes: the one-byte cut set takes the
    byte loops, a longer one the ASCII set. *)
Definition Trim (s cutset : string) : string :=
  match s, cutset with
  | EmptyString, _ => s
  | _, EmptyString => s
  | _, String c EmptyString => trimLeftByte (trimRightByte s c) c
  | _, _ => trimLeftSet (trimRightSet s cutset) cutset
  end.

End strings.

(* ================================================================== *)
(** * Errors

Go errors are values; each constructor is one way the package or a
collaborator builds one.  [fmt.Errorf] with [%v] keeps only the text
of its cause; the constructor keeps the cause itself, from which the
text is determined. *)

Inductive numErr : Type :=
| ErrSyntax   (* strconv.ErrSyntax: "invalid syntax" *)
| ErrRange.   (* strconv.ErrRange: "value out of range" *)

Inductive error : Type :=
| NumError (Func Num : string) (Err : numErr)
  (* *strconv.NumError *)
| APIError (Code : Z) (Message : string)
  (* *linodego.Error, or a transport failure reported by the client *)
| ErrCouldNotListDomains (cause : error)
  (* fmt.Errorf("could not list domains: %v", err) *)
| ErrDomainNotFound
  (* fmt.Errorf("could not find the domain provided") *)
| ErrCouldNotListRecords (cause : error)
  (* fmt.Errorf("could not list domain records: %v", err) *)
| ErrZoneLookup (zone : string) (cause : error).
  (* fmt.Errorf("could not find domain ID for zone: %s: %v", zone, err) *)

(* ================================================================== *)
(** * Package [strconv] *)

Module strconv.

Definition isDigit (c : ascii) : bool :=
  let n := nat_of_ascii c in (48 <=? n)%nat && (n <=? 57)%nat.

Definition digitVal (c : ascii) : Z := Z.of_nat (nat_of_ascii c) - 48.

(** The digit loop of [ParseUint(s, 10, 64)]: a byte that is no digit is
    a syntax error, a value past [maxUint64] a range error, whichever
    the scan meets first. *)
Fixpoint parseDigits (s : string) (n : Z) : numErr + Z :=
  match s with
  | EmptyString => inr n
  | String c s' =>
      if negb (isDigit c) then inl ErrSyntax
      else if GoInt.maxUint64 / 10 + 1 <=? n then inl ErrRange
      else
        let n1 := n * 10 + digitVal c in
        if GoInt.maxUint64 <? n1 then inl ErrRange
        else parseDigits s' n1
  end.

Definition ParseUint (s : string) : numErr + Z :=
  match s with
  | EmptyString => inl ErrSyntax
  | _ => parseDigits s 0
  end.

(** [ParseInt(s, 10, 0)]: an optional sign, then [ParseUint], then the
    check against the signed range. *)
Definition ParseInt (s : string) : numErr + Z :=
  match s with
  | EmptyString => inl ErrSyntax
  | String c s' =>
      let neg := Ascii.eqb c "-" in
      let digits := if Ascii.eqb c "+" || neg then s' else s in
      match ParseUint digits with
      | inl e => inl e
      | inr un =>
          if negb neg && (2 ^ 63 <=? un) then inl ErrRange
          else if neg && (2 ^ 63 <? un) then inl ErrRange
          else inr (if neg then - un else un)
      end
  end.

(** [Atoi]: the short-string path computes what [ParseInt] does, so one
    definition serves both; the error carries [Func = "Atoi"] and the
    input. *)
Definition Atoi (s : string) : error + Z :=
  match ParseInt s with
  | inl e => inl (NumError "Atoi" s e)
  | inr n => inr n
  end.

(** [Itoa]: decimal digits, with a leading [-] for a negative number. *)
Definition Itoa (i : Z) : string := NilZero.string_of_int (Z.to_int i).

End strconv.

(* ================================================================== *)
(** * Package [time] *)

Module time.

(** A [Duration] is an [int64] count of nanoseconds. *)
Definition Duration := Z.

Definition Nanosecond : Duration := 1.
Definition Second : Duration := 1000000000.

Definition float64 := spec_float.

Definition prec : Z := 53.
Definition emax : Z := 1024.

(** Conversion of an integer to [float64], round to nearest even. *)
Definition float64_of_int (z : Z) : float64 :=
  binary_normalize prec emax z 0 false.

Definition fadd (x y : float64) : float64 := SFadd prec emax x y.
Definition fdiv (x y : float64) : float64 := SFdiv prec emax x y.

(** [int(f)]: the fraction is discarded (truncation toward zero).  The
    language leaves the result open when the value does not fit; the
    amd64 and arm64 compilers give the smallest [int64] for NaN and
    infinities, which is what the last case records. *)
Definition int_of_float64 (f : float64) : Z :=
  match f with
  | S754_zero _ => 0
  | S754_finite s m e =>
      let a := Z.shiftl (Z.pos m) e in
      let v := if s then - a else a in
      if GoInt.inRange v then v else GoInt.minInt64
  | _ => GoInt.minInt64
  end.

(** [func (d Duration) Seconds() float64]:
    [sec := d / Second; nsec := d % Second;
     return float64(sec) + float64(nsec)/1e9] *)
Definition Seconds (d : Duration) : float64 :=
  let sec := GoInt.quo d Second in
  let nsec := GoInt.rem d Second in
  fadd (float64_of_int sec)
       (fdiv (float64_of_int nsec) (float64_of_int 1000000000)).

End time.

(* ================================================================== *)
(** * Package [libdns], v0.2.1 *)

Module libdns.

Record Record : Type := mkRecord {
  ID : string;
  Type_ : string;
  Name : string;
  Value : string;
  TTL : time.Duration;
  Priority : Z
}.

(** The zero value [libdns.Record{}]. *)
Definition zeroRecord : Record := mkRecord "" "" "" "" 0 0.

(** [RelativeName] makes [fqdn] relative to [zone]:
    [strings.TrimSuffix(strings.TrimSuffix(fqdn, zone), ".")] *)
Definition RelativeName (fqdn zone : string) : string :=
  strings.TrimSuffix (strings.TrimSuffix fqdn zone) ".".

(** [AbsoluteName] prepends [name] to [zone] and tidies the dots; with an
    empty zone it is [strings.Trim(name, ".")]. *)
Definition AbsoluteName (name zone : string) : string :=
  if (zone =? "")%string then strings.Trim name "."
  else if (name =? "")%string || (name =? "@")%string then zone
  else
    let name := if strings.HasSuffix name "." then name else name ++ "." in
    name ++ zone.

End libdns.

(* ================================================================== *)
(** * Package [linodego]: the types and calls the provider uses *)

Module linodego.

(** [Domain]: of its fields the provider reads [ID] and [Domain]. *)
Record Domain : Type := mkDomain {
  Domain_ID : Z;
  Domain_Domain : string
}.

(** [DomainRecord]: the provider reads [ID], [Type], [Name], [Target]
    and [TTLSec]. *)
Record DomainRecord : Type := mkDomainRecord {
  DomainRecord_ID : Z;
  DomainRecord_Type : string;
  DomainRecord_Name : string;
  DomainRecord_Target : string;
  DomainRecord_TTLSec : Z
}.

(** [DomainRecordCreateOptions] and [DomainRecordUpdateOptions]: the
    fields the provider sets; the others ([Priority], [Weight], [Port],
    [Service], [Protocol], [Tag]) stay at their zero value.  Neither
    struct has a field for a record ID. *)
Record DomainRecordCreateOptions : Type := mkCreateOptions {
  Create_Type : string;
  Create_Name : string;
  Create_Target : string;
  Create_TTLSec : Z
}.

Record DomainRecordUpdateOptions : Type := mkUpdateOptions {
    Update_Type : string;
    Update_Name : string;
    Update_Target : string;
    Update_TTLSec : Z
  }.

(** [Filter]: the comparisons added with [AddField]. *)
Inductive FilterOperator : Type := Eq | Neq | Contains.

Record Comp : Type := mkComp {
    Column : string;
    Operator : FilterOperator;
    Value : string
  }.

Definition Filter := list Comp.

Definition AddField (op : FilterOperator) (key value : string)
    (f : Filter) : Filter :=
  (f ++ [mkComp key op value])%list.

(** The [Filter] string of the list options.  [MarshalJSON] renders a
    filter as the JSON text of the [X-Filter] header; the text is the
    client's and the service's business, so it is kept as the filter it
    stands for.  Marshalling a filter of string comparisons cannot
    fail. *)
Inductive filterText : Type :=
| NoFilter                    (* the empty string *)
| FilterJSON (f : Filter).

Definition MarshalJSON (f : Filter) : filterText * option error :=
  (FilterJSON f, None).

Record ListOptions : Type := mkListOptions {
    Page : Z;
    Pages : Z;
    Results : Z;
    Filter_ : filterText
  }.

Definition NewListOptions (page : Z) (filter : filterText) : ListOptions :=
  mkListOptions page 0 0 filter.

Definition withPage (page : Z) (o : ListOptions) : ListOptions :=
  mkListOptions page (Pages o) (Results o) (Filter_ o).
Definition withPages (pages : Z) (o : ListOptions) : ListOptions :=
  mkListOptions (Page o) pages (Results o) (Filter_ o).

(** The client, over a remote service whose state has type [W].  Every
    call may fail and may change the remote state.  [ListDomains]
    writes the page count and result count back into the options it
    was given, which is the second component of its result. *)
Class Client (W : Type) : Type := {
  ListDomains :
    ListOptions -> W -> (error + (list Domain * ListOptions)) * W;
  ListDomainRecords :
    Z -> ListOptions -> W -> (error + list DomainRecord) * W;
  CreateDomainRecord :
    Z -> DomainRecordCreateOptions -> W -> (error + DomainRecord) * W;
  UpdateDomainRecord :
    Z -> Z -> DomainRecordUpdateOptions -> W -> (error + DomainRecord) * W;
  DeleteDomainRecord :
    Z -> Z -> W -> option error * W
}.

End linodego.

(* ================================================================== *)
(** * The provider's connection: remote state and the calls made *)

Module Session.
Import linodego.

Inductive Call : Type :=
  | CallListDomains (opts : ListOptions)
  | CallListDomainRecords (domainID : Z) (opts : ListOptions)
  | CallCreateDomainRecord (domainID : Z) (opts : DomainRecordCreateOptions)
  | CallUpdateDomainRecord (domainID recordID : Z)
      (opts : DomainRecordUpdateOptions)
  | CallDeleteDomainRecord (domainID recordID : Z).

(** A record-level call is any call other than a domain listing. *)
Definition recordLevel (c : Call) : bool :=
  match c with
  | CallListDomains _ => false
  | _ => true
  end.

Record Conn (W : Type) : Type := mkConn {
    trace : list Call;      (* calls issued so far, oldest first *)
    remote : W
  }.
Arguments mkConn {W} _ _.
Arguments trace {W} _.
Arguments remote {W} _.

(** Code that talks to the remote: a state transformer on [Conn]. *)
Definition M (W A : Type) : Type := Conn W -> A * Conn W.

Definition ret {W A} (a : A) : M W A := fun c => (a, c).
Definition bind {W A B} (m : M W A) (k : A -> M W B) : M W B :=
  fun c => let '(a, c') := m c in k a c'.

(** One client call: it is logged, then answered by the remote. *)
Definition perform {W A} (call : Call) (answer : W -> A * W) : M W A :=
  fun c =>
    let '(a, w) := answer (remote c) in
    (a, mkConn (trace c ++ [call])%list w).

Section Calls.
Context {W : Type} `{Client W}.

Definition doListDomains (opts : ListOptions) :=
  perform (CallListDomains opts) (ListDomains opts).
Definition doListDomainRecords (domainID : Z) (opts : ListOptions) :=
  perform (CallListDomainRecords domainID opts)
          (ListDomainRecords domainID opts).
Definition doCreateDomainRecord (domainID : Z)
    (opts : DomainRecordCreateOptions) :=
  perform (CallCreateDomainRecord domainID opts)
          (CreateDomainRecord domainID opts).
Definition doUpdateDomainRecord (domainID recordID : Z)
    (opts : DomainRecordUpdateOptions) :=
  perform (CallUpdateDomainRecord domainID recordID opts)
          (UpdateDomainRecord domainID recordID opts).
Definition doDeleteDomainRecord (domainID recordID : Z) :=
  perform (CallDeleteDomainRecord domainID recordID)
          (DeleteDomainRecord domainID recordID).
End Calls.

End Session.

Declare Scope go_scope.
Delimit Scope go_scope with go.
Notation "x <- m ;; k" := (Session.bind m (fun x => k))
  (at level 61, m at next level, right associativity) : go_scope.
Open Scope go_scope.

(* ================================================================== *)
(** * [client.go]: what both revisions share *)

Module Common.
Import linodego Session.

Definition withID (v : string) (r : libdns.Record) : libdns.Record :=
  libdns.mkRecord v (libdns.Type_ r) (libdns.Name r) (libdns.Value r)
                  (libdns.TTL r) (libdns.Priority r).
Definition withType (v : string) (r : libdns.Record) : libdns.Record :=
  libdns.mkRecord (libdns.ID r) v (libdns.Name r) (libdns.Value r)
                  (libdns.TTL r) (libdns.Priority r).
Definition withName (v : string) (r : libdns.Record) : libdns.Record :=
  libdns.mkRecord (libdns.ID r) (libdns.Type_ r) v (libdns.Value r)
                  (libdns.TTL r) (libdns.Priority r).
Definition withValue (v : string) (r : libdns.Record) : libdns.Record :=
  libdns.mkRecord (libdns.ID r) (libdns.Type_ r) (libdns.Name r) v
                  (libdns.TTL r) (libdns.Priority r).
Definition withTTL (v : time.Duration) (r : libdns.Record) : libdns.Record :=
  libdns.mkRecord (libdns.ID r) (libdns.Type_ r) (libdns.Name r)
                  (libdns.Value r) v (libdns.Priority r).

(** [int(record.TTL.Seconds())] *)
Definition ttlSec (ttl : time.Duration) : Z :=
  time.int_of_float64 (time.Seconds ttl).

(** [time.Duration(remoteRecord.TTLSec) * time.Second] *)
Definition ttlOfSec (sec : Z) : time.Duration :=
  GoInt.mul sec time.Second.

(** [existingRecord] is a pointer: [None] is [nil]. *)
Definition mergeWithExistingLibdns (zone : string)
    (existingRecord : option libdns.Record)
    (linodeRecord : DomainRecord) : libdns.Record :=
  let existingRecord :=
    match existingRecord with
    | None => libdns.zeroRecord
    | Some r => r
    end in
  let existingRecord :=
    withID (strconv.Itoa (DomainRecord_ID linodeRecord)) existingRecord in
  let existingRecord :=
    withType (DomainRecord_Type linodeRecord) existingRecord in
  let existingRecord :=
    withName (libdns.RelativeName (DomainRecord_Name linodeRecord) zone)
             existingRecord in
  let existingRecord :=
    withValue (DomainRecord_Target linodeRecord) existingRecord in
  let existingRecord :=
    withTTL (ttlOfSec (DomainRecord_TTLSec linodeRecord)) existingRecord in
  existingRecord.

Definition convertToLibdns (zone : string) (linodeRecord : DomainRecord)
    : libdns.Record :=
  mergeWithExistingLibdns zone None linodeRecord.

(** The options literal of [createDomainRecord]. *)
Definition createOptions (zone : string) (record : libdns.Record)
    : DomainRecordCreateOptions :=
  mkCreateOptions (libdns.Type_ record)
                  (libdns.RelativeName (libdns.Name record) zone)
                  (libdns.Value record)
                  (ttlSec (libdns.TTL record)).

(** The options literal of [updateDomainRecord]. *)
Definition updateOptions (zone : string) (record : libdns.Record)
    : DomainRecordUpdateOptions :=
  mkUpdateOptions (libdns.Type_ record)
                  (libdns.RelativeName (libdns.Name record) zone)
                  (libdns.Value record)
                  (ttlSec (libdns.TTL record)).

Section WithClient.
Context {W : Type} `{Client W}.

Definition updateDomainRecord (zone : string) (domainID : Z)
    (record : libdns.Record) : M W (error + libdns.Record) :=
  match strconv.Atoi (libdns.ID record) with
  | inl err => ret (inl err)
  | inr recordID =>
      r <- doUpdateDomainRecord domainID recordID
             (updateOptions zone record) ;;
      match r with
      | inl err => ret (inl err)
      | inr updatedLinodeRecord =>
          ret (inr (mergeWithExistingLibdns zone (Some record)
                      updatedLinodeRecord))
      end
  end.

Definition deleteDomainRecord (domainID : Z) (record : libdns.Record)
    : M W (option error) :=
  match strconv.Atoi (libdns.ID record) with
  | inl err => ret (Some err)
  | inr recordID => doDeleteDomainRecord domainID recordID
  end.

(** [getDomainRecords] in the first revision, [listDomainRecords] in
    the second: the same body. *)
Definition listDomainRecords (zone : string) (domainID : Z)
    : M W (list libdns.Record * option error) :=
  let listOptions := NewListOptions 0 NoFilter in
  r <- doListDomainRecords domainID listOptions ;;
  match r with
  | inl err => ret ([], Some (ErrCouldNotListRecords err))
  | inr linodeRecords =>
      ret (map (convertToLibdns zone) linodeRecords, None)
  end.

End WithClient.

End Common.

(* ================================================================== *)
(** * Second revision: filtered domain query *)

Module Rev2.
Import linodego Session Common.

Section WithClient.
Context {W : Type} `{Client W}.

Definition getDomainIDByZone (zone : string) : M W (Z * option error) :=
  let f := AddField Eq "domain" (libdns.AbsoluteName zone "") [] in
  match MarshalJSON f with
  | (_, Some err) => ret (0, Some err)
  | (filter, None) =>
      let listOptions := NewListOptions 0 filter in
      r <- doListDomains listOptions ;;
      match r with
      | inl err => ret (0, Some (ErrCouldNotListDomains err))
      | inr ([], _) => ret (0, Some ErrDomainNotFound)
      | inr (d :: _, _) => ret (Domain_ID d, None)
      end
  end.

Definition createDomainRecord (zone : string) (domainID : Z)
    (record : libdns.Record) : M W (error + libdns.Record) :=
  r <- doCreateDomainRecord domainID (createOptions zone record) ;;
  match r with
  | inl err => ret (inl err)
  | inr addedLinodeRecord =>
      ret (inr (mergeWithExistingLibdns zone (Some record)
                  addedLinodeRecord))
  end.

Definition createOrUpdateDomainRecord (zone : string) (domainID : Z)
    (record : libdns.Record) : M W (error + libdns.Record) :=
  if (libdns.ID record =? "")%string then
    r <- createDomainRecord zone domainID record ;;
    match r with
    | inl err => ret (inl err)
    | inr addedRecord => ret (inr addedRecord)
    end
  else
    r <- updateDomainRecord zone domainID record ;;
    match r with
    | inl err => ret (inl err)
    | inr updatedRecord => ret (inr updatedRecord)
    end.

(** ** The four operations.  The lock and the once-only construction
    of the client do not reach the remote and are left out. *)

Definition GetRecords (zone : string)
    : M W (list libdns.Record * option error) :=
  r <- getDomainIDByZone zone ;;
  match r with
  | (_, Some err) => ret ([], Some (ErrZoneLookup zone err))
  | (domainID, None) =>
      r <- listDomainRecords zone domainID ;;
      match r with
      | (_, Some err) => ret ([], Some err)
      | (records, None) => ret (records, None)
      end
  end.

Fixpoint appendLoop (zone : string) (domainID : Z)
    (records addedRecords : list libdns.Record)
    : M W (list libdns.Record * option error) :=
  match records with
  | [] => ret (addedRecords, None)
  | record :: rest =>
      r <- createDomainRecord zone domainID record ;;
      match r with
      | inl err => ret ([], Some err)
      | inr addedRecord =>
          appendLoop zone domainID rest (addedRecords ++ [addedRecord])
      end
  end.

Definition AppendRecords (zone : string) (records : list libdns.Record)
    : M W (list libdns.Record * option error) :=
  r <- getDomainIDByZone zone ;;
  match r with
  | (_, Some err) => ret ([], Some (ErrZoneLookup zone err))
  | (domainID, None) => appendLoop zone domainID records []
  end.

Fixpoint setLoop (zone : string) (domainID : Z)
    (records updatedRecords : list libdns.Record)
    : M W (list libdns.Record * option error) :=
  match records with
  | [] => ret (updatedRecords, None)
  | record :: rest =>
      r <- createOrUpdateDomainRecord zone domainID record ;;
      match r with
      | inl err => ret ([], Some err)
      | inr updatedRecord =>
          setLoop zone domainID rest (updatedRecords ++ [updatedRecord])
      end
  end.

Definition SetRecords (zone : string) (records : list libdns.Record)
    : M W (list libdns.Record * option error) :=
  r <- getDomainIDByZone zone ;;
  match r with
  | (_, Some err) => ret ([], Some (ErrZoneLookup zone err))
  | (domainID, None) => setLoop zone domainID records []
  end.

Fixpoint deleteLoop (domainID : Z)
    (records deletedRecords : list libdns.Record)
    : M W (list libdns.Record * option error) :=
  match records with
  | [] => ret (deletedRecords, None)
  | record :: rest =>
      err <- deleteDomainRecord domainID record ;;
      match err with
      | Some err => ret ([], Some err)
      | None => deleteLoop domainID rest (deletedRecords ++ [record])
      end
  end.

(** [deletedRecords := make([]libdns.Record, 0, len(records))] *)
Definition DeleteRecords (zone : string) (records : list libdns.Record)
    : M W (list libdns.Record * option error) :=
  r <- getDomainIDByZone zone ;;
  match r with
  | (_, Some err) => ret ([], Some (ErrZoneLookup zone err))
  | (domainID, None) => deleteLoop domainID records []
  end.

End WithClient.

End Rev2.

(* ================================================================== *)
(** * First revision: paged domain scan, and [provider.go] *)

Module Rev1.
Import linodego Session Common.

(** [trimTrailingDot] trims any trailing "." from fqdn. *)
Definition trimTrailingDot (fqdn : string) : string :=
  strings.TrimSuffix fqdn ".".

(** The inner loop of [getDomainIDByZone]: the first domain of the page
    whose name is the trimmed zone. *)
Fixpoint scanDomains (domains : list Domain) (zone : string) : option Z :=
  match domains with
  | [] => None
  | d :: rest =>
      if (Domain_Domain d =? trimTrailingDot zone)%string
      then Some (Domain_ID d)
      else scanDomains rest zone
  end.

(** Modelled from the spec: [appendRecord], which [GetRecords] of
    [provider.go] calls and whose body belongs to a client file not at
    hand.  The spec has List translate each remote record into the
    generic shape, name rewritten relative to the zone, and return them
    in the order received. *)
Definition appendRecord (zone : string) (records : list libdns.Record)
    (rec : DomainRecord) : list libdns.Record :=
  records ++ [convertToLibdns zone rec].

Section WithClient.
Context {W : Type} `{Client W}.

(** Code whose loop is bounded by what the remote reports runs on
    fuel: [None] is "not finished within the fuel given". *)
Definition P (A : Type) : Type := Conn W -> option (A * Conn W).

(** The outer loop of [getDomainIDByZone],
    [for page := ...; page <= listOptions.Pages; page++]. *)
Fixpoint pageLoop (fuel : nat) (zone : string) (page : Z)
    (listOptions : ListOptions) : P (Z * option error) :=
  match fuel with
  | O => fun _ => None
  | S fuel' =>
      if page <=? Pages listOptions then
        let listOptions := withPage page listOptions in
        fun c =>
          let '(r, c') := doListDomains listOptions c in
          match r with
          | inl err => Some ((0, Some (ErrCouldNotListDomains err)), c')
          | inr (domains, listOptions) =>
              match scanDomains domains zone with
              | Some id => Some ((id, None), c')
              | None =>
                  pageLoop fuel' zone (GoInt.add page 1) listOptions c'
              end
          end
      else fun c => Some ((0, Some ErrDomainNotFound), c)
  end.

Definition getDomainIDByZone (fuel : nat) (zone : string)
    : P (Z * option error) :=
  let listOptions := NewListOptions 1 NoFilter in
  let listOptions := withPages (Page listOptions) listOptions in
  pageLoop fuel zone (Pages listOptions) listOptions.

Definition getDomainRecords (zone : string) (domainID : Z)
    : M W (list libdns.Record * option error) :=
  listDomainRecords zone domainID.

Definition createDomainRecord (zone : string) (domainID : Z)
    (record : libdns.Record) : M W (error + libdns.Record) :=
  r <- doCreateDomainRecord domainID (createOptions zone record) ;;
  match r with
  | inl err => ret (inl err)
  | inr newRec => ret (inr (convertToLibdns zone newRec))
  end.

(** After the domain lookup, the body of an operation. *)
Definition withDomain {A : Type} (fuel : nat) (zone : string)
    (body : Z -> M W (list A * option error))
    : P (list A * option error) :=
  fun c =>
    match getDomainIDByZone fuel zone c with
    | None => None
    | Some ((_, Some err), c') =>
        Some (([], Some (ErrZoneLookup zone err)), c')
    | Some ((domainID, None), c') => Some (body domainID c')
    end.

Definition GetRecords (fuel : nat) (zone : string)
    : P (list libdns.Record * option error) :=
  withDomain fuel zone (fun domainID =>
    let listOptions := NewListOptions 0 NoFilter in
    r <- doListDomainRecords domainID listOptions ;;
    match r with
    | inl err => ret ([], Some (ErrCouldNotListRecords err))
    | inr linodeRecords =>
        ret (fold_left (appendRecord zone) linodeRecords [], None)
    end).

Fixpoint appendLoop (zone : string) (domainID : Z)
    (records returnRecords : list libdns.Record)
    : M W (list libdns.Record * option error) :=
  match records with
  | [] => ret (returnRecords, None)
  | record :: rest =>
      r <- createDomainRecord zone domainID record ;;
      match r with
      | inl err => ret ([], Some err)
      | inr rec =>
          appendLoop zone domainID rest (returnRecords ++ [rec])
      end
  end.

Definition AppendRecords (fuel : nat) (zone : string)
    (records : list libdns.Record)
    : P (list libdns.Record * option error) :=
  withDomain fuel zone (fun domainID =>
    appendLoop zone domainID records []).

Fixpoint setLoop (zone : string) (domainID : Z)
    (records returnRecords : list libdns.Record)
    : M W (list libdns.Record * option error) :=
  match records with
  | [] => ret (returnRecords, None)
  | record :: rest =>
      if (libdns.ID record =? "")%string then
        r <- createDomainRecord zone domainID record ;;
        match r with
        | inl err => ret ([], Some err)
        | inr newRec =>
            setLoop zone domainID rest (returnRecords ++ [newRec])
        end
      else
        r <- updateDomainRecord zone domainID record ;;
        match r with
        | inl err => ret ([], Some err)
        | inr newRec =>
            setLoop zone domainID rest (returnRecords ++ [newRec])
        end
  end.

Definition SetRecords (fuel : nat) (zone : string)
    (records : list libdns.Record)
    : P (list libdns.Record * option error) :=
  withDomain fuel zone (fun domainID =>
    setLoop zone domainID records []).

Fixpoint deleteLoop (domainID : Z)
    (records deletedRecords : list libdns.Record)
    : M W (list libdns.Record * option error) :=
  match records with
  | [] => ret (deletedRecords, None)
  | rec :: rest =>
      err <- deleteDomainRecord domainID rec ;;
      match err with
      | Some err => ret ([], Some err)
      | None => deleteLoop domainID rest (deletedRecords ++ [rec])
      end
  end.

(** [deletedRecords := make([]libdns.Record, len(records))]: a slice
    that already holds [len(records)] zero records. *)
Definition DeleteRecords (fuel : nat) (zone : string)
    (records : list libdns.Record)
    : P (list libdns.Record * option error) :=
  withDomain fuel zone (fun domainID =>
    deleteLoop domainID records
      (repeat libdns.zeroRecord (List.length records))).

End WithClient.

End Rev1.

(* ================================================================== *)
(** * A remote service to run the provider against

A table of domains served in pages, and the records of each domain.
It answers the five calls the way the service is documented to:
listings honour the filter and the page asked for (page 0 meaning
"all pages", which the client fetches one after the other), writes
are refused for an unknown domain or record and for a record type
outside the supported set. *)

Module Service.
Import linodego Session.

Record World : Type := mkWorld {
    domains : list Domain;
    pageSize : positive;
    records : list (Z * DomainRecord);     (* domain ID, record *)
    nextID : Z
  }.

Definition notFound : error := APIError 404 "Not found".
Definition badRequest : error := APIError 400 "Invalid request".

Definition satisfies (d : Domain) (c : Comp) : bool :=
  if (Column c =? "domain")%string then
    match Operator c with
    | Eq => (Domain_Domain d =? Value c)%string
    | Neq => negb (Domain_Domain d =? Value c)%string
    | Contains => true
    end
  else true.

Definition selected (f : filterText) (d : Domain) : bool :=
  match f with
  | NoFilter => true
  | FilterJSON comps => forallb (satisfies d) comps
  end.

Definition size (w : World) : nat := Pos.to_nat (pageSize w).

(** Number of pages for [n] results; an empty listing has one page. *)
Definition pageCount (n size : nat) : Z :=
  Z.max 1 (Z.of_nat ((n + size - 1) / size)).

Definition pageOf {A} (l : list A) (size : nat) (page : Z) : list A :=
  firstn size (skipn ((Z.to_nat page - 1) * size) l).

Definition listDomains (opts : ListOptions) (w : World)
    : (error + (list Domain * ListOptions)) * World :=
  let hits := filter (selected (Filter_ opts)) (domains w) in
  let pages := pageCount (List.length hits) (size w) in
  let results := Z.of_nat (List.length hits) in
  if Page opts =? 0 then
    let last := if 2 <=? pages then pages else 0 in
    (inr (hits, mkListOptions last pages results (Filter_ opts)), w)
  else
    let page := Z.max 1 (Page opts) in
    (inr (pageOf hits (size w) page,
          mkListOptions (Page opts) pages results (Filter_ opts)), w).

Definition hasDomain (w : World) (domainID : Z) : bool :=
  existsb (fun d => Domain_ID d =? domainID) (domains w).

Definition hasRecord (w : World) (domainID recordID : Z) : bool :=
  existsb (fun p =>
             (fst p =? domainID) && (DomainRecord_ID (snd p) =? recordID))
          (records w).

Definition supportedType (t : string) : bool :=
  existsb (String.eqb t)
    ["A"; "AAAA"; "NS"; "MX"; "CNAME"; "TXT"; "SRV"; "PTR"; "CAA"].

Definition listDomainRecords (domainID : Z) (opts : ListOptions) (w : World)
    : (error + list DomainRecord) * World :=
  if hasDomain w domainID then
    (inr (map snd (filter (fun p => fst p =? domainID) (records w))), w)
  else (inl notFound, w).

Definition createDomainRecord (domainID : Z)
    (opts : DomainRecordCreateOptions) (w : World)
    : (error + DomainRecord) * World :=
  if negb (hasDomain w domainID) then (inl notFound, w)
  else if negb (supportedType (Create_Type opts)) then (inl badRequest, w)
  else
    let r := mkDomainRecord (nextID w) (Create_Type opts) (Create_Name opts)
               (Create_Target opts) (Create_TTLSec opts) in
    (inr r, mkWorld (domains w) (pageSize w)
              (records w ++ [(domainID, r)]) (nextID w + 1)).

Definition updateDomainRecord (domainID recordID : Z)
    (opts : DomainRecordUpdateOptions) (w : World)
    : (error + DomainRecord) * World :=
  if negb (hasRecord w domainID recordID) then (inl notFound, w)
  else if negb (supportedType (Update_Type opts)) then (inl badRequest, w)
  else
    let r := mkDomainRecord recordID (Update_Type opts) (Update_Name opts)
               (Update_Target opts) (Update_TTLSec opts) in
    (inr r, mkWorld (domains w) (pageSize w)
              (map (fun p =>
                      if (fst p =? domainID)
                         && (DomainRecord_ID (snd p) =? recordID)
                      then (domainID, r) else p)
                   (records w))
              (nextID w)).

Definition deleteDomainRecord (domainID recordID : Z) (w : World)
    : option error * World :=
  if negb (hasRecord w domainID recordID) then (Some notFound, w)
  else
    (None, mkWorld (domains w) (pageSize w)
             (filter (fun p =>
                        negb ((fst p =? domainID)
                              && (DomainRecord_ID (snd p) =? recordID)))
                     (records w))
             (nextID w)).

#[export] Instance client : Client World := {
    ListDomains := listDomains;
    ListDomainRecords := listDomainRecords;
    CreateDomainRecord := createDomainRecord;
    UpdateDomainRecord := updateDomainRecord;
    DeleteDomainRecord := deleteDomainRecord
  }.

(** A connection on which no call has been made yet. *)
Definition connect (w : World) : Conn World := mkConn [] w.

(** The number of pages of the unfiltered domain listing. *)
Definition pages (w : World) : Z :=
  pageCount (List.length (domains w)) (size w).

(** The domain table is one a Go program can hold: its page numbers stay
    below the largest [int]. *)
Definition fits (w : World) : bool :=
  Z.of_nat (List.length (domains w)) <? GoInt.maxInt64.

(** What a lookup under the name [key] is to find in a table: the ID of
    the first domain of that name, or the domain-not-found error. *)
Definition firstMatch (table : list Domain) (key : string)
    : Z * option error :=
  match find (fun d => (Domain_Domain d =? key)%string) table with
  | Some d => (Domain_ID d, None)
  | None => (0, Some ErrDomainNotFound)
  end.

(** No domain of the table is named [key]. *)
Definition absent (table : list Domain) (key : string) : bool :=
  forallb (fun d => negb (Domain_Domain d =? key)%string) table.

End Service.

(* ================================================================== *)
(** * The common shape of the batch loops

Append, Set and Delete each walk the input once, make one attempt per
record, give up at the first error and otherwise grow the result by
one record.  [forEach] is that loop over an arbitrary attempt; each
loop of the two revisions is an instance of it. *)

Module Batch.
Import linodego Session Common.

Section WithClient.
Context {W : Type} `{Client W}.

Fixpoint forEach (step : libdns.Record -> M W (error + libdns.Record))
    (records acc : list libdns.Record)
    : M W (list libdns.Record * option error) :=
  match records with
  | [] => ret (acc, None)
  | record :: rest =>
      r <- step record ;;
      match r with
      | inl err => ret ([], Some err)
      | inr out => forEach step rest (acc ++ [out])
      end
  end.

(** The attempt Delete makes: the record itself is the output. *)
Definition deleteStep (domainID : Z) (record : libdns.Record)
    : M W (error + libdns.Record) :=
  err <- deleteDomainRecord domainID record ;;
  match err with
  | Some err => ret (inl err)
  | None => ret (inr record)
  end.

(** The attempt Set makes in [provider.go], where the choice between
    create and update is written in the loop body. *)
Definition setStep1 (zone : string) (domainID : Z)
    (record : libdns.Record) : M W (error + libdns.Record) :=
  if (libdns.ID record =? "")%string
  then Rev1.createDomainRecord zone domainID record
  else updateDomainRecord zone domainID record.

(** The request Set is to make for a record, or the error that stops
    it before any request. *)
Definition setCall (zone : string) (domainID : Z)
    (record : libdns.Record) : error + Call :=
  if (libdns.ID record =? "")%string
  then inr (CallCreateDomainRecord domainID (createOptions zone record))
  else
    match strconv.Atoi (libdns.ID record) with
    | inl err => inl err
    | inr recordID =>
        inr (CallUpdateDomainRecord domainID recordID
               (updateOptions zone record))
    end.

End WithClient.

End Batch.

(* ================================================================== *)
(** * The operations of both revisions under one name

    Statements that hold of every operation of either revision are made
    once, over a revision [rev] and an operation [op]. *)

Module Ops.
Import linodego Session Common Batch.

Inductive Rev : Type :=
| R1 (fuel : nat)     (* first revision, with the fuel of its page loop *)
| R2.                 (* second revision *)

Inductive Op : Type := Get | Append | Set_ | Delete.

(** No record-level call among [calls]. *)
Definition listingsOnly (calls : list Call) : bool :=
  forallb (fun k => negb (recordLevel k)) calls.

(** A zone name whose form, once one trailing dot is set aside, has no
    dot left at either end: "example.com", "example.com.", but neither
    ".example.com" nor "example.com..". *)
Definition plainZone (zone : string) : bool :=
  let name := Rev1.trimTrailingDot zone in
  negb (strings.HasPrefix name ".") && negb (strings.HasSuffix name ".").

Section WithClient.
Context {W : Type} `{Client W}.

Definition total {A} (m : M W A) : Rev1.P A := fun c => Some (m c).

Definition lookup (rev : Rev) (zone : string) : Rev1.P (Z * option error) :=
  match rev with
  | R1 fuel => Rev1.getDomainIDByZone fuel zone
  | R2 => total (Rev2.getDomainIDByZone zone)
  end.

(** The name a zone is looked up under. *)
Definition lookupKey (rev : Rev) (zone : string) : string :=
  match rev with
  | R1 _ => Rev1.trimTrailingDot zone
  | R2 => libdns.AbsoluteName zone ""
  end.

Definition run (rev : Rev) (op : Op) (zone : string)
    (records : list libdns.Record)
    : Rev1.P (list libdns.Record * option error) :=
  match rev, op with
  | R1 fuel, Get => Rev1.GetRecords fuel zone
  | R1 fuel, Append => Rev1.AppendRecords fuel zone records
  | R1 fuel, Set_ => Rev1.SetRecords fuel zone records
  | R1 fuel, Delete => Rev1.DeleteRecords fuel zone records
  | R2, Get => total (Rev2.GetRecords zone)
  | R2, Append => total (Rev2.AppendRecords zone records)
  | R2, Set_ => total (Rev2.SetRecords zone records)
  | R2, Delete => total (Rev2.DeleteRecords zone records)
  end.

(** The attempt a batch operation makes for one record.  ([Get] is not a
    batch operation; its entry is never used.) *)
Definition step (rev : Rev) (op : Op) (zone : string) (domainID : Z)
    : libdns.Record -> M W (error + libdns.Record) :=
  match rev, op with
  | R1 _, Append => Rev1.createDomainRecord zone domainID
  | R1 _, Set_ => setStep1 zone domainID
  | R2, Append => Rev2.createDomainRecord zone domainID
  | R2, Set_ => Rev2.createOrUpdateDomainRecord zone domainID
  | _, Delete => deleteStep domainID
  | _, Get => fun record => ret (inr record)
  end.

(** The result slice a batch operation starts from. *)
Definition start (rev : Rev) (op : Op) (records : list libdns.Record)
    : list libdns.Record :=
  match rev, op with
  | R1 _, Delete => repeat libdns.zeroRecord (List.length records)
  | _, _ => []
  end.

Definition isBatch (op : Op) : bool :=
  match op with
  | Get => false
  | _ => true
  end.

End WithClient.

End Ops.

(* ================================================================== *)
(** * The operations against the service: fuel, and sample tables *)

Module Samples.
Import linodego Session Service Ops.

(** The page loop of the first revision has fuel for every page of the
    table and the test that ends it. *)
Definition enoughFuel (rev : Rev) (w : World) : bool :=
  match rev with
  | R1 fuel => (Z.to_nat (pages w) <? fuel)%nat
  | R2 => true
  end.

(** One domain, "example.com" with ID 42, holding the record 7. *)
Definition oneDomain : World :=
  mkWorld [mkDomain 42 "example.com"] 100
          [(42, mkDomainRecord 7 "A" "www" "192.0.2.1" 300)] 1000.

(** Three domains served one per page. *)
Definition threePages : World :=
  mkWorld [mkDomain 7 "example.org"; mkDomain 42 "example.com";
           mkDomain 43 "example.net"] 1 [] 1000.

(** A record not yet created. *)
Definition txt : libdns.Record :=
  libdns.mkRecord "" "TXT" "_acme-challenge" "abc123" 300000000000 0.

(** The record 7 of [oneDomain], with a priority the service knows
    nothing of. *)
Definition www : libdns.Record :=
  libdns.mkRecord "7" "A" "www" "192.0.2.1" 300000000000 10.

(** A record whose ID names no record of [oneDomain]. *)
Definition gone : libdns.Record :=
  libdns.mkRecord "9" "A" "old" "192.0.2.9" 300000000000 0.

(** A record whose ID is no number. *)
Definition odd : libdns.Record :=
  libdns.mkRecord "x7" "A" "www" "192.0.2.1" 300000000000 0.

End Samples.

(* ================================================================== *)
(** * Rounding to [float64], in integers

    What [binary_round_aux] computes is described on a numerator and a
    denominator: the integer nearest to [N/D], ties to even, and the
    position of [N/D] between two integers as the shift loop keeps it. *)

Module Rounding.

(** Position of [N/D] between its floor and the next integer, from the
    remainder [r] of the division. *)
Definition locOf (r D : Z) : location :=
  if r =? 0 then loc_Exact else loc_Inexact (Z.compare (2 * r) D).

(** The integer nearest to [N/D], ties to even. *)
Definition rne (N D : Z) : Z :=
  round_nearest_even (N / D) (locOf (N mod D) D).

(** The shift record [mrs] stands for [N/D]: its mantissa is the floor and
    its round and sticky bits give the position. *)
Definition Repr (mrs : shr_record) (N D : Z) : Prop :=
  0 < D /\ 0 <= N /\ shr_m mrs = N / D
  /\ loc_of_shr_record mrs = locOf (N mod D) D.

End Rounding.

(* ================================================================== *)
(** * Decimal digits, and the requests a batch is to make *)

Module Digits.
(** The number a digit sequence stands for, read left to right onto
    [acc]. *)
Fixpoint digitsVal (d : Decimal.uint) (acc : Z) : Z :=
  match d with
  | Decimal.Nil => acc
  | Decimal.D0 l => digitsVal l (acc * 10 + 0)
  | Decimal.D1 l => digitsVal l (acc * 10 + 1)
  | Decimal.D2 l => digitsVal l (acc * 10 + 2)
  | Decimal.D3 l => digitsVal l (acc * 10 + 3)
  | Decimal.D4 l => digitsVal l (acc * 10 + 4)
  | Decimal.D5 l => digitsVal l (acc * 10 + 5)
  | Decimal.D6 l => digitsVal l (acc * 10 + 6)
  | Decimal.D7 l => digitsVal l (acc * 10 + 7)
  | Decimal.D8 l => digitsVal l (acc * 10 + 8)
  | Decimal.D9 l => digitsVal l (acc * 10 + 9)
  end.
End Digits.

Module Sent.
Import linodego Session.


End Sent.

(* ================================================================== *)
(** * The answers of the remote, as the operations hand them back *)

Module Answers.
Import linodego Session Common Ops.

Definition withPriority (v : Z) (r : libdns.Record) : libdns.Record :=
  libdns.mkRecord (libdns.ID r) (libdns.Type_ r) (libdns.Name r)
                  (libdns.Value r) (libdns.TTL r) v.

(** The record the remote's answer is merged into, as the code passes
    it to [mergeWithExistingLibdns]: the first revision translates a
    created record afresh ([convertToLibdns]), every other answer is
    merged into the record that was sent. *)
Definition existing (rev : Rev) (op : Op) (record : libdns.Record)
    : option libdns.Record :=
  match rev, op with
  | R1 _, Append => None
  | R1 _, Set_ =>
      if (libdns.ID record =? "")%string then None else Some record
  | _, _ => Some record
  end.

Section WithClient.
Context {W : Type} `{Client W}.

(** Two runs of a loop that end in the same connection, with the same
    error if any, and with results that differ at most in [Priority]. *)
Definition sameUpToPriority
    (r1 r2 : (list libdns.Record * option error) * Conn W) : Prop :=
  snd r1 = snd r2
  /\ snd (fst r1) = snd (fst r2)
  /\ map (withPriority 0) (fst (fst r1)) = map (withPriority 0) (fst (fst r2)).

End WithClient.

End Answers.

(* ================================================================== *)
(** * Names that are relative to a zone *)

Module Zone.

(** A name that is written relative to the zone already: it does not
    end in a dot, nor, for a zone that is not empty, in the zone. *)
Definition relativeTo (zone name : string) : bool :=
  ((zone =? "")%string || negb (strings.HasSuffix name zone))
  && negb (strings.HasSuffix name ".").

End Zone.

(* ================================================================== *)
(** * The remote's answers to a batch, one request after the other *)

Module Remote.
Import linodego Session Common Ops Answers.

Section WithClient.
Context {W : Type} `{Client W}.

(** What the remote, in state [w], answers to the request Append or
    Set makes for one record, with the state the answer leaves; [None]
    where no request is made (Set, for an ID that is no number). *)
Definition answer (op : Op) (zone : string) (domainID : Z)
    (record : libdns.Record) (w : W)
    : option ((error + DomainRecord) * W) :=
  let create :=
    Some (CreateDomainRecord domainID (createOptions zone record) w) in
  match op with
  | Append => create
  | Set_ =>
      if (libdns.ID record =? "")%string then create
      else
        match strconv.Atoi (libdns.ID record) with
        | inl _ => None
        | inr recordID =>
            Some (UpdateDomainRecord domainID recordID
                    (updateOptions zone record) w)
        end
  | _ => None
  end.

(** The records of a batch answered one after the other, each request
    meeting the state the answer before left: the answers, each laid
    over the record the code merges it into, and the state after the
    last; [None] as soon as a request is refused or not made. *)
Fixpoint laid (rev : Rev) (op : Op) (zone : string) (domainID : Z)
    (records : list libdns.Record) (w : W)
    : option (list libdns.Record * W) :=
  match records with
  | [] => Some ([], w)
  | record :: rest =>
      match answer op zone domainID record w with
      | Some (inr rr, w1) =>
          match laid rev op zone domainID rest w1 with
          | Some (out, w2) =>
              Some (mergeWithExistingLibdns zone (existing rev op record) rr
                    :: out, w2)
          | None => None
          end
      | _ => None
      end
  end.

End WithClient.

End Remote.

(* ================================================================== *)
(** * Facts about zone names *)

Section StringFacts.
Import strings.

Lemma substring_0_0 s : substring 0 0 s = "".
Proof. destruct s; reflexivity. Qed.

Lemma len_append s t : len (s ++ t) = (len s + len t)%nat.
Proof. unfold len. induction s; simpl; congruence. Qed.

Lemma substring_skip s t n :
  substring (len s) n (s ++ t) = substring 0 n t.
Proof. unfold len. induction s; simpl; auto. Qed.

Lemma substring_take s t :
  substring 0 (len s) (s ++ t) = s.
Proof.
  unfold len. induction s; simpl.
  - apply substring_0_0.
  - now rewrite IHs.
Qed.

(** A name followed by a dot ends in a dot, and trimming gives the name
    back. *)
Lemma HasSuffix_append_dot s : HasSuffix (s ++ ".") "." = true.
Proof.
  unfold HasSuffix, sliceFrom. rewrite len_append. simpl len.
  replace (len s + 1 - 1)%nat with (len s) by lia.
  replace (len s + 1 - len s)%nat with 1%nat by lia.
  rewrite substring_skip. simpl.
  destruct (len s + 1)%nat eqn:E; [lia | reflexivity].
Qed.

Lemma TrimSuffix_append_dot s : TrimSuffix (s ++ ".") "." = s.
Proof.
  unfold TrimSuffix. rewrite HasSuffix_append_dot.
  unfold sliceTo. rewrite len_append. simpl len.
  replace (len s + 1 - 1)%nat with (len s) by lia.
  apply substring_take.
Qed.

Lemma TrimSuffix_no_dot s : HasSuffix s "." = false -> TrimSuffix s "." = s.
Proof. unfold TrimSuffix. now intros ->. Qed.

Lemma HasSuffix_dot_cons a b s :
  HasSuffix (String a (String b s)) "." = HasSuffix (String b s) ".".
Proof.
  unfold HasSuffix, sliceFrom, len.
  change (String.length (String a (String b s)))
    with (S (S (String.length s))).
  change (String.length (String b s)) with (S (String.length s)).
  change (String.length ".") with 1%nat.
  set (n := String.length s).
  replace (S (S n) - 1)%nat with (S n) by lia.
  replace (S (S n) - S n)%nat with 1%nat by lia.
  replace (S n - 1)%nat with n by lia.
  replace (S n - n)%nat with 1%nat by lia.
  reflexivity.
Qed.

(** A name that ends in a dot is some name followed by a dot. *)
Lemma HasSuffix_dot_inv s :
  HasSuffix s "." = true -> exists t, s = t ++ ".".
Proof.
  induction s as [|a s IH]; intros Hs.
  - discriminate.
  - destruct s as [|b s'].
    + unfold HasSuffix, sliceFrom in Hs. simpl in Hs.
      destruct (Ascii.eqb_spec a "."); [subst|discriminate].
      exists "". reflexivity.
    + rewrite HasSuffix_dot_cons in Hs.
      destruct (IH Hs) as [t Ht].
      exists (String a t). simpl. now rewrite Ht.
Qed.

(** ** [Trim] with the cut set "." *)

Lemma Trim_dot s : Trim s "." = trimLeftByte (trimRightByte s ".") ".".
Proof. destruct s; reflexivity. Qed.

Lemma list_ascii_append s t :
  list_ascii_of_string (s ++ t)
  = (list_ascii_of_string s ++ list_ascii_of_string t)%list.
Proof. induction s; simpl; congruence. Qed.

Lemma trimRightByte_append_dot s :
  trimRightByte (s ++ ".") "." = trimRightByte s ".".
Proof.
  unfold trimRightByte. rewrite list_ascii_append. simpl.
  rewrite rev_app_distr. reflexivity.
Qed.

Lemma string_of_list_append l a :
  string_of_list_ascii (l ++ [a]) = string_of_list_ascii l ++ String a "".
Proof. induction l; simpl; congruence. Qed.

Lemma trimRightByte_no_dot s :
  HasSuffix s "." = false -> trimRightByte s "." = s.
Proof.
  intros Hs. unfold trimRightByte.
  destruct (rev (list_ascii_of_string s)) as [|a r] eqn:Hrev.
  - simpl. rewrite <- (string_of_list_ascii_of_string s).
    rewrite <- (rev_involutive (list_ascii_of_string s)), Hrev.
    reflexivity.
  - assert (Hl : s = string_of_list_ascii (rev r) ++ String a "").
    { rewrite <- string_of_list_append.
      change (rev r ++ [a])%list with (rev (a :: r)).
      rewrite <- Hrev, rev_involutive.
      now rewrite string_of_list_ascii_of_string. }
    simpl. destruct (Ascii.eqb_spec a ".") as [->|Hne].
    + rewrite Hl, HasSuffix_append_dot in Hs. discriminate.
    + rewrite <- Hrev, rev_involutive.
      apply string_of_list_ascii_of_string.
Qed.

Lemma trimLeftByte_no_dot s :
  HasPrefix s "." = false -> trimLeftByte s "." = s.
Proof.
  destruct s as [|a s]; [reflexivity|].
  unfold HasPrefix, sliceTo. simpl. rewrite substring_0_0.
  simpl. destruct (Ascii.eqb a "."); [discriminate | reflexivity].
Qed.

(** On a plain zone name the two revisions look up the same key. *)
Lemma plainZone_keys zone :
  Ops.plainZone zone = true ->
  libdns.AbsoluteName zone "" = Rev1.trimTrailingDot zone.
Proof.
  unfold Ops.plainZone, libdns.AbsoluteName, Rev1.trimTrailingDot.
  simpl. rewrite Trim_dot. intros Hplain.
  apply andb_prop in Hplain. destruct Hplain as [Hpre Hsuf].
  apply negb_true_iff in Hpre, Hsuf.
  destruct (HasSuffix zone ".") eqn:Hdot.
  - destruct (HasSuffix_dot_inv zone Hdot) as [t ->].
    rewrite TrimSuffix_append_dot in *.
    rewrite trimRightByte_append_dot, (trimRightByte_no_dot t Hsuf).
    now apply trimLeftByte_no_dot.
  - rewrite (TrimSuffix_no_dot zone Hdot) in *.
    rewrite (trimRightByte_no_dot zone Hsuf).
    now apply trimLeftByte_no_dot.
Qed.

(** A trailing dot does not change the key of either revision. *)
Lemma trailing_dot_key1 zone :
  HasSuffix zone "." = false ->
  Rev1.trimTrailingDot (zone ++ ".") = Rev1.trimTrailingDot zone.
Proof.
  intros Hz. unfold Rev1.trimTrailingDot.
  now rewrite TrimSuffix_append_dot, TrimSuffix_no_dot.
Qed.

Lemma trailing_dot_key2 zone :
  libdns.AbsoluteName (zone ++ ".") "" = libdns.AbsoluteName zone "".
Proof.
  unfold libdns.AbsoluteName. simpl.
  now rewrite !Trim_dot, trimRightByte_append_dot.
Qed.

End StringFacts.

(* ================================================================== *)
(** * Facts about the loops *)

Section LoopFacts.
Import linodego Session Common Batch Ops.
Context {W : Type} `{Client W}.

Lemma perform_trace {A} (call : Call) (answer : W -> A * W) (c : Conn W) :
  trace (snd (perform call answer c)) = (trace c ++ [call])%list.
Proof.
  unfold perform. destruct (answer (remote c)); reflexivity.
Qed.

Lemma forEach_app step pre rest acc acc' (c c1 : Conn W) :
  forEach step pre acc c = ((acc', None), c1) ->
  forEach step (pre ++ rest) acc c = forEach step rest acc' c1.
Proof.
  revert acc c. induction pre as [|x pre IH]; intros acc c Hpre.
  - simpl in Hpre. unfold ret in Hpre. now inversion Hpre.
  - simpl in *. unfold bind in *.
    destruct (step x c) as [[err|out] c0].
    + unfold ret in Hpre. discriminate.
    + now apply IH.
Qed.

Lemma forEach_fail step x post acc err (c1 c2 : Conn W) :
  step x c1 = (inl err, c2) ->
  forEach step (x :: post) acc c1 = (([], Some err), c2).
Proof.
  intros Hx. simpl. unfold bind. now rewrite Hx.
Qed.


(** An error never comes with records. *)
Lemma forEach_error_nil step records acc out err (c c' : Conn W) :
  forEach step records acc c = ((out, Some err), c') -> out = [].
Proof.
  revert acc c. induction records as [|x rest IH]; intros acc c Hrun.
  - simpl in Hrun. unfold ret in Hrun. discriminate.
  - simpl in Hrun. unfold bind in Hrun.
    destruct (step x c) as [[e|o] c0].
    + unfold ret in Hrun. now inversion Hrun.
    + now apply IH in Hrun.
Qed.

Ltac loop_is_forEach records :=
  let x := fresh "x" in let rest := fresh "rest" in
  let IH := fresh "IH" in let acc := fresh "acc" in
  let c := fresh "c" in
  induction records as [|x rest IH]; intros acc c; simpl;
  [ reflexivity
  | unfold bind;
    repeat match goal with
           | |- context [let '(_, _) := ?m in _] => destruct m as [[?|?] ?]
           | |- context [if ?b then _ else _] => destruct b
           end;
    unfold ret; simpl; auto ].

Lemma appendLoop2_forEach zone domainID records :
  forall acc c,
    Rev2.appendLoop zone domainID records acc c
    = forEach (Rev2.createDomainRecord zone domainID) records acc c.
Proof. loop_is_forEach records. Qed.

Lemma setLoop2_forEach zone domainID records :
  forall acc c,
    Rev2.setLoop zone domainID records acc c
    = forEach (Rev2.createOrUpdateDomainRecord zone domainID) records acc c.
Proof. loop_is_forEach records. Qed.

Lemma deleteLoop2_forEach domainID records :
  forall acc c,
    Rev2.deleteLoop domainID records acc c
    = forEach (deleteStep domainID) records acc c.
Proof.
  induction records as [|x rest IH]; intros acc c; simpl.
  - reflexivity.
  - unfold bind, deleteStep, bind.
    destruct (deleteDomainRecord domainID x c) as [[e|] c0];
      unfold ret; simpl; auto.
Qed.

Lemma appendLoop1_forEach zone domainID records :
  forall acc c,
    Rev1.appendLoop zone domainID records acc c
    = forEach (Rev1.createDomainRecord zone domainID) records acc c.
Proof. loop_is_forEach records. Qed.

Lemma setLoop1_forEach zone domainID records :
  forall acc c,
    Rev1.setLoop zone domainID records acc c
    = forEach (setStep1 zone domainID) records acc c.
Proof.
  induction records as [|x rest IH]; intros acc c; simpl.
  - reflexivity.
  - unfold setStep1, bind.
    destruct (libdns.ID x =? "")%string.
    + destruct (Rev1.createDomainRecord zone domainID x c) as [[e|o] c0];
        unfold ret; auto.
    + destruct (updateDomainRecord zone domainID x c) as [[e|o] c0];
        unfold ret; auto.
Qed.

Lemma deleteLoop1_forEach domainID records :
  forall acc c,
    Rev1.deleteLoop domainID records acc c
    = forEach (deleteStep domainID) records acc c.
Proof.
  induction records as [|x rest IH]; intros acc c; simpl.
  - reflexivity.
  - unfold bind, deleteStep, bind.
    destruct (deleteDomainRecord domainID x c) as [[e|] c0];
      unfold ret; simpl; auto.
Qed.

(** ** Operations as lookup followed by the loop *)

Lemma run_batch rev op zone records domainID (c c0 : Conn W) :
  isBatch op = true ->
  lookup rev zone c = Some ((domainID, None), c0) ->
  run rev op zone records c
  = Some (forEach (step rev op zone domainID) records
            (start rev op records) c0).
Proof.
  intros Hop Hlook.
  destruct rev as [fuel|], op; try discriminate Hop; simpl in *;
    unfold Rev1.AppendRecords, Rev1.SetRecords, Rev1.DeleteRecords,
           Rev1.withDomain, Rev2.AppendRecords, Rev2.SetRecords,
           Rev2.DeleteRecords, total, bind in *.
  - rewrite Hlook. f_equal. apply appendLoop1_forEach.
  - rewrite Hlook. f_equal. apply setLoop1_forEach.
  - rewrite Hlook. f_equal. apply deleteLoop1_forEach.
  - inversion Hlook as [Hl]. rewrite Hl. f_equal. apply appendLoop2_forEach.
  - inversion Hlook as [Hl]. rewrite Hl. f_equal. apply setLoop2_forEach.
  - inversion Hlook as [Hl]. rewrite Hl. f_equal. apply deleteLoop2_forEach.
Qed.

Lemma run_lookup_failed rev op zone records x err (c c0 : Conn W) :
  lookup rev zone c = Some ((x, Some err), c0) ->
  run rev op zone records c = Some (([], Some (ErrZoneLookup zone err)), c0).
Proof.
  intros Hlook.
  destruct rev as [fuel|], op; simpl in *;
    unfold Rev1.GetRecords, Rev1.AppendRecords, Rev1.SetRecords,
           Rev1.DeleteRecords, Rev1.withDomain, Rev2.GetRecords,
           Rev2.AppendRecords, Rev2.SetRecords, Rev2.DeleteRecords,
           total, bind, ret in *;
    try (rewrite Hlook; reflexivity);
    inversion Hlook as [Hl]; rewrite Hl; reflexivity.
Qed.

(** ** The lookup makes domain listings only *)

Lemma pageLoop_trace fuel zone :
  forall page opts r (c c0 : Conn W),
    Rev1.pageLoop fuel zone page opts c = Some (r, c0) ->
    exists added,
      trace c0 = (trace c ++ added)%list /\ listingsOnly added = true.
Proof.
  induction fuel as [|fuel IH]; intros page opts r c c0 Hrun; simpl in Hrun.
  - discriminate.
  - destruct (page <=? Pages opts).
    + unfold doListDomains, perform in Hrun.
      destruct (ListDomains (withPage page opts) (remote c))
        as [[err|[domains opts']] w].
      * inversion Hrun; subst. simpl.
        exists [CallListDomains (withPage page opts)]. now split.
      * destruct (Rev1.scanDomains domains zone).
        -- inversion Hrun; subst. simpl.
           exists [CallListDomains (withPage page opts)]. now split.
        -- apply IH in Hrun. destruct Hrun as [added [Htr Hall]].
           simpl in Htr.
           exists (CallListDomains (withPage page opts) :: added).
           split; [|exact Hall].
           rewrite Htr, <- app_assoc. reflexivity.
    + inversion Hrun; subst. exists []. split; [|reflexivity].
      now rewrite app_nil_r.
Qed.

Lemma lookup_trace rev zone r (c c0 : Conn W) :
  lookup rev zone c = Some (r, c0) ->
  exists added,
    trace c0 = (trace c ++ added)%list /\ listingsOnly added = true.
Proof.
  destruct rev as [fuel|]; simpl.
  - unfold Rev1.getDomainIDByZone. apply pageLoop_trace.
  - unfold total, Rev2.getDomainIDByZone, MarshalJSON, bind,
      doListDomains, perform, ret.
    set (opts := NewListOptions 0 _).
    destruct (ListDomains opts (remote c)) as [[err|[[|d ds] opts']] w];
      intros Hrun; inversion Hrun; subst; simpl;
      exists [CallListDomains opts]; now split.
Qed.

End LoopFacts.

(* ================================================================== *)
(** * The lookups against the service *)

Section ServiceFacts.
Import linodego Session Common Ops Service.

Lemma filter_all {A} (l : list A) : filter (fun _ => true) l = l.
Proof. induction l; simpl; congruence. Qed.

Lemma scanDomains_find table zone :
  Rev1.scanDomains table zone
  = option_map Domain_ID
      (find (fun d => (Domain_Domain d =? Rev1.trimTrailingDot zone)%string)
            table).
Proof.
  induction table as [|d table IH]; simpl; [reflexivity|].
  destruct (Domain_Domain d =? Rev1.trimTrailingDot zone)%string;
    [reflexivity | exact IH].
Qed.

Lemma find_app {A} (f : A -> bool) (a b : list A) :
  find f (a ++ b) = match find f a with
                    | Some x => Some x
                    | None => find f b
                    end.
Proof.
  induction a as [|x a IH]; simpl; [reflexivity|].
  destruct (f x); [reflexivity | exact IH].
Qed.

Lemma pageCount_covers n size :
  (0 < size)%nat -> (n <= Z.to_nat (pageCount n size) * size)%nat.
Proof.
  intros Hs. unfold pageCount.
  assert (Hq : (n <= (n + size - 1) / size * size)%nat).
  { pose proof (Nat.div_mod_eq (n + size - 1) size) as Hdm.
    pose proof (Nat.mod_upper_bound (n + size - 1) size) as Hmod.
    nia. }
  destruct (Z.max_spec 1 (Z.of_nat ((n + size - 1) / size)))
    as [[_ ->]|[Hle ->]].
  - now rewrite Nat2Z.id.
  - simpl. assert ((n + size - 1) / size <= 1)%nat by lia. nia.
Qed.

Lemma firstn_add {A} (a b : nat) (l : list A) :
  firstn (a + b) l = (firstn a l ++ firstn b (skipn a l))%list.
Proof.
  rewrite <- (firstn_skipn a (firstn (a + b) l)).
  rewrite firstn_firstn, Nat.min_l by lia.
  now rewrite firstn_skipn_comm.
Qed.

Lemma pages_bounds w :
  fits w = true -> 1 <= pages w < GoInt.maxInt64.
Proof.
  unfold fits, pages, pageCount, size. intros Hfit.
  apply Z.ltb_lt in Hfit.
  set (n := List.length (domains w)) in *.
  set (sz := Pos.to_nat (pageSize w)).
  assert (Hsz : (0 < sz)%nat) by apply Pos2Nat.is_pos.
  assert (Hq : ((n + sz - 1) / sz < n + 1)%nat).
  { apply Nat.Div0.div_lt_upper_bound. nia. }
  unfold GoInt.maxInt64 in *. lia.
Qed.

Lemma listDomains_page w k opts :
  Filter_ opts = NoFilter -> (1 <= k)%nat ->
  listDomains (withPage (Z.of_nat k) opts) w
  = (inr (firstn (size w) (skipn ((k - 1) * size w) (domains w)),
          mkListOptions (Z.of_nat k) (pages w)
            (Z.of_nat (List.length (domains w))) NoFilter), w).
Proof.
  intros Hf Hk. unfold listDomains, withPage. simpl. rewrite Hf. simpl.
  replace (filter (selected NoFilter) (domains w)) with (domains w)
    by (symmetry; apply filter_all).
  destruct (Z.eqb_spec (Z.of_nat k) 0) as [E|_]; [lia|].
  unfold pageOf, pages. rewrite Z.max_r by lia. now rewrite Nat2Z.id.
Qed.

(** The page loop, entered at page [k] with the earlier pages searched in
    vain and fuel for the pages that remain, ends with the first match of
    the whole table. *)
Lemma pageLoop_service w zone :
  fits w = true ->
  forall n k fuel opts (c : Conn World),
    remote c = w ->
    Pages opts = pages w \/ (k = 1%nat /\ Pages opts = 1) ->
    Filter_ opts = NoFilter ->
    (1 <= k)%nat -> (k + n = Z.to_nat (pages w) + 1)%nat ->
    (n < fuel)%nat ->
    find (fun d => (Domain_Domain d =? Rev1.trimTrailingDot zone)%string)
         (firstn ((k - 1) * size w) (domains w)) = None ->
    exists c',
      Rev1.pageLoop fuel zone (Z.of_nat k) opts c
      = Some (firstMatch (domains w) (Rev1.trimTrailingDot zone), c')
      /\ remote c' = w.
Proof.
  intros Hfit. pose proof (pages_bounds w Hfit) as HP.
  set (key := fun d => (Domain_Domain d =? Rev1.trimTrailingDot zone)%string).
  induction n as [|n IH]; intros k fuel opts c Hw HPg Hfl Hk Hkn Hfuel Hnone.
  - destruct fuel as [|fuel]; [lia|]. simpl.
    destruct (Z.leb_spec (Z.of_nat k) (Pages opts)) as [Hle|_]; [lia|].
    exists c. split; [|exact Hw]. f_equal. f_equal.
    unfold firstMatch. fold key.
    assert (Hcov : (List.length (domains w) <= (k - 1) * size w)%nat).
    { replace (k - 1)%nat with (Z.to_nat (pages w)) by lia.
      apply pageCount_covers. apply Pos2Nat.is_pos. }
    rewrite firstn_all2 in Hnone by exact Hcov. now rewrite Hnone.
  - destruct fuel as [|fuel]; [lia|]. simpl.
    destruct (Z.leb_spec (Z.of_nat k) (Pages opts)) as [_|Hgt]; [|lia].
    unfold doListDomains, perform. simpl. rewrite Hw.
    rewrite (listDomains_page w k opts Hfl Hk).
    rewrite scanDomains_find. fold key.
    set (page := firstn (size w) (skipn ((k - 1) * size w) (domains w))).
    assert (Hsplit : domains w
                     = (firstn ((k - 1) * size w) (domains w)
                        ++ page ++ skipn (size w) (skipn ((k - 1) * size w)
                                                     (domains w)))%list).
    { unfold page. now rewrite !firstn_skipn. }
    destruct (find key page) as [d|] eqn:Hpage; simpl.
    + eexists. split.
      * f_equal. f_equal.
        unfold firstMatch. fold key. rewrite Hsplit, find_app, Hnone.
        now rewrite find_app, Hpage.
      * reflexivity.
    + assert (Hnext : GoInt.add (Z.of_nat k) 1 = Z.of_nat (k + 1)).
      { unfold GoInt.add, GoInt.wrap. unfold GoInt.maxInt64 in HP.
        rewrite Z.mod_small by lia. lia. }
      rewrite Hnext.
      apply IH; simpl; try reflexivity; try lia; try (now left).
      replace ((k + 1 - 1) * size w)%nat
        with ((k - 1) * size w + size w)%nat by nia.
      rewrite firstn_add, find_app, Hnone. exact Hpage.
Qed.

Lemma lookup1_service w zone fuel (c : Conn World) :
  fits w = true -> remote c = w -> (Z.to_nat (pages w) < fuel)%nat ->
  exists c',
    Rev1.getDomainIDByZone fuel zone c
    = Some (firstMatch (domains w) (Rev1.trimTrailingDot zone), c')
    /\ remote c' = w.
Proof.
  intros Hfit Hw Hfuel. pose proof (pages_bounds w Hfit) as HP.
  unfold Rev1.getDomainIDByZone. simpl.
  apply (pageLoop_service w zone Hfit (Z.to_nat (pages w)) 1 fuel);
    simpl; auto; lia.
Qed.

Lemma lookup2_service w zone (c : Conn World) :
  remote c = w ->
  exists c',
    Rev2.getDomainIDByZone zone c
    = (firstMatch (domains w) (libdns.AbsoluteName zone ""), c')
    /\ remote c' = w.
Proof.
  intros Hw. unfold Rev2.getDomainIDByZone, MarshalJSON, AddField, bind,
    doListDomains, perform, ret. simpl. rewrite Hw.
  unfold listDomains. simpl.
  set (key := libdns.AbsoluteName zone "").
  assert (Hhits : forall l,
            filter (selected (FilterJSON [mkComp "domain" Eq key])) l
            = filter (fun d => (Domain_Domain d =? key)%string) l).
  { intros l. apply filter_ext. intros d. unfold selected, satisfies. simpl.
    now rewrite andb_true_r. }
  rewrite Hhits. unfold firstMatch.
  induction (domains w) as [|d l IH]; simpl.
  - eexists. split; reflexivity.
  - destruct (Domain_Domain d =? key)%string; simpl.
    + eexists. split; reflexivity.
    + destruct IH as [c' [IH1 IH2]].
      destruct (filter _ l) as [|d' l'] eqn:Hl;
        destruct (find _ l) as [d''|] eqn:Hfind;
        inversion IH1; subst; eexists; split; reflexivity.
Qed.

Lemma lookup_service rev zone w (c : Conn World) :
  fits w = true -> Samples.enoughFuel rev w = true -> remote c = w ->
  exists c0,
    lookup rev zone c = Some (firstMatch (domains w) (lookupKey rev zone), c0)
    /\ remote c0 = w.
Proof.
  intros Hfit Hfuel Hw. destruct rev as [fuel|]; simpl in *.
  - apply Nat.ltb_lt in Hfuel. now apply lookup1_service.
  - unfold total. destruct (lookup2_service w zone c Hw) as [c0 [-> Hc0]].
    now exists c0.
Qed.

Lemma firstMatch_absent table key :
  absent table key = true -> firstMatch table key = (0, Some ErrDomainNotFound).
Proof.
  unfold absent, firstMatch. induction table as [|d table IH]; simpl.
  - reflexivity.
  - destruct (Domain_Domain d =? key)%string; simpl; [discriminate|exact IH].
Qed.

End ServiceFacts.

(* ================================================================== *)
(** * Domain resolution *)

Section Resolution.
Import linodego Session Common Ops Service Samples.

Lemma pageLoop_key {W} `{Client W} fuel zone zone' :
  Rev1.trimTrailingDot zone = Rev1.trimTrailingDot zone' ->
  forall page opts (c : Conn W),
    Rev1.pageLoop fuel zone page opts c = Rev1.pageLoop fuel zone' page opts c.
Proof.
  intros Hkey. induction fuel as [|fuel IH]; intros page opts c; simpl.
  - reflexivity.
  - destruct (page <=? Pages opts); [|reflexivity].
    destruct (doListDomains (withPage page opts) c)
      as [[err|[domains opts']] c0]; [reflexivity|].
    rewrite !scanDomains_find, Hkey.
    destruct (find _ domains); simpl; [reflexivity | apply IH].
Qed.

(** C3 — a zone name and the same name followed by "." are resolved under
    the identical key, and so to the same result: the same domain ID or
    the same error, whatever the remote holds and answers. *)
Theorem trailing_dot_same_resolution {W} `{Client W} :
  forall rev zone (c : Conn W),
    strings.HasSuffix zone "." = false ->
    lookupKey rev (zone ++ ".") = lookupKey rev zone
    /\ lookup rev (zone ++ ".") c = lookup rev zone c.
Proof.
  intros rev zone c Hz. destruct rev as [fuel|]; simpl.
  - split; [now apply trailing_dot_key1|].
    unfold Rev1.getDomainIDByZone. apply pageLoop_key.
    now apply trailing_dot_key1.
  - split; [apply trailing_dot_key2|].
    unfold total, Rev2.getDomainIDByZone. now rewrite trailing_dot_key2.
Qed.

Lemma trailing_dot_same_resolution_witness :
  strings.HasSuffix "example.com" "." = false
  /\ (lookupKey (R1 5) ("example.com" ++ ".") = lookupKey (R1 5) "example.com"
      /\ lookup (R1 5) ("example.com" ++ ".") (connect threePages)
         = lookup (R1 5) "example.com" (connect threePages)).
Proof.
  split; [reflexivity|].
  apply (trailing_dot_same_resolution (R1 5) "example.com"
           (connect threePages)).
  reflexivity.
Defined.

(** C2, as the code has it — on a plain zone name (no dot at either end
    once one trailing dot is set aside) the paged scan and the filtered
    query give the same domain ID or both the domain-not-found error, for
    every domain table and page size, once the scan has fuel for the
    pages of the table. *)
Theorem strategies_agree_on_plain_zones :
  forall zone w fuel (c : Conn World),
    plainZone zone = true ->
    fits w = true -> remote c = w -> (Z.to_nat (pages w) < fuel)%nat ->
    option_map fst (Rev1.getDomainIDByZone fuel zone c)
    = Some (fst (Rev2.getDomainIDByZone zone c))
    /\ fst (Rev2.getDomainIDByZone zone c)
       = firstMatch (domains w) (Rev1.trimTrailingDot zone).
Proof.
  intros zone w fuel c Hplain Hfit Hw Hfuel.
  destruct (lookup1_service w zone fuel c Hfit Hw Hfuel) as [c1 [-> _]].
  destruct (lookup2_service w zone c Hw) as [c2 [-> _]].
  simpl. rewrite (plainZone_keys zone Hplain). now split.
Qed.

Lemma strategies_agree_on_plain_zones_witness :
  plainZone "example.com." = true
  /\ fits threePages = true
  /\ (Z.to_nat (pages threePages) < 4)%nat
  /\ option_map fst
       (Rev1.getDomainIDByZone 4 "example.com." (connect threePages))
     = Some (42, None).
Proof.
  split; [reflexivity|]. split; [reflexivity|]. split; [vm_compute; lia|].
  exact (proj1 (strategies_agree_on_plain_zones "example.com." threePages 4
                  (connect threePages) eq_refl eq_refl eq_refl
                  ltac:(vm_compute; lia))).
Defined.

(** C2, as the spec has it, fails: a zone name with two trailing dots is
    looked up as "example.com." by the paged scan, which finds nothing,
    and as "example.com" by the filtered query, which finds domain 42. *)
Lemma strategies_differ_on_double_dot :
  fst (Rev2.getDomainIDByZone "example.com.." (connect oneDomain))
  = (42, None)
  /\ option_map fst
       (Rev1.getDomainIDByZone 2 "example.com.." (connect oneDomain))
     = Some (0, Some ErrDomainNotFound)
  /\ ~ (exists fuel,
          option_map fst
            (Rev1.getDomainIDByZone fuel "example.com.." (connect oneDomain))
          = Some (fst (Rev2.getDomainIDByZone "example.com.."
                         (connect oneDomain)))).
Proof.
  split; [reflexivity|]. split; [reflexivity|].
  intros [fuel Hsame].
  destruct fuel as [|[|fuel]]; vm_compute in Hsame; discriminate.
Qed.

End Resolution.

(* ================================================================== *)
(** * Sequencing: lookup first, then one attempt per record *)

Section Sequencing.
Import linodego Session Common Batch Ops Service Samples.



(** C8 — when the domain lookup fails, every operation returns the lookup
    error (wrapped with the zone name) and an empty list, and the only
    calls made are the lookup's domain listings: no record-level call.
    Against the service, a zone that names no domain of the table makes
    the lookup fail with the domain-not-found error, so [GetRecords]
    fails with it and lists no records. *)
Theorem no_record_call_without_domain :
  (forall W (api : Client W) rev op zone records x err (c c0 : Conn W),
     lookup rev zone c = Some ((x, Some err), c0) ->
     run rev op zone records c
       = Some (([], Some (ErrZoneLookup zone err)), c0)
     /\ exists added,
          trace c0 = (trace c ++ added)%list /\ listingsOnly added = true)
  /\ (forall rev op zone records w (c : Conn World),
        fits w = true -> enoughFuel rev w = true -> remote c = w ->
        absent (domains w) (lookupKey rev zone) = true ->
        exists c0 added,
          run rev op zone records c
            = Some (([], Some (ErrZoneLookup zone ErrDomainNotFound)), c0)
          /\ remote c0 = w
          /\ trace c0 = (trace c ++ added)%list
          /\ listingsOnly added = true).
Proof.
  split.
  - intros W api rev op zone records x err c c0 Hlook. split.
    + now apply (run_lookup_failed rev op zone records x).
    + eapply lookup_trace. exact Hlook.
  - intros rev op zone records w c Hfit Hfuel Hw Habs.
    destruct (lookup_service rev zone w c Hfit Hfuel Hw) as [c0 [Hlook Hc0]].
    rewrite (firstMatch_absent _ _ Habs) in Hlook.
    destruct (lookup_trace rev zone _ c c0 Hlook) as [added [Htr Hall]].
    exists c0, added. split; [|now repeat split].
    now apply (run_lookup_failed rev op zone records 0).
Qed.

Lemma no_record_call_without_domain_witness :
  absent (domains threePages) (lookupKey (R1 4) "example.io") = true
  /\ exists c0 added,
       run (R1 4) Get "example.io" [] (connect threePages)
         = Some (([], Some (ErrZoneLookup "example.io" ErrDomainNotFound)), c0)
       /\ remote c0 = threePages
       /\ trace c0 = (trace (connect threePages) ++ added)%list
       /\ listingsOnly added = true.
Proof.
  split; [reflexivity|].
  apply (proj2 no_record_call_without_domain (R1 4) Get "example.io" []
           threePages (connect threePages) eq_refl eq_refl eq_refl eq_refl).
Defined.

End Sequencing.

(* ================================================================== *)
(** * What each operation asks of the remote *)

Section Requests.
Import linodego Session Common Batch Ops Service Samples.

Lemma create_trace {W} `{Client W} rev zone domainID record (c : Conn W) :
  trace (snd (step rev Append zone domainID record c))
  = (trace c
     ++ [CallCreateDomainRecord domainID (createOptions zone record)])%list.
Proof.
  destruct rev as [fuel|]; simpl;
    unfold Rev1.createDomainRecord, Rev2.createDomainRecord, bind,
           doCreateDomainRecord, perform, ret;
    destruct (CreateDomainRecord domainID (createOptions zone record)
                (remote c)) as [[err|r] w]; reflexivity.
Qed.

Lemma withID_withID v v' r : withID v (withID v' r) = withID v r.
Proof. reflexivity. Qed.

Lemma create_ignores_ID {W} `{Client W} rev zone domainID id record
    (c : Conn W) :
  step rev Append zone domainID (withID id record) c
  = step rev Append zone domainID record c.
Proof.
  destruct rev as [fuel|]; simpl;
    unfold Rev1.createDomainRecord, Rev2.createDomainRecord, bind,
           doCreateDomainRecord, perform, ret;
    change (createOptions zone (withID id record))
      with (createOptions zone record);
    destruct (CreateDomainRecord domainID (createOptions zone record)
                (remote c)) as [[err|r] w]; reflexivity.
Qed.

Lemma forEach_map {W} `{Client W} step (f : libdns.Record -> libdns.Record)
    records :
  (forall x (c : Conn W), step (f x) c = step x c) ->
  forall acc c, forEach step (map f records) acc c
                = forEach step records acc c.
Proof.
  intros Hstep. induction records as [|x rest IH]; intros acc c; simpl.
  - reflexivity.
  - unfold bind. rewrite Hstep.
    destruct (step x c) as [[err|out] c0]; [reflexivity | apply IH].
Qed.

(** The loop of Append makes one create call per record, in order, up to
    and including the first that fails. *)
Lemma append_loop_calls {W} `{Client W} rev zone domainID rs :
  forall acc (c : Conn W),
    exists k,
      trace (snd (forEach (step rev Append zone domainID) rs acc c))
      = (trace c
         ++ map (fun r =>
                   CallCreateDomainRecord domainID (createOptions zone r))
                (firstn k rs))%list
      /\ (snd (fst (forEach (step rev Append zone domainID) rs acc c)) = None
          -> k = List.length rs).
Proof.
  induction rs as [|x rest IH]; intros acc c.
  - exists 0%nat. simpl. now rewrite app_nil_r.
  - simpl forEach. unfold bind.
    pose proof (create_trace rev zone domainID x c) as Hx.
    destruct (step rev Append zone domainID x c) as [[err|out] c0];
      simpl in Hx.
    + exists 1%nat. simpl. split; [exact Hx | discriminate].
    + destruct (IH (acc ++ [out])%list c0) as [k [Htr Hall]].
      exists (S k). split.
      * rewrite Htr, Hx, <- app_assoc. reflexivity.
      * intros Hok. simpl. f_equal. now apply Hall.
Qed.

(** ** Set: create, update or refuse, by the record's ID *)

Lemma set_step_call {W} `{Client W} rev zone domainID record (c : Conn W) :
  match setCall zone domainID record with
  | inl err => step rev Set_ zone domainID record c = (inl err, c)
  | inr call =>
      trace (snd (step rev Set_ zone domainID record c))
      = (trace c ++ [call])%list
  end.
Proof.
  unfold setCall.
  destruct rev as [fuel|]; simpl;
    unfold setStep1, Rev2.createOrUpdateDomainRecord, bind;
    destruct (libdns.ID record =? "")%string.
  - apply (create_trace (R1 fuel)).
  - unfold Common.updateDomainRecord.
    destruct (strconv.Atoi (libdns.ID record)) as [err|recordID];
      [reflexivity|].
    unfold bind, doUpdateDomainRecord, perform, ret.
    destruct (UpdateDomainRecord domainID recordID
                (updateOptions zone record) (remote c)) as [[err|r] w];
      reflexivity.
  - pose proof (create_trace R2 zone domainID record c) as Hc.
    simpl in Hc.
    destruct (Rev2.createDomainRecord zone domainID record c)
      as [[err|r] c0]; exact Hc.
  - unfold Common.updateDomainRecord.
    destruct (strconv.Atoi (libdns.ID record)) as [err|recordID];
      [reflexivity|].
    unfold bind, doUpdateDomainRecord, perform, ret.
    destruct (UpdateDomainRecord domainID recordID
                (updateOptions zone record) (remote c)) as [[err|r] w];
      reflexivity.
Qed.

(** Every attempt of Set leaves the calls made so far in place. *)
Lemma set_step_extends {W} `{Client W} rev zone domainID record
    (c : Conn W) :
  exists later,
    trace (snd (step rev Set_ zone domainID record c))
    = (trace c ++ later)%list.
Proof.
  pose proof (set_step_call rev zone domainID record c) as Hcall.
  destruct (setCall zone domainID record) as [err|call].
  - exists []. rewrite Hcall. simpl. now rewrite app_nil_r.
  - now exists [call].
Qed.

Lemma forEach_extends {W} `{Client W} step :
  (forall x (c : Conn W),
     exists later, trace (snd (step x c)) = (trace c ++ later)%list) ->
  forall records acc c,
    exists later,
      trace (snd (forEach step records acc c)) = (trace c ++ later)%list.
Proof.
  intros Hstep rs. induction rs as [|x rest IH]; intros acc c; simpl.
  - exists []. now rewrite app_nil_r.
  - unfold bind. destruct (Hstep x c) as [l1 Hl1].
    destruct (step x c) as [[err|out] c0]; simpl in *.
    + now exists l1.
    + destruct (IH (acc ++ [out])%list c0) as [l2 Hl2].
      exists (l1 ++ l2)%list. now rewrite Hl2, Hl1, app_assoc.
Qed.

Lemma Atoi_error s err :
  strconv.Atoi s = inl err -> exists kind, err = NumError "Atoi" s kind.
Proof.
  unfold strconv.Atoi. destruct (strconv.ParseInt s) as [kind|n];
    intros Hs; inversion Hs. now exists kind.
Qed.

Lemma forEach_cons_call {W} `{Client W} step x post acc call (c : Conn W) :
  (forall y (c' : Conn W),
     exists later, trace (snd (step y c')) = (trace c' ++ later)%list) ->
  trace (snd (step x c)) = (trace c ++ [call])%list ->
  exists res c' later,
    forEach step (x :: post) acc c = (res, c')
    /\ trace c' = (trace c ++ call :: later)%list.
Proof.
  intros Hext Hx. simpl. unfold bind.
  destruct (step x c) as [[err|out] c0]; simpl in Hx.
  - exists ([], Some err), c0, []. now split.
  - destruct (forEach_extends step Hext post (acc ++ [out])%list c0)
      as [later Hlater].
    destruct (forEach step post (acc ++ [out])%list c0) as [res c'] eqn:Hrun.
    simpl in Hlater. exists res, c', later. split; [reflexivity|].
    now rewrite Hlater, Hx, <- app_assoc.
Qed.

(** C4 — Set, having got as far as a record: with an empty ID it asks the
    remote to create the record; with an ID that [Atoi] reads as the
    number [recordID] it asks to update record [recordID]; with any other
    ID it returns [Atoi]'s error and the connection is as it was before
    the record: no call was made for it, nor for any record after it. *)
Theorem set_creates_updates_or_rejects {W} `{Client W} :
  forall rev zone pre record post domainID acc (c c0 c1 : Conn W),
    lookup rev zone c = Some ((domainID, None), c0) ->
    forEach (step rev Set_ zone domainID) pre [] c0 = ((acc, None), c1) ->
    (libdns.ID record = "" ->
       exists res c2 later,
         run rev Set_ zone (pre ++ record :: post) c = Some (res, c2)
         /\ trace c2
            = (trace c1
               ++ CallCreateDomainRecord domainID (createOptions zone record)
               :: later)%list)
    /\ (forall recordID,
          libdns.ID record <> "" ->
          strconv.Atoi (libdns.ID record) = inr recordID ->
          exists res c2 later,
            run rev Set_ zone (pre ++ record :: post) c = Some (res, c2)
            /\ trace c2
               = (trace c1
                  ++ CallUpdateDomainRecord domainID recordID
                       (updateOptions zone record)
                  :: later)%list)
    /\ (forall err,
          libdns.ID record <> "" ->
          strconv.Atoi (libdns.ID record) = inl err ->
          run rev Set_ zone (pre ++ record :: post) c
            = Some (([], Some err), c1)
          /\ exists kind, err = NumError "Atoi" (libdns.ID record) kind).
Proof.
  intros rev zone pre record post domainID acc c c0 c1 Hlook Hpre.
  assert (Hrun : run rev Set_ zone (pre ++ record :: post) c
                 = Some (forEach (step rev Set_ zone domainID)
                           (record :: post) acc c1)).
  { rewrite (run_batch rev Set_ zone _ domainID c c0 eq_refl Hlook).
    f_equal. apply forEach_app.
    destruct rev; exact Hpre. }
  pose proof (set_step_call rev zone domainID record c1) as Hcall.
  unfold setCall in Hcall.
  split; [|split].
  - intros Hid. apply String.eqb_eq in Hid. rewrite Hid in Hcall.
    destruct (forEach_cons_call _ record post acc _ c1
                (set_step_extends rev zone domainID) Hcall)
      as [res [c2 [later [Hfe Htr]]]].
    exists res, c2, later. now rewrite Hrun, Hfe.
  - intros recordID Hid Hnum. apply String.eqb_neq in Hid.
    rewrite Hid, Hnum in Hcall.
    destruct (forEach_cons_call _ record post acc _ c1
                (set_step_extends rev zone domainID) Hcall)
      as [res [c2 [later [Hfe Htr]]]].
    exists res, c2, later. now rewrite Hrun, Hfe.
  - intros err Hid Hnum. apply String.eqb_neq in Hid.
    rewrite Hid, Hnum in Hcall. split.
    + rewrite Hrun. f_equal. now apply forEach_fail.
    + now apply Atoi_error.
Qed.

Lemma set_creates_updates_or_rejects_witness :
  let c0 := snd (Rev2.getDomainIDByZone "example.com" (connect oneDomain)) in
  let c1 := snd (forEach (step R2 Set_ "example.com" 42) [txt] [] c0) in
  lookup R2 "example.com" (connect oneDomain) = Some ((42, None), c0)
  /\ fst (forEach (step R2 Set_ "example.com" 42) [txt] [] c0)
     = ([libdns.mkRecord "1000" "TXT" "_acme-challenge" "abc123"
           300000000000 0], None)
  /\ libdns.ID odd <> ""
  /\ strconv.Atoi (libdns.ID odd) = inl (NumError "Atoi" "x7" ErrSyntax)
  /\ run R2 Set_ "example.com" ([txt] ++ odd :: [www]) (connect oneDomain)
     = Some (([], Some (NumError "Atoi" "x7" ErrSyntax)), c1).
Proof.
  intros c0 c1.
  assert (H0 : lookup R2 "example.com" (connect oneDomain)
               = Some ((42, None), c0)) by (vm_compute; reflexivity).
  assert (H1 : forEach (step R2 Set_ "example.com" 42) [txt] [] c0
               = (([libdns.mkRecord "1000" "TXT" "_acme-challenge" "abc123"
                      300000000000 0], None), c1))
    by (vm_compute; reflexivity).
  assert (H2 : libdns.ID odd <> "") by discriminate.
  assert (H3 : strconv.Atoi (libdns.ID odd)
               = inl (NumError "Atoi" "x7" ErrSyntax))
    by (vm_compute; reflexivity).
  split; [exact H0|]. split; [now rewrite H1|].
  split; [exact H2|]. split; [exact H3|].
  exact (proj1 (proj2 (proj2
           (set_creates_updates_or_rejects R2 "example.com" [txt] odd [www]
              42 _ (connect oneDomain) c0 c1 H0 H1)) _ H2 H3)).
Defined.

(** ** Delete: what is returned *)

Lemma deleteStep_output {W} `{Client W} domainID x out (c c0 : Conn W) :
  deleteStep domainID x c = (inr out, c0) -> out = x.
Proof.
  unfold deleteStep, bind.
  destruct (Common.deleteDomainRecord domainID x c) as [[err|] c1];
    unfold ret; intros Hs; now inversion Hs.
Qed.

Lemma delete_loop_result {W} `{Client W} domainID rs :
  forall acc out (c c' : Conn W),
    forEach (deleteStep domainID) rs acc c = ((out, None), c') ->
    out = (acc ++ rs)%list.
Proof.
  induction rs as [|x rest IH]; intros acc out c c' Hrun; simpl in Hrun.
  - unfold ret in Hrun. inversion Hrun. now rewrite app_nil_r.
  - unfold bind in Hrun.
    destruct (deleteStep domainID x c) as [[err|o] c0] eqn:Hstep;
      [discriminate|].
    apply deleteStep_output in Hstep. subst o.
    apply IH in Hrun. now rewrite Hrun, <- app_assoc.
Qed.

(** When no delete fails, the second revision returns the input records
    and the first returns as many zero records followed by them. *)
Lemma delete_result_by_revision {W} `{Client W} rev zone rs out
    (c c' : Conn W) :
  run rev Delete zone rs c = Some ((out, None), c') ->
  out = (start rev Delete rs ++ rs)%list.
Proof.
  intros Hrun.
  destruct rev as [fuel|]; simpl in *.
  - unfold Rev1.DeleteRecords, Rev1.withDomain in Hrun.
    destruct (Rev1.getDomainIDByZone fuel zone c) as [[[d [err|]] c0]|];
      try discriminate.
    inversion Hrun as [Hloop]. rewrite deleteLoop1_forEach in Hloop.
    now apply delete_loop_result in Hloop.
  - unfold total, Rev2.DeleteRecords, bind in Hrun.
    destruct (Rev2.getDomainIDByZone zone c) as [[d [err|]] c0];
      inversion Hrun as [Hloop]; try discriminate.
    rewrite deleteLoop2_forEach in Hloop.
    now apply delete_loop_result in Hloop.
Qed.

(** C1 — Delete in [provider.go] starts its result from a slice that
    already has one zero record per input record, so deleting the one
    record 7 returns two records: a zero record, then record 7.  The
    second revision returns record 7 alone. *)
Theorem delete_returns_leading_zero_records :
  option_map fst
    (Rev1.DeleteRecords 2 "example.com" [www] (connect oneDomain))
  = Some ([libdns.zeroRecord; www], None)
  /\ fst (Rev2.DeleteRecords "example.com" [www] (connect oneDomain))
     = ([www], None).
Proof. split; vm_compute; reflexivity. Qed.

(** ** The merge *)

(** C10 — merging a remote record into an existing generic record sets
    ID, type, name, value and TTL from the remote record and keeps the
    existing priority, the one field outside the mapping; from no
    existing record the priority is that of the zero record; a record
    that Set updates comes back with the priority it went in with. *)
Theorem merge_keeps_priority :
  forall zone existing (remoteRecord : DomainRecord),
    mergeWithExistingLibdns zone (Some existing) remoteRecord
    = libdns.mkRecord
        (strconv.Itoa (DomainRecord_ID remoteRecord))
        (DomainRecord_Type remoteRecord)
        (libdns.RelativeName (DomainRecord_Name remoteRecord) zone)
        (DomainRecord_Target remoteRecord)
        (ttlOfSec (DomainRecord_TTLSec remoteRecord))
        (libdns.Priority existing)
    /\ libdns.Priority (mergeWithExistingLibdns zone None remoteRecord) = 0
    /\ forall W (api : Client W) domainID (c : Conn W),
         match fst (Common.updateDomainRecord zone domainID existing c) with
         | inr updated => libdns.Priority updated = libdns.Priority existing
         | inl _ => True
         end.
Proof.
  intros zone existing remoteRecord.
  split; [reflexivity|]. split; [reflexivity|].
  intros W api domainID c. unfold Common.updateDomainRecord.
  destruct (strconv.Atoi (libdns.ID existing)) as [err|recordID];
    [exact I|].
  unfold bind, doUpdateDomainRecord, perform, ret.
  destruct (UpdateDomainRecord domainID recordID
              (updateOptions zone existing) (remote c)) as [[err|r] w];
    simpl; [exact I | reflexivity].
Qed.

End Requests.

(* ================================================================== *)
(** * Facts about [float64] arithmetic *)

Section FloatFacts.
Import time Rounding.

Lemma digits2_size p : digits2_pos p = Pos.size p.
Proof. induction p; simpl; congruence. Qed.

Lemma Zdigits2_bounds m :
  0 < m -> 2 ^ (Zdigits2 m - 1) <= m < 2 ^ Zdigits2 m.
Proof.
  destruct m as [|p|p]; try lia. intros _. simpl Zdigits2.
  rewrite digits2_size.
  pose proof (Pos.size_gt p) as Hgt. pose proof (Pos.size_le p) as Hle.
  apply Pos2Z.pos_lt_pos in Hgt. apply Pos2Z.pos_le_pos in Hle.
  rewrite Pos2Z.inj_pow in Hgt, Hle.
  replace (Z.pos (Pos.size p)) with (Z.succ (Z.pos (Pos.size p) - 1))
    in Hle at 1 by lia.
  rewrite Z.pow_succ_r in Hle by lia. lia.
Qed.

Lemma Zdigits2_unique m k :
  0 < m -> 2 ^ (k - 1) <= m < 2 ^ k -> Zdigits2 m = k.
Proof.
  intros Hm [Hlo Hhi]. pose proof (Zdigits2_bounds m Hm) as [Hlo' Hhi'].
  assert (Hd : 0 < Zdigits2 m) by (destruct m; simpl; lia).
  assert (0 < k).
  { destruct (Z.lt_ge_cases 0 k) as [|Hk]; [assumption|].
    rewrite (Z.pow_neg_r 2 (k - 1)) in Hlo by lia.
    assert (2 ^ k <= 1).
    { destruct (Z.eq_dec k 0) as [->|]; [simpl; lia|].
      rewrite Z.pow_neg_r; lia. }
    lia. }
  destruct (Z.lt_trichotomy (Zdigits2 m) k) as [Hlt|[Heq|Hgt]]; auto.
  - assert (2 ^ Zdigits2 m <= 2 ^ (k - 1)) by (apply Z.pow_le_mono_r; lia). lia.
  - assert (2 ^ k <= 2 ^ (Zdigits2 m - 1)) by (apply Z.pow_le_mono_r; lia). lia.
Qed.

Lemma iter_pos_nat {A} (f : A -> A) p x :
  iter_pos f p x = Nat.iter (Pos.to_nat p) f x.
Proof.
  revert x. induction p as [p IH|p IH|]; intros x.
  - change (iter_pos f p~1 x) with (iter_pos f p (iter_pos f p (f x))).
    rewrite !IH, Pos2Nat.inj_xI, <- Nat.iter_add, <- Nat.iter_succ_r.
    f_equal. lia.
  - change (iter_pos f p~0 x) with (iter_pos f p (iter_pos f p x)).
    rewrite !IH, Pos2Nat.inj_xO, <- Nat.iter_add.
    f_equal. lia.
  - reflexivity.
Qed.

Lemma locOf_low r0 D :
  0 <= r0 < D ->
  locOf r0 (2 * D) = if r0 =? 0 then loc_Exact else loc_Inexact Lt.
Proof.
  intros Hr. unfold locOf. destruct (Z.eqb_spec r0 0); [reflexivity|].
  f_equal. apply Z.compare_lt_iff. lia.
Qed.

Lemma locOf_high r0 D :
  0 <= r0 < D ->
  locOf (D + r0) (2 * D) = loc_Inexact (if r0 =? 0 then Eq else Gt).
Proof.
  intros Hr. unfold locOf. destruct (Z.eqb_spec (D + r0) 0); [lia|].
  f_equal. destruct (Z.eqb_spec r0 0).
  - apply Z.compare_eq_iff. lia.
  - apply Z.compare_gt_iff. lia.
Qed.

Lemma sticky_of_loc m r s r0 D :
  loc_of_shr_record (Build_shr_record m r s) = locOf r0 D ->
  orb r s = negb (r0 =? 0).
Proof.
  unfold locOf. destruct (r0 =? 0), r, s; simpl; intros Hl;
    try discriminate; reflexivity.
Qed.

Lemma shr_1_repr mrs N D :
  Repr mrs N D -> Repr (shr_1 mrs) N (2 * D).
Proof.
  intros (HD & HN & Hm & Hl).
  assert (Hdiv : N / (2 * D) = (N / D) / 2).
  { rewrite Z.mul_comm. now rewrite Z.div_div by lia. }
  assert (Hmod : N mod (2 * D) = (N / D) mod 2 * D + N mod D).
  { pose proof (Z.div_mod N (2 * D) ltac:(lia)).
    pose proof (Z.div_mod N D ltac:(lia)).
    pose proof (Z.div_mod (N / D) 2 ltac:(lia)).
    rewrite <- Hdiv in *. nia. }
  pose proof (Z.mod_pos_bound N D HD) as Hr.
  pose proof (Z.div_pos N D HN HD) as Hq.
  destruct mrs as [m r s]. simpl in Hm. subst m.
  apply sticky_of_loc in Hl.
  unfold Repr. split; [lia|]. split; [lia|].
  rewrite Hdiv, Hmod. clear Hdiv Hmod.
  set (q := N / D) in *. set (r0 := N mod D) in *.
  destruct q as [|[p|p|]|p]; try lia; unfold shr_1; rewrite Hl; simpl shr_m.
  - split; [reflexivity|]. change (0 mod 2 * D + r0) with r0.
    rewrite locOf_low by lia. simpl. now destruct (r0 =? 0).
  - split.
    + rewrite Pos2Z.inj_xI, Z.add_comm, Z.mul_comm, Z.div_add by lia.
      reflexivity.
    + replace (Z.pos p~1 mod 2) with 1
        by (rewrite Pos2Z.inj_xI, Z.add_comm, Z.mul_comm, Z.mod_add by lia;
            reflexivity).
      rewrite Z.mul_1_l, locOf_high by lia. simpl. now destruct (r0 =? 0).
  - split.
    + rewrite Pos2Z.inj_xO, Z.mul_comm, Z.div_mul by lia. reflexivity.
    + replace (Z.pos p~0 mod 2) with 0
        by (rewrite Pos2Z.inj_xO, Z.mul_comm, Z.mod_mul by lia; reflexivity).
      rewrite Z.mul_0_l, Z.add_0_l, locOf_low by lia.
      simpl. now destruct (r0 =? 0).
  - split; [reflexivity|]. change (1 mod 2) with 1.
    rewrite Z.mul_1_l, locOf_high by lia. simpl. now destruct (r0 =? 0).
Qed.

Lemma shr_iter_repr n mrs N D :
  Repr mrs N D -> Repr (Nat.iter n shr_1 mrs) N (D * 2 ^ Z.of_nat n).
Proof.
  intros Hrep. induction n as [|n IH].
  - simpl. now rewrite Z.mul_1_r.
  - rewrite Nat2Z.inj_succ, Z.pow_succ_r by lia.
    replace (D * (2 * 2 ^ Z.of_nat n)) with (2 * (D * 2 ^ Z.of_nat n)) by lia.
    simpl. now apply shr_1_repr.
Qed.

(** [shr] by [n] bits, or not at all when [n <= 0]. *)
Lemma shr_repr mrs e n N D :
  Repr mrs N D ->
  Repr (fst (shr mrs e n)) N (D * 2 ^ Z.max 0 n)
  /\ snd (shr mrs e n) = e + Z.max 0 n.
Proof.
  intros Hrep. destruct n as [|p|p]; unfold shr; cbn [fst snd].
  - rewrite Z.max_l, Z.mul_1_r by lia. split; [exact Hrep | lia].
  - rewrite iter_pos_nat, Z.max_r by lia. split; [|reflexivity].
    rewrite <- (positive_nat_Z p). now apply shr_iter_repr.
  - rewrite Z.max_l, Z.mul_1_r by lia. split; [exact Hrep | lia].
Qed.

(** ** Rounding to nearest *)

Lemma rne_floor_ceil N D :
  0 < D -> 0 <= N -> N / D <= rne N D <= N / D + 1.
Proof.
  intros HD HN. unfold rne, round_nearest_even, locOf.
  destruct (N mod D =? 0); [lia|].
  destruct (2 * (N mod D) ?= D); try lia.
  destruct (Z.even (N / D)); lia.
Qed.

(** Below the midpoint the result is the floor. *)
Lemma rne_down N D :
  0 < D -> 0 <= N -> 2 * (N mod D) < D -> rne N D = N / D.
Proof.
  intros HD HN Hlt. unfold rne, round_nearest_even, locOf.
  destruct (N mod D =? 0); [reflexivity|].
  apply Z.compare_lt_iff in Hlt. now rewrite Hlt.
Qed.

Lemma rne_exact N D :
  0 < D -> N mod D = 0 -> rne N D = N / D.
Proof.
  intros HD Hr. unfold rne, round_nearest_even, locOf. now rewrite Hr.
Qed.

(** The result is within half a unit of [N/D]. *)
Lemma rne_error N D :
  0 < D -> 0 <= N -> 2 * rne N D * D <= 2 * N + D.
Proof.
  intros HD HN. unfold rne, round_nearest_even, locOf.
  pose proof (Z.div_mod N D ltac:(lia)) as Hdm.
  pose proof (Z.mod_pos_bound N D HD) as Hr.
  destruct (Z.eqb_spec (N mod D) 0); [nia|].
  destruct (Z.compare_spec (2 * (N mod D)) D); try nia.
  destruct (Z.even (N / D)); nia.
Qed.

Lemma loc_of_record_of_loc m l :
  loc_of_shr_record (shr_record_of_loc m l) = l
  /\ shr_m (shr_record_of_loc m l) = m.
Proof. destruct l as [|[| |]]; split; reflexivity. Qed.

Lemma fexp_shift d ex :
  0 < d -> -1074 <= ex ->
  Z.max 0 (fexp prec emax (d + ex) - ex) = Z.max 0 (d - 53).
Proof. unfold fexp, emin, prec, emax. lia. Qed.

Lemma Zdigits2_le m k :
  0 < m -> m < 2 ^ k -> Zdigits2 m <= k.
Proof.
  intros Hm Hk. pose proof (Zdigits2_bounds m Hm) as [Hlo _].
  destruct (Z.le_gt_cases (Zdigits2 m) k) as [|Hgt]; [assumption|].
  assert (2 ^ k <= 2 ^ (Zdigits2 m - 1)).
  { apply Z.pow_le_mono_r; lia. }
  lia.
Qed.

(** [binary_round_aux] on a positive value [N/D * 2^ex] that needs neither
    a subnormal nor an infinity: the mantissa is [N/D], shifted down to 53
    bits when it is longer, rounded to nearest even. *)
Lemma binary_round_aux_spec sx mx ex N D :
  0 < D -> 0 <= N -> mx = N / D -> 0 < mx -> -1074 <= ex ->
  let n := Z.max 0 (Zdigits2 mx - 53) in
  let R := rne N (D * 2 ^ n) in
  let e1 := ex + n in
  e1 + 1 <= 971 ->
  0 < R <= 2 ^ 53
  /\ (0 < n -> 2 ^ 52 <= R)
  /\ binary_round_aux prec emax sx mx ex (locOf (N mod D) D)
     = if R <? 2 ^ 53 then S754_finite sx (Z.to_pos R) e1
       else S754_finite sx (Z.to_pos (2 ^ 52)) (e1 + 1).
Proof.
  intros HD HN Hmx Hpos Hex n R e1 He1.
  assert (Hd : 0 < Zdigits2 mx) by (destruct mx; simpl; lia).
  pose proof (Zdigits2_bounds mx Hpos) as [Hlo Hhi].
  assert (Hn : 0 <= n) by (unfold n; lia).
  assert (H2n : 0 < 2 ^ n) by (apply Z.pow_pos_nonneg; lia).
  assert (Hfloor : N / (D * 2 ^ n) = mx / 2 ^ n).
  { rewrite Hmx, Z.div_div by lia. reflexivity. }
  assert (Hq : (n = 0 /\ mx / 2 ^ n = mx /\ mx < 2 ^ 53)
               \/ (0 < n /\ 2 ^ 52 <= mx / 2 ^ n < 2 ^ 53)).
  { destruct (Z.le_gt_cases (Zdigits2 mx) 53) as [Hle|Hgt].
    - left. assert (n = 0) by (unfold n; lia). split; [assumption|].
      split; [rewrite H; simpl; apply Z.div_1_r|].
      assert (2 ^ Zdigits2 mx <= 2 ^ 53) by (apply Z.pow_le_mono_r; lia). lia.
    - right. assert (Hn' : n = Zdigits2 mx - 53) by (unfold n; lia).
      split; [lia|]. split.
      + apply Z.div_le_lower_bound; [lia|].
        rewrite <- Z.pow_add_r by lia.
        replace (n + 52) with (Zdigits2 mx - 1) by lia. exact Hlo.
      + apply Z.div_lt_upper_bound; [lia|].
        rewrite <- Z.pow_add_r by lia.
        replace (n + 53) with (Zdigits2 mx) by lia. exact Hhi. }
  pose proof (rne_floor_ceil N (D * 2 ^ n) ltac:(nia) HN) as HR.
  fold R in HR. rewrite Hfloor in HR.
  assert (HRb : 0 < R <= 2 ^ 53) by (destruct Hq as [(?&?&?)|(?&?)]; lia).
  split; [exact HRb|]. split; [destruct Hq as [(?&?&?)|(?&?)]; lia|].
  unfold binary_round_aux, shr_fexp.
  destruct (loc_of_record_of_loc mx (locOf (N mod D) D)) as [Hl0 Hm0].
  assert (Hrep0 : Repr (shr_record_of_loc mx (locOf (N mod D) D)) N D).
  { unfold Repr. rewrite Hl0, Hm0. now repeat split. }
  destruct (shr_repr _ ex (fexp prec emax (Zdigits2 mx + ex) - ex) N D Hrep0)
    as [Hrep1 He].
  rewrite (fexp_shift _ _ Hd Hex) in Hrep1, He. fold n in Hrep1, He.
  destruct (shr (shr_record_of_loc mx (locOf (N mod D) D)) ex
              (fexp prec emax (Zdigits2 mx + ex) - ex)) as [mrs' e'].
  simpl in Hrep1, He. subst e'. fold e1.
  destruct Hrep1 as (_ & _ & Hm1 & Hl1).
  assert (HRdef : round_nearest_even (shr_m mrs') (loc_of_shr_record mrs') = R).
  { rewrite Hm1, Hl1. reflexivity. }
  rewrite HRdef.
  destruct (Z.ltb_spec R (2 ^ 53)) as [Hlt|Hge].
  - assert (HdR : Zdigits2 R <= 53) by (apply Zdigits2_le; lia).
    assert (HdR0 : 0 < Zdigits2 R) by (destruct R; simpl; lia).
    assert (Hns : fexp prec emax (Zdigits2 R + e1) - e1 <= 0)
      by (unfold fexp, emin, prec, emax; lia).
    unfold shr.
    destruct (fexp prec emax (Zdigits2 R + e1) - e1) as [|p|p]; try lia;
      simpl; destruct R as [|R'|R']; try lia;
      (match goal with
       | |- context [?a <=? ?b] => destruct (Z.leb_spec a b) as [_|Hbad]
       end; [reflexivity | unfold emax, prec in Hbad; lia]).
  - assert (HR53 : R = 2 ^ 53) by lia. rewrite HR53.
    assert (Hns : fexp prec emax (Zdigits2 (2 ^ 53) + e1) - e1 = 1).
    { change (Zdigits2 (2 ^ 53)) with 54.
      unfold fexp, emin, prec, emax. lia. }
    rewrite Hns. simpl.
    match goal with
    | |- context [?a <=? ?b] => destruct (Z.leb_spec a b) as [_|Hbad]
    end; [reflexivity | unfold emax, prec in Hbad; lia].
Qed.

Lemma pos_iter_xO m d : Z.pos (Pos.iter xO m d) = Z.pos m * 2 ^ Z.pos d.
Proof.
  induction d as [|d IH] using Pos.peano_ind.
  - simpl. lia.
  - rewrite Pos.iter_succ, Pos2Z.inj_xO, IH, Pos2Z.inj_succ.
    rewrite Z.pow_succ_r by lia. lia.
Qed.

Lemma shl_align_spec m e e' :
  let '(m', e'') := shl_align m e e' in
  e'' = Z.min e e' /\ Z.pos m' = Z.pos m * 2 ^ (e - Z.min e e').
Proof.
  unfold shl_align. destruct (e' - e) as [|p|p] eqn:Hd.
  - split; [lia|]. replace (e - Z.min e e') with 0 by lia. simpl. lia.
  - split; [lia|]. replace (e - Z.min e e') with 0 by lia. simpl. lia.
  - split; [lia|]. rewrite pos_iter_xO. f_equal. f_equal. lia.
Qed.

(** A positive mantissa brought to 53 bits is kept as it is. *)
Lemma binary_round_aux_exact sx (m : positive) e :
  Zdigits2 (Z.pos m) = 53 -> -1074 <= e <= 970 ->
  binary_round_aux prec emax sx (Z.pos m) e loc_Exact = S754_finite sx m e.
Proof.
  intros Hd He.
  pose proof (binary_round_aux_spec sx (Z.pos m) e (Z.pos m) 1) as Hspec.
  rewrite Hd in Hspec. change (Z.max 0 (53 - 53)) with 0 in Hspec.
  rewrite Z.div_1_r, Z.mod_1_r in Hspec.
  specialize (Hspec ltac:(lia) ltac:(lia) eq_refl ltac:(lia) ltac:(lia)
                    ltac:(lia)).
  destruct Hspec as (_ & _ & Hres).
  change (locOf 0 1) with loc_Exact in Hres. rewrite Hres.
  assert (HR : rne (Z.pos m) (1 * 2 ^ 0) = Z.pos m).
  { change (1 * 2 ^ 0) with 1. rewrite rne_exact by (try lia; apply Z.mod_1_r).
    apply Z.div_1_r. }
  rewrite HR.
  pose proof (Zdigits2_bounds (Z.pos m) ltac:(lia)) as [_ Hhi].
  rewrite Hd in Hhi.
  destruct (Z.ltb_spec (Z.pos m) (2 ^ 53)); [|lia].
  now rewrite Z.add_0_r.
Qed.

(** An integer below [2^53] converts without rounding: the mantissa is
    the integer shifted up to 53 bits. *)
Lemma float64_of_int_exact s z :
  0 < z < 2 ^ 53 ->
  float64_of_int (cond_Zopp s z)
  = S754_finite s (Z.to_pos (z * 2 ^ (53 - Zdigits2 z))) (Zdigits2 z - 53).
Proof.
  intros Hz. destruct z as [|p|p]; try lia.
  pose proof (Zdigits2_bounds (Z.pos p) ltac:(lia)) as [Hlo Hhi].
  assert (Hd : 0 < Zdigits2 (Z.pos p) <= 53).
  { split; [simpl; lia|]. apply Zdigits2_le; lia. }
  assert (Hround : forall sx,
             binary_round prec emax sx p 0
             = S754_finite sx
                 (Z.to_pos (Z.pos p * 2 ^ (53 - Zdigits2 (Z.pos p))))
                 (Zdigits2 (Z.pos p) - 53)).
  { intros sx. unfold binary_round.
    change (Z.pos (digits2_pos p)) with (Zdigits2 (Z.pos p)).
    assert (Hf : fexp prec emax (Zdigits2 (Z.pos p) + 0)
                 = Zdigits2 (Z.pos p) - 53)
      by (unfold fexp, emin, prec, emax; lia).
    rewrite Hf.
    pose proof (shl_align_spec p 0 (Zdigits2 (Z.pos p) - 53)) as Hal.
    destruct (shl_align p 0 (Zdigits2 (Z.pos p) - 53)) as [mz ez].
    destruct Hal as [Hez Hmz].
    rewrite Z.min_r in Hez, Hmz by lia. subst ez.
    replace (0 - (Zdigits2 (Z.pos p) - 53)) with (53 - Zdigits2 (Z.pos p))
      in Hmz by lia.
    rewrite <- Hmz. simpl Z.to_pos.
    apply binary_round_aux_exact; [|lia].
    apply Zdigits2_unique; [lia|]. rewrite Hmz.
    set (d := Zdigits2 (Z.pos p)) in *.
    assert (H2 : 0 < 2 ^ (53 - d)) by (apply Z.pow_pos_nonneg; lia).
    replace (2 ^ (53 - 1)) with (2 ^ (d - 1) * 2 ^ (53 - d))
      by (rewrite <- Z.pow_add_r by lia; f_equal; lia).
    replace (2 ^ 53) with (2 ^ d * 2 ^ (53 - d))
      by (rewrite <- Z.pow_add_r by lia; f_equal; lia).
    nia. }
  destruct s; simpl; apply Hround.
Qed.

Lemma Zdigits2_normal z :
  0 < z < 2 ^ 53 -> Zdigits2 (z * 2 ^ (53 - Zdigits2 z)) = 53.
Proof.
  intros Hz. pose proof (Zdigits2_bounds z ltac:(lia)) as [Hlo Hhi].
  assert (Hd : 0 < Zdigits2 z <= 53).
  { split; [destruct z; simpl; lia|]. apply Zdigits2_le; lia. }
  set (d := Zdigits2 z) in *.
  assert (H2 : 0 < 2 ^ (53 - d)) by (apply Z.pow_pos_nonneg; lia).
  apply Zdigits2_unique; [nia|].
  replace (2 ^ (53 - 1)) with (2 ^ (d - 1) * 2 ^ (53 - d))
    by (rewrite <- Z.pow_add_r by lia; f_equal; lia).
  replace (2 ^ 53) with (2 ^ d * 2 ^ (53 - d))
    by (rewrite <- Z.pow_add_r by lia; f_equal; lia).
  nia.
Qed.

(** The quotient of a nanosecond count below one second by [1e9]: a
    float below [1 - 2^-30]. *)
Lemma nanoseconds_quotient s a :
  0 < a < 1000000000 ->
  exists my ey,
    fdiv (float64_of_int (cond_Zopp s a)) (float64_of_int 1000000000)
    = S754_finite s my ey
    /\ -1074 <= ey <= -53
    /\ Z.pos my * 2 ^ 30 < (2 ^ 30 - 1) * 2 ^ (- ey).
Proof.
  intros Ha.
  assert (Ha53 : 0 < a < 2 ^ 53) by lia.
  rewrite (float64_of_int_exact s a Ha53).
  change (float64_of_int 1000000000)
    with (S754_finite false 8388608000000000 (-23)).
  pose proof (Zdigits2_bounds a ltac:(lia)) as [Hlo Hhi].
  assert (Hda : 0 < Zdigits2 a <= 30).
  { split; [destruct a; simpl; lia|]. apply Zdigits2_le; lia. }
  pose proof (Zdigits2_normal a Ha53) as Hdm.
  set (da := Zdigits2 a) in *.
  set (P := 2 ^ (53 - da)) in *.
  assert (HP : 0 < P) by (apply Z.pow_pos_nonneg; lia).
  assert (HaP : 2 ^ 52 <= a * P < 2 ^ 53).
  { unfold P.
    replace (2 ^ 52) with (2 ^ (da - 1) * 2 ^ (53 - da))
      by (rewrite <- Z.pow_add_r by lia; f_equal; lia).
    replace (2 ^ 53) with (2 ^ da * 2 ^ (53 - da))
      by (rewrite <- Z.pow_add_r by lia; f_equal; lia).
    fold P. nia. }
  set (D := 8388608000000000).
  set (N := a * P * 2 ^ 53).
  set (T0 := 2 ^ (83 - da)).
  assert (HT0 : 0 < T0) by (apply Z.pow_pos_nonneg; lia).
  assert (HPT : P * 2 ^ 53 = 2 ^ 23 * T0).
  { unfold P, T0. rewrite <- !Z.pow_add_r by lia. f_equal. lia. }
  assert (HN : N = a * (2 ^ 23 * T0)) by (unfold N; lia).
  assert (Hq : 2 ^ 52 <= N / D < T0).
  { split.
    - apply Z.div_le_lower_bound; [reflexivity|]. unfold N, D. lia.
    - apply Z.div_lt_upper_bound; [reflexivity|]. rewrite HN. unfold D. nia. }
  unfold fdiv, SFdiv, SFdiv_core_binary.
  replace (Z.pos (Z.to_pos (a * P))) with (a * P) by (rewrite Z2Pos.id; lia).
  rewrite Hdm. change (Zdigits2 8388608000000000) with 53.
  assert (He' : Z.min (fexp prec emax (53 + (da - 53) - (53 + -23)))
                      (da - 53 - -23) = da - 83)
    by (unfold fexp, emin, prec, emax; lia).
  rewrite He'.
  replace (da - 53 - -23 - (da - 83)) with 53 by lia.
  rewrite Z.shiftl_mul_pow2 by lia. fold N. fold D.
  assert (Heucl : Z.div_eucl N D = (N / D, N mod D)).
  { unfold Z.div, Z.modulo. destruct (Z.div_eucl N D); reflexivity. }
  rewrite Heucl.
  change (new_location D (N mod D)) with (locOf (N mod D) D).
  rewrite xorb_false_r.
  pose proof (binary_round_aux_spec s (N / D) (da - 83) N D
                ltac:(reflexivity) ltac:(unfold N; nia) eq_refl
                ltac:(lia) ltac:(lia)) as Hspec.
  cbv zeta in Hspec.
  assert (Hdq : 53 <= Zdigits2 (N / D) <= 83 - da).
  { split.
    - pose proof (Zdigits2_bounds (N / D) ltac:(lia)) as [_ Hh].
      destruct (Z.le_gt_cases 53 (Zdigits2 (N / D))); [assumption|].
      assert (2 ^ Zdigits2 (N / D) <= 2 ^ 52)
        by (apply Z.pow_le_mono_r; lia). lia.
    - apply Zdigits2_le; [lia|]. apply Hq. }
  set (dq := Zdigits2 (N / D)) in *.
  replace (Z.max 0 (dq - 53)) with (dq - 53) in Hspec by lia.
  set (n := dq - 53) in *.
  set (R := rne N (D * 2 ^ n)) in *.
  specialize (Hspec ltac:(lia)). destruct Hspec as (HR & _ & Hres).
  rewrite Hres.
  set (K := 83 - da - n).
  assert (HK : 53 <= K) by (unfold K, n; lia).
  assert (H2n : 0 < 2 ^ n) by (apply Z.pow_pos_nonneg; unfold n; lia).
  assert (HT : 2 ^ 53 <= 2 ^ K) by (apply Z.pow_le_mono_r; lia).
  assert (HnK : 2 ^ n * 2 ^ K = T0).
  { unfold T0. rewrite <- Z.pow_add_r by (unfold n; lia). f_equal.
    unfold K. lia. }
  pose proof (rne_error N (D * 2 ^ n) ltac:(unfold D; lia)
                ltac:(unfold N; nia)) as Herr.
  fold R in Herr.
  assert (Hmain : 2000000000 * R <= 2 * a * 2 ^ K + 1000000000).
  { assert (Hm : 2 * R * (D * 2 ^ n) * 2 ^ K
                 <= (2 * N + D * 2 ^ n) * 2 ^ K)
      by (apply Z.mul_le_mono_nonneg_r; lia).
    replace (2 * R * (D * 2 ^ n) * 2 ^ K)
      with (2 * R * D * (2 ^ n * 2 ^ K)) in Hm by ring.
    replace ((2 * N + D * 2 ^ n) * 2 ^ K)
      with (2 * N * 2 ^ K + D * (2 ^ n * 2 ^ K)) in Hm by ring.
    rewrite HnK, HN in Hm. unfold D in Hm.
    assert (Hc : 2 ^ 23 * T0 * (2000000000 * R)
                 <= 2 ^ 23 * T0 * (2 * a * 2 ^ K + 1000000000)) by lia.
    apply Z.mul_le_mono_pos_l in Hc; [exact Hc | lia]. }
  assert (HaT : a * 2 ^ K <= 999999999 * 2 ^ K)
    by (apply Z.mul_le_mono_nonneg_r; lia).
  assert (Hbound : R * 2 ^ 30 < (2 ^ 30 - 1) * 2 ^ K) by lia.
  destruct (Z.ltb_spec R (2 ^ 53)) as [Hlt|Hge].
  - exists (Z.to_pos R), (da - 83 + n). split; [reflexivity|].
    split; [unfold n; lia|].
    rewrite Z2Pos.id by lia.
    replace (- (da - 83 + n)) with K by (unfold K; lia). exact Hbound.
  - exists (Z.to_pos (2 ^ 52)), (da - 83 + n + 1). split; [reflexivity|].
    assert (HR53 : R = 2 ^ 53) by lia.
    assert (HK54 : 54 <= K).
    { destruct (Z.le_gt_cases 54 K); [assumption|].
      assert (K = 53) by lia. subst R. rewrite H0 in Hbound. lia. }
    split; [unfold K, n in *; lia|].
    replace (- (da - 83 + n + 1)) with (K - 1) by (unfold K; lia).
    replace (2 ^ K) with (2 * 2 ^ (K - 1)) in Hbound
      by (rewrite <- Z.pow_succ_r by lia; f_equal; lia).
    rewrite HR53 in Hbound.
    change (Z.pos (Z.to_pos (2 ^ 52))) with (2 ^ 52). lia.
Qed.

(** Rounding [mx + my/W] where [my/W] stays clear of [U] by more than
    [U / 2^30]: the result stays below [mx + U]. *)
Lemma rne_below mx my U W :
  0 < W -> 2 ^ 29 <= U -> 0 <= my -> 0 <= mx ->
  my * 2 ^ 30 < (2 ^ 30 - 1) * (U * W) ->
  mx <= rne (mx * W + my) W <= mx + U - 1.
Proof.
  intros HW HU Hmy Hmx Hb.
  assert (Hdiv : (mx * W + my) / W = mx + my / W)
    by (rewrite Z.div_add_l by lia; reflexivity).
  assert (Hmod : (mx * W + my) mod W = my mod W)
    by (rewrite Z.add_comm, Z.mod_add by lia; reflexivity).
  pose proof (Z.div_mod my W ltac:(lia)) as Hdm.
  pose proof (Z.mod_pos_bound my W HW) as Hr.
  pose proof (Z.div_pos my W Hmy HW) as Hq0.
  assert (HUW : 2 ^ 29 * W <= U * W) by (apply Z.mul_le_mono_nonneg_r; lia).
  assert (Hq : my / W < U).
  { apply Z.div_lt_upper_bound; [lia|]. lia. }
  pose proof (rne_floor_ceil (mx * W + my) W HW ltac:(nia)) as HR.
  rewrite Hdiv in HR.
  destruct (Z.le_gt_cases (my / W) (U - 2)) as [Hsmall|Hbig]; [lia|].
  assert (HqU : my / W = U - 1) by lia.
  assert (Hdown : 2 * ((mx * W + my) mod W) < W).
  { rewrite Hmod.
    assert (my = U * W - W + my mod W)
      by (rewrite Hdm at 1; rewrite HqU; ring).
    set (X := U * W) in *. set (r := my mod W) in *.
    clearbody X r. clear - H Hb HUW. lia. }
  assert (HN0 : 0 <= mx * W + my) by nia.
  rewrite (rne_down _ _ HW HN0 Hdown), Hdiv. lia.
Qed.

Lemma shiftl_neg a k : 0 <= k -> Z.shiftl a (- k) = a / 2 ^ k.
Proof.
  intros Hk. rewrite Z.shiftl_div_pow2 by lia. now rewrite Z.opp_involutive.
Qed.

(** Whole seconds below [2^24] plus a fraction below [1 - 2^-30]: the
    sum, converted back, is the whole seconds. *)
Lemma seconds_sum s sec my ey :
  0 < sec < 2 ^ 24 -> -1074 <= ey <= -53 ->
  Z.pos my * 2 ^ 30 < (2 ^ 30 - 1) * 2 ^ (- ey) ->
  int_of_float64
    (fadd (S754_finite s (Z.to_pos (sec * 2 ^ (53 - Zdigits2 sec)))
                       (Zdigits2 sec - 53))
          (S754_finite s my ey))
  = cond_Zopp s sec.
Proof.
  intros Hsec Hey Hmy.
  pose proof (Zdigits2_bounds sec ltac:(lia)) as [Hlo Hhi].
  assert (Hds : 0 < Zdigits2 sec <= 24).
  { split; [destruct sec; simpl; lia|]. apply Zdigits2_le; lia. }
  set (ds := Zdigits2 sec) in *.
  set (U := 2 ^ (53 - ds)).
  assert (HU : 2 ^ 29 <= U) by (apply Z.pow_le_mono_r; lia).
  set (ex := ds - 53).
  set (n := ex - ey).
  assert (Hn : 0 < n) by (unfold n, ex; lia).
  set (W := 2 ^ n).
  assert (HW : 0 < W) by (apply Z.pow_pos_nonneg; lia).
  assert (HUW : U * W = 2 ^ (- ey)).
  { unfold U, W. rewrite <- Z.pow_add_r by lia. f_equal. unfold n, ex. lia. }
  set (mxZ := sec * U).
  assert (HmxZ : 0 < mxZ) by (unfold mxZ; nia).
  set (M := mxZ * W + Z.pos my).
  assert (HM : 0 < M) by (unfold M; nia).
  assert (Hmy1 : Z.pos my < U * W) by (rewrite HUW; lia).
  assert (HdM : Zdigits2 M = ds - ey).
  { apply Zdigits2_unique; [lia|].
    replace (2 ^ (ds - ey - 1)) with (2 ^ (ds - 1) * (U * W))
      by (rewrite HUW, <- Z.pow_add_r by lia; f_equal; lia).
    replace (2 ^ (ds - ey)) with (2 ^ ds * (U * W))
      by (rewrite HUW, <- Z.pow_add_r by lia; f_equal; lia).
    unfold M, mxZ. nia. }
  unfold fadd, SFadd.
  replace (Z.min ex ey) with ey by lia.
  pose proof (shl_align_spec (Z.to_pos mxZ) ex ey) as Hax.
  destruct (shl_align (Z.to_pos mxZ) ex ey) as [mx' ex'].
  destruct Hax as [_ Hmx']. rewrite Z.min_r in Hmx' by lia.
  rewrite Z2Pos.id in Hmx' by lia. fold n in Hmx'. fold W in Hmx'.
  pose proof (shl_align_spec my ey ey) as Hay.
  destruct (shl_align my ey ey) as [my' ey'].
  destruct Hay as [_ Hmy']. rewrite Z.min_id, Z.sub_diag, Z.mul_1_r in Hmy'.
  cbn [fst].
  assert (Hsum : cond_Zopp s (Z.pos mx') + cond_Zopp s (Z.pos my')
                 = cond_Zopp s M).
  { rewrite Hmx', Hmy'. unfold M. destruct s; simpl; lia. }
  rewrite Hsum.
  assert (Hnorm : binary_normalize prec emax (cond_Zopp s M) ey false
                  = binary_round prec emax s (Z.to_pos M) ey).
  { destruct M as [|Mp|Mp]; try lia. destruct s; reflexivity. }
  rewrite Hnorm. unfold binary_round.
  change (Z.pos (digits2_pos (Z.to_pos M)))
    with (Zdigits2 (Z.pos (Z.to_pos M))).
  rewrite Z2Pos.id by lia. rewrite HdM.
  assert (Hf : fexp prec emax (ds - ey + ey) = ex)
    by (unfold fexp, emin, prec, emax, ex; lia).
  rewrite Hf.
  pose proof (shl_align_spec (Z.to_pos M) ey ex) as HaM.
  destruct (shl_align (Z.to_pos M) ey ex) as [mz ez].
  destruct HaM as [Hez Hmz]. rewrite Z.min_l in Hez, Hmz by lia.
  rewrite Z.sub_diag, Z.mul_1_r, Z2Pos.id in Hmz by lia. subst ez.
  rewrite Hmz.
  pose proof (binary_round_aux_spec s M ey M 1 ltac:(lia) ltac:(lia)
                ltac:(now rewrite Z.div_1_r) HM ltac:(lia)) as Hspec.
  cbv zeta in Hspec. rewrite HdM in Hspec.
  replace (Z.max 0 (ds - ey - 53)) with n in Hspec by (unfold n, ex; lia).
  rewrite Z.mod_1_r, Z.mul_1_l in Hspec. fold W in Hspec.
  change (locOf 0 1) with loc_Exact in Hspec.
  replace (ey + n) with ex in Hspec by (unfold n; lia).
  specialize (Hspec ltac:(unfold ex; lia)).
  destruct Hspec as (_ & _ & Hres). rewrite Hres.
  pose proof (rne_below mxZ (Z.pos my) U W HW HU ltac:(lia) ltac:(lia)
                ltac:(rewrite HUW; exact Hmy)) as HR.
  fold M in HR. set (R := rne M W) in *.
  assert (HUds : (sec + 1) * U <= 2 ^ 53).
  { replace (2 ^ 53) with (2 ^ ds * U)
      by (unfold U; rewrite <- Z.pow_add_r by lia; f_equal; lia).
    apply Z.mul_le_mono_nonneg_r; lia. }
  destruct (Z.ltb_spec R (2 ^ 53)) as [_|Hge]; [|unfold mxZ in HR; lia].
  unfold int_of_float64.
  rewrite Z2Pos.id by lia.
  replace ex with (- (53 - ds)) by (unfold ex; lia).
  rewrite shiftl_neg by lia. fold U.
  assert (HRU : R / U = sec).
  { symmetry. apply (Z.div_unique R U sec (R - sec * U));
      unfold mxZ in HR; lia. }
  rewrite HRU.
  assert (Hin : GoInt.inRange (if s then - sec else sec) = true).
  { unfold GoInt.inRange, GoInt.minInt64, GoInt.maxInt64.
    destruct s; apply andb_true_intro; split; apply Z.leb_le; lia. }
  rewrite Hin. destruct s; reflexivity.
Qed.

Lemma int_of_float64_exact s z :
  0 < z < 2 ^ 53 ->
  int_of_float64
    (S754_finite s (Z.to_pos (z * 2 ^ (53 - Zdigits2 z))) (Zdigits2 z - 53))
  = cond_Zopp s z.
Proof.
  intros Hz. pose proof (Zdigits2_bounds z ltac:(lia)) as [Hlo Hhi].
  assert (Hd : 0 < Zdigits2 z <= 53).
  { split; [destruct z; simpl; lia|]. apply Zdigits2_le; lia. }
  set (d := Zdigits2 z) in *.
  assert (H2 : 0 < 2 ^ (53 - d)) by (apply Z.pow_pos_nonneg; lia).
  unfold int_of_float64. rewrite Z2Pos.id by nia.
  replace (d - 53) with (- (53 - d)) by lia.
  rewrite shiftl_neg, Z.div_mul by lia.
  assert (Hin : GoInt.inRange (if s then - z else z) = true).
  { unfold GoInt.inRange, GoInt.minInt64, GoInt.maxInt64.
    destruct s; apply andb_true_intro; split; apply Z.leb_le; lia. }
  rewrite Hin. destruct s; reflexivity.
Qed.

Lemma float64_of_int_zero s : float64_of_int (cond_Zopp s 0) = S754_zero false.
Proof. destruct s; reflexivity. Qed.

(** [float64(sec) + float64(nsec)/1e9], converted back to an integer, for
    a duration of sign [s], [qa] whole seconds and [ra] nanoseconds: the
    whole seconds come back when there are no nanoseconds, or when the
    seconds are fewer than [2^24]. *)
Lemma seconds_of_parts s qa ra :
  0 <= qa -> 0 <= ra < 1000000000 ->
  (ra = 0 /\ qa < 2 ^ 53) \/ qa < 2 ^ 24 ->
  int_of_float64
    (fadd (float64_of_int (cond_Zopp s qa))
          (fdiv (float64_of_int (cond_Zopp s ra))
                (float64_of_int 1000000000)))
  = cond_Zopp s qa.
Proof.
  intros Hqa Hra Hcase.
  destruct (Z.eq_dec ra 0) as [Hr0|Hr0].
  - subst ra. rewrite float64_of_int_zero.
    change (fdiv (S754_zero false) (float64_of_int 1000000000))
      with (S754_zero false).
    destruct (Z.eq_dec qa 0) as [Hq0|Hq0].
    + subst qa. rewrite float64_of_int_zero. destruct s; reflexivity.
    + rewrite float64_of_int_exact by lia.
      change (fadd (S754_finite s ?m ?e) (S754_zero false))
        with (S754_finite s m e).
      apply int_of_float64_exact. lia.
  - destruct (nanoseconds_quotient s ra ltac:(lia))
      as (my & ey & -> & Hey & Hmy).
    destruct (Z.eq_dec qa 0) as [Hq0|Hq0].
    + subst qa. rewrite float64_of_int_zero.
      change (fadd (S754_zero false) (S754_finite s my ey))
        with (S754_finite s my ey).
      assert (H2 : 0 < 2 ^ (- ey)) by (apply Z.pow_pos_nonneg; lia).
      assert (Hsh : Z.shiftl (Z.pos my) ey = 0).
      { replace ey with (- (- ey)) by lia.
        rewrite shiftl_neg by lia. apply Z.div_small. lia. }
      unfold int_of_float64. cbv zeta. rewrite Hsh.
      destruct s; reflexivity.
    + rewrite float64_of_int_exact by lia.
      apply seconds_sum; [lia | exact Hey | exact Hmy].
Qed.

Lemma wrap_small z :
  GoInt.minInt64 <= z <= GoInt.maxInt64 -> GoInt.wrap z = z.
Proof.
  unfold GoInt.minInt64, GoInt.maxInt64, GoInt.wrap. intros Hz.
  rewrite Z.mod_small by lia. lia.
Qed.

(** The sign, whole seconds and nanoseconds of a duration, as Go's [/]
    and [%] give them. *)
Lemma duration_parts d :
  GoInt.minInt64 <= d <= GoInt.maxInt64 ->
  let s := d <? 0 in
  GoInt.quo d Second = cond_Zopp s (Z.abs d / 1000000000)
  /\ GoInt.rem d Second = cond_Zopp s (Z.abs d mod 1000000000)
  /\ Z.quot d 1000000000 = cond_Zopp s (Z.abs d / 1000000000).
Proof.
  intros Hd. cbv zeta. set (s := d <? 0).
  unfold GoInt.minInt64, GoInt.maxInt64, GoInt.quo, GoInt.rem, Second in *.
  assert (Hq : Z.quot d 1000000000 = cond_Zopp s (Z.abs d / 1000000000)
               /\ Z.rem d 1000000000
                  = cond_Zopp s (Z.abs d mod 1000000000)).
  { unfold s. destruct (Z.ltb_spec d 0) as [Hneg|Hpos]; simpl.
    - rewrite Z.abs_neq by lia.
      replace d with (- (- d)) at 1 3 by lia.
      rewrite Z.quot_opp_l, Z.rem_opp_l by lia.
      rewrite Z.quot_div_nonneg, Z.rem_mod_nonneg by lia. now split.
    - rewrite Z.abs_eq by lia.
      rewrite Z.quot_div_nonneg, Z.rem_mod_nonneg by lia. now split. }
  destruct Hq as [Hq Hr]. split; [|split]; [|exact Hr|exact Hq].
  rewrite Hq. apply wrap_small.
  unfold GoInt.minInt64, GoInt.maxInt64.
  assert (0 <= Z.abs d / 1000000000 <= 2 ^ 62).
  { split; [apply Z.div_pos; lia|].
    apply Z.div_le_upper_bound; lia. }
  unfold cond_Zopp. destruct s; lia.
Qed.

(** Below [2^24] seconds, [int(d.Seconds())] is the duration in whole
    seconds, the fraction cut off. *)
Lemma ttlSec_truncates d :
  - (2 ^ 24 * 1000000000) < d < 2 ^ 24 * 1000000000 ->
  Common.ttlSec d = Z.quot d 1000000000.
Proof.
  intros Hd. unfold Common.ttlSec, Seconds.
  destruct (duration_parts d) as (Hq & Hr & Hquot).
  { unfold GoInt.minInt64, GoInt.maxInt64. lia. }
  rewrite Hq, Hr, Hquot.
  apply seconds_of_parts.
  - apply Z.div_pos; lia.
  - apply Z.mod_pos_bound. lia.
  - right. apply Z.div_lt_upper_bound; lia.
Qed.

(** A whole number of seconds that fits a [Duration] converts to exactly
    that many seconds, and back. *)
Lemma ttlOfSec_exact sec :
  -9223372036 <= sec <= 9223372036 ->
  Common.ttlOfSec sec = sec * 1000000000.
Proof.
  intros Hs. unfold Common.ttlOfSec, GoInt.mul, Second.
  apply wrap_small. unfold GoInt.minInt64, GoInt.maxInt64. lia.
Qed.

Lemma ttlSec_ttlOfSec sec :
  -9223372036 <= sec <= 9223372036 ->
  Common.ttlSec (Common.ttlOfSec sec) = sec.
Proof.
  intros Hs. rewrite (ttlOfSec_exact sec Hs).
  unfold Common.ttlSec, Seconds.
  destruct (duration_parts (sec * 1000000000)) as (Hq & Hr & Hquot).
  { unfold GoInt.minInt64, GoInt.maxInt64. lia. }
  rewrite Hq, Hr.
  assert (Habs : Z.abs (sec * 1000000000) = Z.abs sec * 1000000000)
    by (rewrite Z.abs_mul; reflexivity).
  rewrite Habs, Z.div_mul, Z.mod_mul by lia.
  rewrite seconds_of_parts by lia.
  destruct (Z.ltb_spec (sec * 1000000000) 0); simpl; lia.
Qed.

End FloatFacts.

(* ================================================================== *)
(** * The translation of TTLs *)

Section Translation.
Import linodego Common.

(** C9, as the code has it — a TTL shorter than [2^24] seconds (about
    194 days) is sent as its whole seconds, the fraction cut off, by
    create and by update alike; a remote TTL of at most 9223372036
    seconds in size becomes exactly that many seconds. *)
Theorem ttl_seconds_in_range :
  forall zone record existing (remoteRecord : DomainRecord),
    - (2 ^ 24 * 1000000000) < libdns.TTL record < 2 ^ 24 * 1000000000 ->
    -9223372036 <= DomainRecord_TTLSec remoteRecord <= 9223372036 ->
    Create_TTLSec (createOptions zone record)
      = Z.quot (libdns.TTL record) time.Second
    /\ Update_TTLSec (updateOptions zone record)
       = Z.quot (libdns.TTL record) time.Second
    /\ libdns.TTL (mergeWithExistingLibdns zone existing remoteRecord)
       = DomainRecord_TTLSec remoteRecord * time.Second.
Proof.
  intros zone record existing remoteRecord Httl Hsec.
  split; [|split].
  - simpl. now apply ttlSec_truncates.
  - simpl. now apply ttlSec_truncates.
  - destruct existing; simpl; now apply ttlOfSec_exact.
Qed.

Lemma ttl_seconds_in_range_witness :
  (- (2 ^ 24 * 1000000000) < 1500000000 < 2 ^ 24 * 1000000000
   /\ -9223372036 <= 300 <= 9223372036)
  /\ Create_TTLSec
       (createOptions "example.com"
          (libdns.mkRecord "" "TXT" "_acme-challenge" "abc123" 1500000000 0))
     = 1
  /\ Update_TTLSec
       (updateOptions "example.com"
          (libdns.mkRecord "" "TXT" "_acme-challenge" "abc123" 1500000000 0))
     = 1
  /\ libdns.TTL
       (mergeWithExistingLibdns "example.com" None
          (mkDomainRecord 7 "A" "www" "192.0.2.1" 300))
     = 300000000000.
Proof.
  split; [lia|].
  apply (ttl_seconds_in_range "example.com"
           (libdns.mkRecord "" "TXT" "_acme-challenge" "abc123" 1500000000 0)
           None (mkDomainRecord 7 "A" "www" "192.0.2.1" 300));
    simpl; lia.
Defined.

(** C9, as the spec has it, fails: [Seconds] returns a [float64], and from
    [2^24] seconds on the sum of the seconds and a fraction close to one
    rounds up to the next whole number.  A TTL of 16777216.999999999 s is
    sent as 16777217, a sub-second TTL under a whole number of seconds
    that size as well; and a remote TTL of 9223372037 seconds overflows
    the [Duration]. *)
Lemma ttl_seconds_rounded_up :
  Create_TTLSec
    (createOptions "example.com"
       (libdns.mkRecord "" "A" "www" "192.0.2.1" 16777216999999999 0))
  = 16777217
  /\ Z.quot 16777216999999999 time.Second = 16777216
  /\ ~ (forall record,
          GoInt.inRange (libdns.TTL record) = true ->
          Create_TTLSec (createOptions "example.com" record)
          = Z.quot (libdns.TTL record) time.Second)
  /\ libdns.TTL
       (mergeWithExistingLibdns "example.com" None
          (mkDomainRecord 7 "A" "www" "192.0.2.1" 9223372037))
     <> 9223372037 * time.Second.
Proof.
  split; [vm_compute; reflexivity|]. split; [reflexivity|]. split.
  - intros Hall.
    specialize (Hall (libdns.mkRecord "" "A" "www" "192.0.2.1"
                        16777216999999999 0) eq_refl).
    vm_compute in Hall. discriminate.
  - vm_compute. discriminate.
Qed.

End Translation.

(* ================================================================== *)
(** * Record IDs: written by [Itoa], read back by [Atoi] *)

Section DecimalFacts.
Import Digits.

Lemma digitsVal_ge d : forall acc, 0 <= acc -> acc <= digitsVal d acc.
Proof.
  induction d; intros acc Hacc; simpl; try lia;
    match goal with
    | |- _ <= digitsVal _ ?a => specialize (IHd a ltac:(lia)); lia
    end.
Qed.

Lemma parseDigits_digit c k s n :
  strconv.isDigit c = true -> strconv.digitVal c = k ->
  0 <= n -> 0 <= k -> n * 10 + k <= GoInt.maxUint64 ->
  strconv.parseDigits (String c s) n = strconv.parseDigits s (n * 10 + k).
Proof.
  intros Hc Hk Hn Hk0 Hmax. simpl. rewrite Hc, Hk. simpl.
  unfold GoInt.maxUint64 in *.
  match goal with
  | |- context [?a <=? ?b] => destruct (Z.leb_spec a b) as [Hbig|_]
  end; [lia |].
  match goal with
  | |- context [?a <? ?b] => destruct (Z.ltb_spec a b)
  end; [lia | reflexivity].
Qed.

Lemma parseDigits_uint d :
  forall acc,
    0 <= acc -> digitsVal d acc <= GoInt.maxUint64 ->
    strconv.parseDigits (NilEmpty.string_of_uint d) acc
    = inr (digitsVal d acc).
Proof.
  induction d; intros acc Hacc Hmax; [reflexivity | ..];
    cbn [NilEmpty.string_of_uint digitsVal] in *;
    match goal with
    | |- strconv.parseDigits (String ?c _) _ = inr (digitsVal _ (_ + ?k)) =>
        pose proof (digitsVal_ge d (acc * 10 + k) ltac:(lia));
        rewrite (parseDigits_digit c k) by (try reflexivity; lia);
        apply IHd; [lia | assumption]
    end.
Qed.

Lemma digitsVal_pos d :
  forall acc, digitsVal d (Z.pos acc) = Z.pos (Pos.of_uint_acc d acc).
Proof.
  induction d; intros acc; cbn [digitsVal Pos.of_uint_acc];
    [reflexivity | ..];
    rewrite <- IHd; f_equal; lia.
Qed.

Lemma digitsVal_0 d : digitsVal d 0 = Z.of_N (Pos.of_uint d).
Proof.
  induction d; cbn [digitsVal Pos.of_uint]; [reflexivity | exact IHd | ..];
    apply (digitsVal_pos d).
Qed.

Lemma digitsVal_to_uint p : digitsVal (Pos.to_uint p) 0 = Z.pos p.
Proof. now rewrite digitsVal_0, DecimalPos.Unsigned.of_to. Qed.

Lemma ParseUint_to_uint p :
  Z.pos p <= GoInt.maxUint64 ->
  strconv.ParseUint (NilZero.string_of_uint (Pos.to_uint p))
  = inr (Z.pos p) /\
  exists c s,
    NilZero.string_of_uint (Pos.to_uint p) = String c s /\
    Ascii.eqb c "+" = false /\ Ascii.eqb c "-" = false.
Proof.
  intros Hmax. pose proof (digitsVal_to_uint p) as Hval.
  pose proof (DecimalPos.Unsigned.to_uint_nonnil p) as Hnil.
  assert (Hparse :
    strconv.parseDigits (NilEmpty.string_of_uint (Pos.to_uint p)) 0
    = inr (Z.pos p)).
  { rewrite <- Hval. apply parseDigits_uint; [lia | now rewrite Hval]. }
  destruct (Pos.to_uint p); [congruence | ..];
    (split; [exact Hparse | eexists; eexists; repeat split; reflexivity]).
Qed.

Lemma Atoi_Itoa n :
  GoInt.inRange n = true -> strconv.Atoi (strconv.Itoa n) = inr n.
Proof.
  unfold GoInt.inRange, GoInt.minInt64, GoInt.maxInt64.
  intros Hn. apply andb_true_iff in Hn as [Hlo Hhi].
  apply Z.leb_le in Hlo, Hhi.
  unfold strconv.Atoi, strconv.Itoa.
  destruct n as [|p|p]; [reflexivity | ..].
  - destruct (ParseUint_to_uint p) as (Hp & c & s & Hs & Hplus & Hminus);
      [unfold GoInt.maxUint64; lia |].
    cbn [Z.to_int NilZero.string_of_int]. unfold strconv.ParseInt.
    rewrite Hs in *. rewrite Hplus, Hminus. cbn [orb negb andb].
    rewrite Hp.
    destruct (Z.leb_spec (2 ^ 63) (Z.pos p)); [lia | reflexivity].
  - destruct (ParseUint_to_uint p) as (Hp & c & s & Hs & Hplus & Hminus);
      [unfold GoInt.maxUint64; lia |].
    cbn [Z.to_int NilZero.string_of_int]. unfold strconv.ParseInt.
    change (Ascii.eqb "-" "-") with true.
    change (Ascii.eqb "-" "+") with false. cbn [orb negb andb].
    rewrite Hp.
    destruct (Z.ltb_spec (2 ^ 63) (Z.pos p)); [lia | reflexivity].
Qed.

Lemma Itoa_not_empty n : (strconv.Itoa n =? "")%string = false.
Proof.
  unfold strconv.Itoa.
  destruct n as [|p|p]; cbn [Z.to_int NilZero.string_of_int];
    [reflexivity | | reflexivity].
  pose proof (DecimalPos.Unsigned.to_uint_nonnil p) as Hnil.
  destruct (Pos.to_uint p); [congruence | reflexivity ..].
Qed.

End DecimalFacts.

(* ================================================================== *)
(** * The records the provider builds, handed back to it *)

Section Identity.
Import linodego Session Common Batch Ops Service Samples Sent.

Lemma merged_ID zone existing rr :
  libdns.ID (mergeWithExistingLibdns zone existing rr)
  = strconv.Itoa (DomainRecord_ID rr).
Proof. reflexivity. Qed.

Lemma delete_trace {W} `{Client W} domainID record recordID (c : Conn W) :
  strconv.Atoi (libdns.ID record) = inr recordID ->
  trace (snd (deleteStep domainID record c))
  = (trace c ++ [CallDeleteDomainRecord domainID recordID])%list.
Proof.
  intros Hid. unfold deleteStep, bind, Common.deleteDomainRecord.
  rewrite Hid. unfold doDeleteDomainRecord, perform.
  destruct (DeleteDomainRecord domainID recordID (remote c)) as [[err|] w];
    reflexivity.
Qed.




Lemma forEach_single {W} `{Client W} step x acc (c : Conn W) :
  snd (forEach step [x] acc c) = snd (step x c).
Proof.
  cbn [forEach]. unfold bind.
  destruct (step x c) as [[err|out] c0]; reflexivity.
Qed.

(** X1 — The ID that [mergeWithExistingLibdns], and so
    [convertToLibdns], writes into a record is the decimal form of the
    remote record's ID, and reads back as that number.  Such a record
    (the records List, Append and Set hand back are of this kind; the
    records Delete returns are its inputs and are not) handed to Set of
    either revision is updated under the remote ID and not created
    anew; handed to Delete, it is the remote record of that ID that is
    asked to be deleted; no number error can arise. *)
Theorem written_ID_names_remote_record {W} `{Client W} :
  forall rev zone existing (rr : DomainRecord) domainID (c : Conn W),
    GoInt.inRange (DomainRecord_ID rr) = true ->
    let record := mergeWithExistingLibdns zone existing rr in
    strconv.Atoi (libdns.ID record) = inr (DomainRecord_ID rr)
    /\ (forall c0,
          lookup rev zone c = Some ((domainID, None), c0) ->
          exists res c',
            run rev Set_ zone [record] c = Some (res, c')
            /\ trace c'
               = (trace c0
                  ++ [CallUpdateDomainRecord domainID (DomainRecord_ID rr)
                        (updateOptions zone record)])%list)
    /\ (forall c0,
          lookup rev zone c = Some ((domainID, None), c0) ->
          exists res c',
            run rev Delete zone [record] c = Some (res, c')
            /\ trace c'
               = (trace c0
                  ++ [CallDeleteDomainRecord domainID
                        (DomainRecord_ID rr)])%list)
    /\ trace (snd (step rev Set_ zone domainID record c))
       = (trace c
          ++ [CallUpdateDomainRecord domainID (DomainRecord_ID rr)
                (updateOptions zone record)])%list
    /\ Common.deleteDomainRecord domainID record c
       = doDeleteDomainRecord domainID (DomainRecord_ID rr) c.
Proof.
  intros rev zone existing rr domainID c Hrange record.
  assert (Hid : strconv.Atoi (libdns.ID record) = inr (DomainRecord_ID rr)).
  { unfold record. rewrite merged_ID. now apply Atoi_Itoa. }
  assert (Hset : forall k : Conn W,
            trace (snd (step rev Set_ zone domainID record k))
            = (trace k
               ++ [CallUpdateDomainRecord domainID (DomainRecord_ID rr)
                     (updateOptions zone record)])%list).
  { intros k. pose proof (set_step_call rev zone domainID record k) as Hcall.
    unfold setCall in Hcall. rewrite Hid in Hcall.
    unfold record in Hcall at 1. rewrite merged_ID, Itoa_not_empty in Hcall.
    exact Hcall. }
  split; [exact Hid |]. split; [| split; [| split]].
  - intros c0 Hlook.
    rewrite (run_batch rev Set_ zone [record] domainID c c0 eq_refl Hlook).
    pose proof (forEach_single (step rev Set_ zone domainID) record
                  (start rev Set_ [record]) c0) as Hone.
    destruct (forEach (step rev Set_ zone domainID) [record]
                (start rev Set_ [record]) c0) as [res c'].
    simpl in Hone. subst c'. exists res. eexists.
    split; [reflexivity | apply Hset].
  - intros c0 Hlook.
    rewrite (run_batch rev Delete zone [record] domainID c c0 eq_refl Hlook).
    pose proof (forEach_single (step rev Delete zone domainID) record
                  (start rev Delete [record]) c0) as Hone.
    destruct (forEach (step rev Delete zone domainID) [record]
                (start rev Delete [record]) c0) as [res c'].
    simpl in Hone. subst c'. exists res. eexists.
    split; [reflexivity |].
    replace (step rev Delete zone domainID) with (@deleteStep W _ domainID)
      by now destruct rev.
    now apply delete_trace.
  - apply Hset.
  - unfold Common.deleteDomainRecord. now rewrite Hid.
Qed.

Lemma written_ID_names_remote_record_witness :
  let rr := mkDomainRecord 7 "A" "www" "192.0.2.1" 300 in
  let record := mergeWithExistingLibdns "example.com" (Some txt) rr in
  let c0 := snd (Rev2.getDomainIDByZone "example.com" (connect oneDomain)) in
  (GoInt.inRange (DomainRecord_ID rr) = true
   /\ lookup R2 "example.com" (connect oneDomain) = Some ((42, None), c0))
  /\ strconv.Atoi (libdns.ID record) = inr 7
  /\ exists res c',
       run R2 Set_ "example.com" [record] (connect oneDomain)
       = Some (res, c')
       /\ trace c'
          = (trace c0
             ++ [CallUpdateDomainRecord 42 7
                   (updateOptions "example.com" record)])%list.
Proof.
  cbv zeta.
  assert (Hlook : lookup R2 "example.com" (connect oneDomain)
                  = Some ((42, None),
                          snd (Rev2.getDomainIDByZone "example.com"
                                 (connect oneDomain))))
    by (vm_compute; reflexivity).
  destruct (written_ID_names_remote_record R2 "example.com" (Some txt)
              (mkDomainRecord 7 "A" "www" "192.0.2.1" 300) 42
              (connect oneDomain) eq_refl)
    as (Hid & Hset & _).
  split; [split; [reflexivity | exact Hlook] |].
  split; [exact Hid | exact (Hset _ Hlook)].
Defined.



End Identity.

(* ================================================================== *)
(** * What an operation returns when it fails *)

Section Outcomes.
Import linodego Session Common Batch Ops Service Samples Sent.

Lemma fold_appendRecord zone rrs :
  forall acc,
    fold_left (Rev1.appendRecord zone) rrs acc
    = (acc ++ map (convertToLibdns zone) rrs)%list.
Proof.
  induction rrs as [|rr rest IH]; intros acc; simpl.
  - now rewrite app_nil_r.
  - rewrite IH. unfold Rev1.appendRecord. now rewrite <- app_assoc.
Qed.

Lemma listDomainRecords_error {W} `{Client W} zone domainID out err
    (c c' : Conn W) :
  Common.listDomainRecords zone domainID c = ((out, Some err), c') ->
  out = [] /\ exists cause, err = ErrCouldNotListRecords cause.
Proof.
  unfold Common.listDomainRecords, bind.
  destruct (doListDomainRecords domainID (NewListOptions 0 NoFilter) c)
    as [[cause|rrs] c1]; unfold ret; intros Hr; inversion Hr.
  split; [reflexivity | now exists cause].
Qed.

Lemma run_get {W} `{Client W} rev zone records domainID (c c0 : Conn W) :
  lookup rev zone c = Some ((domainID, None), c0) ->
  run rev Get zone records c
  = Some (Common.listDomainRecords zone domainID c0).
Proof.
  intros Hlook. destruct rev as [fuel|]; simpl in *.
  - unfold Rev1.GetRecords, Rev1.withDomain. rewrite Hlook. f_equal.
    unfold Common.listDomainRecords, bind.
    destruct (doListDomainRecords domainID (NewListOptions 0 NoFilter) c0)
      as [[err|rrs] c1]; [reflexivity |].
    unfold ret. now rewrite fold_appendRecord.
  - unfold total in *. inversion Hlook as [Hl]. f_equal.
    unfold Rev2.GetRecords, bind. rewrite Hl.
    destruct (Common.listDomainRecords zone domainID c0)
      as [[out [err|]] c1] eqn:Hlist; [|reflexivity].
    apply listDomainRecords_error in Hlist as [-> _]. reflexivity.
Qed.

Lemma run_unfinished {W} `{Client W} rev op zone records (c : Conn W) :
  lookup rev zone c = None -> run rev op zone records c = None.
Proof.
  intros Hlook. destruct rev as [fuel|]; [|discriminate].
  simpl in Hlook.
  destruct op; simpl;
    unfold Rev1.GetRecords, Rev1.AppendRecords, Rev1.SetRecords,
      Rev1.DeleteRecords, Rev1.withDomain; now rewrite Hlook.
Qed.

Lemma pageLoop_error {W} `{Client W} fuel zone :
  forall page opts x err (c c0 : Conn W),
    Rev1.pageLoop fuel zone page opts c = Some ((x, Some err), c0) ->
    x = 0 /\ (err = ErrDomainNotFound
              \/ exists cause, err = ErrCouldNotListDomains cause).
Proof.
  induction fuel as [|fuel IH]; intros page opts x err c c0 Hrun;
    [discriminate |].
  simpl in Hrun. destruct (page <=? Pages opts).
  - destruct (doListDomains (withPage page opts) c) as [[cause|[ds o]] c1].
    + inversion Hrun. split; [reflexivity | right; now exists cause].
    + destruct (Rev1.scanDomains ds zone); [discriminate |].
      now apply IH in Hrun.
  - inversion Hrun. split; [reflexivity | now left].
Qed.

Lemma lookup_error {W} `{Client W} rev zone x err (c c0 : Conn W) :
  lookup rev zone c = Some ((x, Some err), c0) ->
  x = 0 /\ (err = ErrDomainNotFound
            \/ exists cause, err = ErrCouldNotListDomains cause).
Proof.
  destruct rev as [fuel|]; simpl.
  - unfold Rev1.getDomainIDByZone. apply pageLoop_error.
  - unfold total, Rev2.getDomainIDByZone, bind. simpl.
    destruct (doListDomains _ c) as [[cause|[[|d ds] o]] c1];
      unfold ret; intros Hr; inversion Hr.
    + split; [reflexivity | right; now exists cause].
    + split; [reflexivity | now left].
Qed.

(** X3 — No partial results: whichever operation of whichever revision
    reports an error, the list it returns with the error is empty, also
    when records before the failing one were created, updated or
    deleted on the remote. *)
Theorem error_comes_with_no_records {W} `{Client W} :
  forall rev op zone records out err (c c' : Conn W),
    run rev op zone records c = Some ((out, Some err), c') -> out = [].
Proof.
  intros rev op zone records out err c c' Hrun.
  destruct (lookup rev zone c) as [[[domainID [lerr|]] c0]|] eqn:Hlook.
  - rewrite (run_lookup_failed rev op zone records _ _ _ _ Hlook) in Hrun.
    now inversion Hrun.
  - destruct (isBatch op) eqn:Hop.
    + rewrite (run_batch rev op zone records _ _ _ Hop Hlook) in Hrun.
      inversion Hrun as [Hloop].
      now apply forEach_error_nil in Hloop.
    + destruct op; try discriminate.
      rewrite (run_get rev zone records _ _ _ Hlook) in Hrun.
      inversion Hrun as [Hlist].
      now apply listDomainRecords_error in Hlist.
  - rewrite (run_unfinished rev op zone records c Hlook) in Hrun.
    discriminate.
Qed.

Lemma error_comes_with_no_records_witness :
  let r := run R2 Set_ "example.com" [txt; gone] (connect oneDomain) in
  option_map (fun x => snd (fst x)) r = Some (Some notFound)
  /\ option_map (fun x => fst (fst x)) r = Some []
  /\ option_map (fun x => List.length (records (remote (snd x)))) r
     = Some 2%nat.
Proof.
  cbv zeta.
  destruct (run R2 Set_ "example.com" [txt; gone] (connect oneDomain))
    as [[[out [err|]] c']|] eqn:Hrun; try (vm_compute in Hrun; discriminate).
  rewrite (error_comes_with_no_records R2 Set_ "example.com" [txt; gone]
             out err (connect oneDomain) c' Hrun) in *.
  vm_compute in Hrun. inversion Hrun. repeat split.
Defined.

(** X4 — The errors of List: an error from [GetRecords] of either
    revision is the failed zone lookup, wrapped with the zone as given
    and caused either by the domain not being found or by the remote
    refusing to list domains, or it is the remote's refusal to list the
    records. *)
Theorem list_error_shapes {W} `{Client W} :
  forall rev zone records out err (c c' : Conn W),
    run rev Get zone records c = Some ((out, Some err), c') ->
    err = ErrZoneLookup zone ErrDomainNotFound
    \/ (exists cause, err = ErrZoneLookup zone (ErrCouldNotListDomains cause))
    \/ (exists cause, err = ErrCouldNotListRecords cause).
Proof.
  intros rev zone records out err c c' Hrun.
  destruct (lookup rev zone c) as [[[domainID [lerr|]] c0]|] eqn:Hlook.
  - rewrite (run_lookup_failed rev Get zone records _ _ _ _ Hlook) in Hrun.
    inversion Hrun.
    destruct (lookup_error rev zone _ _ _ _ Hlook) as [_ [->|[cause ->]]].
    + now left.
    + right; left. now exists cause.
  - rewrite (run_get rev zone records _ _ _ Hlook) in Hrun.
    inversion Hrun as [Hlist].
    apply listDomainRecords_error in Hlist. right; right. apply Hlist.
  - rewrite (run_unfinished rev Get zone records c Hlook) in Hrun.
    discriminate.
Qed.

Lemma list_error_shapes_witness :
  let r := run (R1 4) Get "example.io" [] (connect threePages) in
  let err := ErrZoneLookup "example.io" ErrDomainNotFound in
  option_map (fun x => snd (fst x)) r = Some (Some err)
  /\ (err = ErrZoneLookup "example.io" ErrDomainNotFound
      \/ (exists cause,
            err = ErrZoneLookup "example.io" (ErrCouldNotListDomains cause))
      \/ (exists cause, err = ErrCouldNotListRecords cause)).
Proof.
  cbv zeta.
  destruct (run (R1 4) Get "example.io" [] (connect threePages))
    as [[[out [err|]] c']|] eqn:Hrun; try (vm_compute in Hrun; discriminate).
  pose proof (list_error_shapes (R1 4) "example.io" [] out err
                (connect threePages) c' Hrun) as Hshape.
  vm_compute in Hrun. inversion Hrun; subst.
  split; [reflexivity | exact Hshape].
Defined.

End Outcomes.

(* ================================================================== *)
(** * The requests of Delete *)

Section Deleting.
Import linodego Session Common Batch Ops Service Samples Sent.



End Deleting.

(* ================================================================== *)
(** * Names relative to the zone *)

Section Names.
Import linodego Session Common Batch Ops Service Samples strings.

Lemma substring_all s : substring 0 (len s) s = s.
Proof. unfold len. induction s; simpl; congruence. Qed.







End Names.

(* ================================================================== *)
(** * The records Append and Set return *)

Section Answered.
Import linodego Session Common Batch Ops Service Samples Answers Remote.

Lemma perform_answer {W A} (call : Call) (f : W -> A * W) (c : Conn W) :
  fst (perform call f c) = fst (f (remote c))
  /\ remote (snd (perform call f c)) = snd (f (remote c)).
Proof. unfold perform. destruct (f (remote c)); split; reflexivity. Qed.

Lemma step_answer {W} `{Client W} rev op zone domainID x out
    (c c' : Conn W) :
  op = Append \/ op = Set_ ->
  step rev op zone domainID x c = (inr out, c') ->
  exists rr,
    answer op zone domainID x (remote c) = Some (inr rr, remote c')
    /\ out = mergeWithExistingLibdns zone (existing rev op x) rr.
Proof.
  intros Hop Hstep.
  assert (Hcreate1 : forall o (c c' : Conn W),
            Rev1.createDomainRecord zone domainID x c = (inr o, c') ->
            exists rr,
              CreateDomainRecord domainID (createOptions zone x) (remote c)
              = (inr rr, remote c')
              /\ o = mergeWithExistingLibdns zone None rr).
  { unfold Rev1.createDomainRecord, bind, doCreateDomainRecord, perform.
    intros o k k'.
    destruct (CreateDomainRecord domainID (createOptions zone x) (remote k))
      as [[err|rr] w1]; unfold ret; intros Hr; inversion Hr.
    now exists rr. }
  assert (Hcreate2 : forall o (c c' : Conn W),
            Rev2.createDomainRecord zone domainID x c = (inr o, c') ->
            exists rr,
              CreateDomainRecord domainID (createOptions zone x) (remote c)
              = (inr rr, remote c')
              /\ o = mergeWithExistingLibdns zone (Some x) rr).
  { unfold Rev2.createDomainRecord, bind, doCreateDomainRecord, perform.
    intros o k k'.
    destruct (CreateDomainRecord domainID (createOptions zone x) (remote k))
      as [[err|rr] w1]; unfold ret; intros Hr; inversion Hr.
    now exists rr. }
  assert (Hupdate : forall o (c c' : Conn W),
            Common.updateDomainRecord zone domainID x c = (inr o, c') ->
            exists recordID rr,
              strconv.Atoi (libdns.ID x) = inr recordID
              /\ UpdateDomainRecord domainID recordID (updateOptions zone x)
                   (remote c)
                 = (inr rr, remote c')
              /\ o = mergeWithExistingLibdns zone (Some x) rr).
  { unfold Common.updateDomainRecord, bind, doUpdateDomainRecord, perform.
    intros o k k'.
    destruct (strconv.Atoi (libdns.ID x)) as [err|recordID];
      [discriminate |].
    destruct (UpdateDomainRecord domainID recordID (updateOptions zone x)
                (remote k))
      as [[err|rr] w1] eqn:Hu; unfold ret; intros Hr; inversion Hr.
    exists recordID, rr. split; [reflexivity | split; [exact Hu |]].
    reflexivity. }
  destruct Hop as [-> | ->]; destruct rev as [fuel|]; simpl in Hstep;
    unfold answer; cbn [existing].
  - apply Hcreate1 in Hstep as (rr & -> & ->). now exists rr.
  - apply Hcreate2 in Hstep as (rr & -> & ->). now exists rr.
  - unfold setStep1 in Hstep.
    destruct (libdns.ID x =? "")%string.
    + apply Hcreate1 in Hstep as (rr & -> & ->). now exists rr.
    + apply Hupdate in Hstep as (recordID & rr & -> & -> & ->).
      now exists rr.
  - unfold Rev2.createOrUpdateDomainRecord, bind in Hstep.
    destruct (libdns.ID x =? "")%string.
    + destruct (Rev2.createDomainRecord zone domainID x c)
        as [[err|o] k] eqn:Hc; inversion Hstep; subst.
      apply Hcreate2 in Hc as (rr & -> & ->). now exists rr.
    + destruct (Common.updateDomainRecord zone domainID x c)
        as [[err|o] k] eqn:Hu; inversion Hstep; subst.
      apply Hupdate in Hu as (recordID & rr & -> & -> & ->).
      now exists rr.
Qed.

Lemma forEach_laid {W} `{Client W} rev op zone domainID records :
  op = Append \/ op = Set_ ->
  forall acc out (c c' : Conn W),
    forEach (step rev op zone domainID) records acc c = ((out, None), c') ->
    exists new,
      out = (acc ++ new)%list
      /\ laid rev op zone domainID records (remote c) = Some (new, remote c').
Proof.
  intros Hop. induction records as [|x rest IH]; intros acc out c c' Hrun.
  - simpl in Hrun. unfold ret in Hrun. inversion Hrun. exists []. split.
    + now rewrite app_nil_r.
    + reflexivity.
  - cbn [forEach] in Hrun. unfold bind in Hrun.
    destruct (step rev op zone domainID x c) as [[err|o] c0] eqn:Hx;
      [discriminate |].
    apply (step_answer rev op zone domainID x o c c0 Hop) in Hx
      as (rr & Hanswer & ->).
    apply IH in Hrun as (new & -> & Hrest).
    exists (mergeWithExistingLibdns zone (existing rev op x) rr :: new).
    split.
    + now rewrite <- app_assoc.
    + cbn [laid]. now rewrite Hanswer, Hrest.
Qed.

Lemma laid_shape {W} `{Client W} rev op zone domainID records :
  forall (w w' : W) out,
    laid rev op zone domainID records w = Some (out, w') ->
    List.length out = List.length records
    /\ (rev = R2 -> map libdns.Priority out = map libdns.Priority records).
Proof.
  induction records as [|x rest IH]; intros w w' out Hlaid;
    cbn [laid] in Hlaid.
  - inversion Hlaid. now split.
  - destruct (answer op zone domainID x w) as [[[err|rr] w1]|];
      try discriminate.
    destruct (laid rev op zone domainID rest w1) as [[new w2]|] eqn:Hrest;
      [| discriminate].
    inversion Hlaid; subst. destruct (IH _ _ _ Hrest) as [Hlen Hprio].
    split; [simpl; now rewrite Hlen |].
    intros ->. simpl. now rewrite (Hprio eq_refl).
Qed.

(** X7 — What Append and Set return when they succeed: one record for
    each input record, in input order, each made of the remote's own
    answer to the request for that record (ID, type, name relative to
    the zone, value and TTL), given in the state the requests before it
    left, laid over the record that was sent, or over an empty record
    where the first revision creates; so the second revision hands
    back each record's Priority as it was given. *)
Theorem batch_returns_one_answer_per_record {W} `{Client W} :
  forall rev op zone records out (c c' : Conn W),
    op = Append \/ op = Set_ ->
    run rev op zone records c = Some ((out, None), c') ->
    (exists domainID c0,
       lookup rev zone c = Some ((domainID, None), c0)
       /\ laid rev op zone domainID records (remote c0)
          = Some (out, remote c'))
    /\ List.length out = List.length records
    /\ (rev = R2 ->
        map libdns.Priority out = map libdns.Priority records).
Proof.
  intros rev op zone records out c c' Hop Hrun.
  assert (Hbatch : isBatch op = true) by now destruct Hop as [-> | ->].
  assert (Hstart : start rev op records = []).
  { now destruct Hop as [-> | ->], rev. }
  destruct (lookup rev zone c) as [[[domainID [lerr|]] c0]|] eqn:Hlook.
  - rewrite (run_lookup_failed rev op zone records _ _ _ _ Hlook) in Hrun.
    discriminate.
  - rewrite (run_batch rev op zone records _ _ _ Hbatch Hlook) in Hrun.
    inversion Hrun as [Hloop]. rewrite Hstart in Hloop.
    apply (forEach_laid rev op zone domainID records Hop) in Hloop
      as (new & -> & Hlaid).
    simpl. split; [now exists domainID, c0 |].
    exact (laid_shape rev op zone domainID records _ _ _ Hlaid).
  - rewrite (run_unfinished rev op zone records c Hlook) in Hrun.
    discriminate.
Qed.

Lemma batch_returns_one_answer_per_record_witness :
  let r := run R2 Set_ "example.com" [txt; www] (connect oneDomain) in
  let out := match r with Some ((out, _), _) => out | None => [] end in
  (Set_ = Append \/ Set_ = Set_)
  /\ option_map (fun x => snd (fst x)) r = Some None
  /\ option_map fst (laid R2 Set_ "example.com" 42 [txt; www] oneDomain)
     = Some out
  /\ List.length out = 2%nat
  /\ map libdns.Priority out = [0; 10].
Proof.
  cbv zeta.
  destruct (run R2 Set_ "example.com" [txt; www] (connect oneDomain))
    as [[[out [err|]] c']|] eqn:Hrun; try (vm_compute in Hrun; discriminate).
  destruct (batch_returns_one_answer_per_record R2 Set_ "example.com"
              [txt; www] out (connect oneDomain) c' (or_intror eq_refl) Hrun)
    as ((domainID & c0 & Hlook & Hlaid) & Hlen & Hprio).
  split; [now right |]. split; [reflexivity |].
  split; [| split; [exact Hlen | exact (Hprio eq_refl)]].
  vm_compute in Hlook. inversion Hlook; subst.
  cbn [remote] in Hlaid.
  assert (Heq : laid R2 Set_ "example.com" 42 [txt; www] oneDomain
                = Some (out, remote c')) by exact Hlaid.
  now rewrite Heq.
Defined.

End Answered.

(* ================================================================== *)
(** * The two revisions side by side *)

Section Revisions.
Import linodego Session Common Batch Ops Service Samples Answers.

Lemma withPriority_merge zone e1 e2 rr :
  withPriority 0 (mergeWithExistingLibdns zone e1 rr)
  = withPriority 0 (mergeWithExistingLibdns zone e2 rr).
Proof. reflexivity. Qed.

(** One attempt of the first revision against the same attempt of the
    second, from the same connection. *)
Lemma step_by_revision {W} `{Client W} fuel op zone domainID x (c : Conn W) :
  snd (step (R1 fuel) op zone domainID x c) = snd (step R2 op zone domainID x c)
  /\ match fst (step (R1 fuel) op zone domainID x c),
           fst (step R2 op zone domainID x c) with
     | inl e1, inl e2 => e1 = e2
     | inr o1, inr o2 => withPriority 0 o1 = withPriority 0 o2
     | _, _ => False
     end.
Proof.
  assert (Hcreate :
    snd (Rev1.createDomainRecord zone domainID x c)
    = snd (Rev2.createDomainRecord zone domainID x c)
    /\ match fst (Rev1.createDomainRecord zone domainID x c),
             fst (Rev2.createDomainRecord zone domainID x c) with
       | inl e1, inl e2 => e1 = e2
       | inr o1, inr o2 => withPriority 0 o1 = withPriority 0 o2
       | _, _ => False
       end).
  { unfold Rev1.createDomainRecord, Rev2.createDomainRecord, bind.
    destruct (doCreateDomainRecord domainID (createOptions zone x) c)
      as [[err|rr] c1]; simpl; split; reflexivity. }
  assert (Hsame : forall (m : M W (error + libdns.Record)),
    snd (m c) = snd (m c)
    /\ match fst (m c), fst (m c) with
       | inl e1, inl e2 => e1 = e2
       | inr o1, inr o2 => withPriority 0 o1 = withPriority 0 o2
       | _, _ => False
       end).
  { intros m. destruct (m c) as [[err|o] c1]; simpl; split; reflexivity. }
  destruct op.
  - simpl. now split.
  - exact Hcreate.
  - simpl. unfold setStep1, Rev2.createOrUpdateDomainRecord, bind.
    destruct (libdns.ID x =? "")%string.
    + destruct Hcreate as [Hc Hr].
      destruct (Rev1.createDomainRecord zone domainID x c) as [[e1|o1] c1],
               (Rev2.createDomainRecord zone domainID x c) as [[e2|o2] c2];
        simpl in *; split; assumption.
    + destruct (Common.updateDomainRecord zone domainID x c) as [[e|o] c1];
        simpl; split; reflexivity.
  - exact (Hsame (deleteStep domainID x)).
Qed.

Lemma forEach_by_revision {W} `{Client W} fuel op zone domainID records :
  forall acc1 acc2 (c : Conn W),
    map (withPriority 0) acc1 = map (withPriority 0) acc2 ->
    sameUpToPriority
      (forEach (step (R1 fuel) op zone domainID) records acc1 c)
      (forEach (step R2 op zone domainID) records acc2 c).
Proof.
  induction records as [|x rest IH]; intros acc1 acc2 c Hacc.
  - simpl. unfold ret, sameUpToPriority. simpl. now repeat split.
  - cbn [forEach]. unfold bind.
    destruct (step_by_revision fuel op zone domainID x c) as [Hc Hr].
    destruct (step (R1 fuel) op zone domainID x c) as [[e1|o1] c1],
             (step R2 op zone domainID x c) as [[e2|o2] c2];
      simpl in Hc, Hr; try contradiction; subst.
    + unfold ret, sameUpToPriority. simpl. now repeat split.
    + apply IH. rewrite !map_app. simpl. now rewrite Hacc, Hr.
Qed.

(** X8 — The two revisions differ, once the domain is found, only in
    the Priority they hand back: for the same input from the same
    connection the Append loops, and likewise the Set loops, send the
    same requests, leave the remote in the same state, stop with the
    same error, and on success return lists that are equal once
    Priority is set aside. *)
Theorem revisions_differ_in_priority_only {W} `{Client W} :
  forall fuel zone domainID records (c : Conn W),
    sameUpToPriority
      (Rev1.appendLoop zone domainID records [] c)
      (Rev2.appendLoop zone domainID records [] c)
    /\ sameUpToPriority
         (Rev1.setLoop zone domainID records [] c)
         (Rev2.setLoop zone domainID records [] c)
    /\ forall op,
         sameUpToPriority
           (forEach (step (R1 fuel) op zone domainID) records [] c)
           (forEach (step R2 op zone domainID) records [] c).
Proof.
  intros fuel zone domainID records c.
  rewrite appendLoop1_forEach, appendLoop2_forEach,
    setLoop1_forEach, setLoop2_forEach.
  split; [|split].
  - exact (forEach_by_revision fuel Append zone domainID records [] [] c
             eq_refl).
  - exact (forEach_by_revision fuel Set_ zone domainID records [] [] c
             eq_refl).
  - intros op. now apply forEach_by_revision.
Qed.

End Revisions.

(* ================================================================== *)
(** * Seconds of any duration *)

Section FloatSum.
Import time Rounding.

Lemma rne_between mx my U W :
  0 < W -> 0 < U -> 0 <= mx -> 0 <= my < U * W ->
  mx <= rne (mx * W + my) W <= mx + U.
Proof.
  intros HW HU Hmx Hmy.
  assert (Hdiv : (mx * W + my) / W = mx + my / W)
    by (rewrite Z.div_add_l by lia; reflexivity).
  pose proof (Z.div_pos my W ltac:(lia) HW) as Hq0.
  assert (Hq : my / W < U) by (apply Z.div_lt_upper_bound; lia).
  pose proof (rne_floor_ceil (mx * W + my) W HW ltac:(nia)) as HR.
  rewrite Hdiv in HR. lia.
Qed.

(** Whole seconds below [2^52] plus a fraction below one: the sum,
    converted back, is the whole seconds or one more. *)
Lemma seconds_sum_near s sec my ey :
  0 < sec < 2 ^ 52 -> -1074 <= ey <= -53 ->
  Z.pos my < 2 ^ (- ey) ->
  let back :=
    int_of_float64
      (fadd (S754_finite s (Z.to_pos (sec * 2 ^ (53 - Zdigits2 sec)))
                         (Zdigits2 sec - 53))
            (S754_finite s my ey)) in
  back = cond_Zopp s sec \/ back = cond_Zopp s (sec + 1).
Proof.
  intros Hsec Hey Hmy. cbv zeta.
  pose proof (Zdigits2_bounds sec ltac:(lia)) as [Hlo Hhi].
  assert (Hds : 0 < Zdigits2 sec <= 52).
  { split; [destruct sec; simpl; lia|]. apply Zdigits2_le; lia. }
  set (ds := Zdigits2 sec) in *.
  set (U := 2 ^ (53 - ds)).
  assert (HU : 2 <= U).
  { change 2 with (2 ^ 1). apply Z.pow_le_mono_r; lia. }
  set (ex := ds - 53).
  set (n := ex - ey).
  assert (Hn : 0 < n) by (unfold n, ex; lia).
  set (W := 2 ^ n).
  assert (HW : 0 < W) by (apply Z.pow_pos_nonneg; lia).
  assert (HUW : U * W = 2 ^ (- ey)).
  { unfold U, W. rewrite <- Z.pow_add_r by lia. f_equal. unfold n, ex. lia. }
  set (mxZ := sec * U).
  assert (HmxZ : 0 < mxZ) by (unfold mxZ; nia).
  set (M := mxZ * W + Z.pos my).
  assert (HM : 0 < M) by (unfold M; nia).
  assert (Hmy1 : Z.pos my < U * W) by (rewrite HUW; lia).
  assert (HdM : Zdigits2 M = ds - ey).
  { apply Zdigits2_unique; [lia|].
    replace (2 ^ (ds - ey - 1)) with (2 ^ (ds - 1) * (U * W))
      by (rewrite HUW, <- Z.pow_add_r by lia; f_equal; lia).
    replace (2 ^ (ds - ey)) with (2 ^ ds * (U * W))
      by (rewrite HUW, <- Z.pow_add_r by lia; f_equal; lia).
    unfold M, mxZ. nia. }
  unfold fadd, SFadd.
  replace (Z.min ex ey) with ey by lia.
  pose proof (shl_align_spec (Z.to_pos mxZ) ex ey) as Hax.
  destruct (shl_align (Z.to_pos mxZ) ex ey) as [mx' ex'].
  destruct Hax as [_ Hmx']. rewrite Z.min_r in Hmx' by lia.
  rewrite Z2Pos.id in Hmx' by lia. fold n in Hmx'. fold W in Hmx'.
  pose proof (shl_align_spec my ey ey) as Hay.
  destruct (shl_align my ey ey) as [my' ey'].
  destruct Hay as [_ Hmy']. rewrite Z.min_id, Z.sub_diag, Z.mul_1_r in Hmy'.
  cbn [fst].
  assert (Hsum : cond_Zopp s (Z.pos mx') + cond_Zopp s (Z.pos my')
                 = cond_Zopp s M).
  { rewrite Hmx', Hmy'. unfold M. destruct s; simpl; lia. }
  rewrite Hsum.
  assert (Hnorm : binary_normalize prec emax (cond_Zopp s M) ey false
                  = binary_round prec emax s (Z.to_pos M) ey).
  { destruct M as [|Mp|Mp]; try lia. destruct s; reflexivity. }
  rewrite Hnorm. unfold binary_round.
  change (Z.pos (digits2_pos (Z.to_pos M)))
    with (Zdigits2 (Z.pos (Z.to_pos M))).
  rewrite Z2Pos.id by lia. rewrite HdM.
  assert (Hf : fexp prec emax (ds - ey + ey) = ex)
    by (unfold fexp, emin, prec, emax, ex; lia).
  rewrite Hf.
  pose proof (shl_align_spec (Z.to_pos M) ey ex) as HaM.
  destruct (shl_align (Z.to_pos M) ey ex) as [mz ez].
  destruct HaM as [Hez Hmz]. rewrite Z.min_l in Hez, Hmz by lia.
  rewrite Z.sub_diag, Z.mul_1_r, Z2Pos.id in Hmz by lia. subst ez.
  rewrite Hmz.
  pose proof (binary_round_aux_spec s M ey M 1 ltac:(lia) ltac:(lia)
                ltac:(now rewrite Z.div_1_r) HM ltac:(lia)) as Hspec.
  cbv zeta in Hspec. rewrite HdM in Hspec.
  replace (Z.max 0 (ds - ey - 53)) with n in Hspec by (unfold n, ex; lia).
  rewrite Z.mod_1_r, Z.mul_1_l in Hspec. fold W in Hspec.
  change (locOf 0 1) with loc_Exact in Hspec.
  replace (ey + n) with ex in Hspec by (unfold n; lia).
  specialize (Hspec ltac:(unfold ex; lia)).
  destruct Hspec as (_ & _ & Hres). rewrite Hres.
  pose proof (rne_between mxZ (Z.pos my) U W HW ltac:(lia) ltac:(lia)
                ltac:(lia)) as HR.
  fold M in HR. set (R := rne M W) in *.
  assert (H2ds : 2 ^ ds * U = 2 ^ 53)
    by (unfold U; rewrite <- Z.pow_add_r by lia; f_equal; lia).
  assert (HUds : (sec + 1) * U <= 2 ^ 53).
  { rewrite <- H2ds. apply Z.mul_le_mono_nonneg_r; lia. }
  assert (Hin : forall z, 0 <= z <= 2 ^ 52 ->
                  GoInt.inRange (if s then - z else z) = true).
  { intros z Hz. unfold GoInt.inRange, GoInt.minInt64, GoInt.maxInt64.
    destruct s; apply andb_true_intro; split; apply Z.leb_le; lia. }
  unfold mxZ in HR.
  destruct (Z.ltb_spec R (2 ^ 53)) as [Hlt|Hge].
  - unfold int_of_float64.
    rewrite Z2Pos.id by lia.
    replace ex with (- (53 - ds)) by (unfold ex; lia).
    rewrite shiftl_neg by lia. fold U.
    destruct (Z.eq_dec R ((sec + 1) * U)) as [Htop|Hbelow].
    + right. rewrite Htop, Z.div_mul by lia.
      rewrite Hin by lia. destruct s; reflexivity.
    + left.
      assert (HRU : R / U = sec).
      { symmetry. apply (Z.div_unique R U sec (R - sec * U)); lia. }
      rewrite HRU, Hin by lia. destruct s; reflexivity.
  - right.
    assert (Hsec1 : sec + 1 = 2 ^ ds).
    { assert (Heq : (sec + 1) * U = 2 ^ ds * U) by lia.
      apply Z.mul_cancel_r in Heq; lia. }
    unfold int_of_float64.
    change (Z.pos (Z.to_pos (2 ^ 52))) with (2 ^ 52).
    replace (ex + 1) with (- (52 - ds)) by (unfold ex; lia).
    rewrite shiftl_neg by lia.
    replace (2 ^ 52) with (2 ^ ds * 2 ^ (52 - ds))
      by (rewrite <- Z.pow_add_r by lia; f_equal; lia).
    rewrite Z.div_mul by (apply Z.pow_nonzero; lia).
    rewrite <- Hsec1, Hin by lia. destruct s; reflexivity.
Qed.

Lemma seconds_of_parts_near s qa ra :
  0 <= qa < 2 ^ 52 -> 0 <= ra < 1000000000 ->
  let back :=
    int_of_float64
      (fadd (float64_of_int (cond_Zopp s qa))
            (fdiv (float64_of_int (cond_Zopp s ra))
                  (float64_of_int 1000000000))) in
  back = cond_Zopp s qa \/ (ra <> 0 /\ back = cond_Zopp s (qa + 1)).
Proof.
  intros Hqa Hra. cbv zeta.
  destruct (Z.eq_dec ra 0) as [Hr0|Hr0].
  - left. apply seconds_of_parts; [lia | lia | left; lia].
  - destruct (Z.eq_dec qa 0) as [Hq0|Hq0].
    + left. apply seconds_of_parts; [lia | lia | right; lia].
    + destruct (nanoseconds_quotient s ra ltac:(lia))
        as (my & ey & -> & Hey & Hmy).
      rewrite float64_of_int_exact by lia.
      assert (H2 : 0 < 2 ^ (- ey)) by (apply Z.pow_pos_nonneg; lia).
      destruct (seconds_sum_near s qa my ey ltac:(lia) Hey ltac:(lia))
        as [Hsame|Hnext]; [now left | right; now split].
Qed.

(** For every duration an [int64] holds, [int(d.Seconds())] is the
    duration in whole seconds or, when it has a fraction, possibly one
    second further from zero. *)
Lemma ttlSec_near d :
  GoInt.minInt64 <= d <= GoInt.maxInt64 ->
  Common.ttlSec d = Z.quot d 1000000000
  \/ (Z.rem d 1000000000 <> 0
      /\ Common.ttlSec d = Z.quot d 1000000000 + Z.sgn d).
Proof.
  intros Hd. unfold Common.ttlSec, Seconds.
  destruct (duration_parts d Hd) as (Hq & Hr & Hquot).
  pose proof Hr as Hrem. unfold GoInt.rem, Second in Hrem.
  rewrite Hq, Hr, Hquot.
  unfold GoInt.minInt64, GoInt.maxInt64 in Hd.
  assert (Hqa : 0 <= Z.abs d / 1000000000 < 2 ^ 52).
  { split; [apply Z.div_pos; lia |].
    apply Z.div_lt_upper_bound; lia. }
  pose proof (Z.mod_pos_bound (Z.abs d) 1000000000 ltac:(lia)) as Hra.
  destruct (seconds_of_parts_near (d <? 0) _ _ Hqa Hra) as [Hsame|[Hnz Hnext]].
  - now left.
  - right. split.
    + rewrite Hrem. destruct (d <? 0); simpl; lia.
    + rewrite Hnext.
      destruct (Z.ltb_spec d 0) as [Hneg|Hpos]; simpl.
      * rewrite Z.sgn_neg by lia. lia.
      * assert (d <> 0).
        { intros ->. now apply Hnz. }
        rewrite Z.sgn_pos by lia. lia.
Qed.

End FloatSum.

Section Seconds.
Import linodego Common.

(** X9 — The TTL sent is never off by more than a second: for every
    TTL a [Duration] can hold, create and update requests carry the
    TTL's whole seconds or, when the TTL has a fraction of a second,
    possibly one second more in magnitude; a TTL of whole seconds is
    always sent exactly. *)
Theorem ttl_sent_within_one_second :
  forall zone record,
    GoInt.inRange (libdns.TTL record) = true ->
    let whole := Z.quot (libdns.TTL record) time.Second in
    let sent := Create_TTLSec (createOptions zone record) in
    Update_TTLSec (updateOptions zone record) = sent
    /\ (sent = whole \/ sent = whole + Z.sgn (libdns.TTL record))
    /\ (Z.rem (libdns.TTL record) time.Second = 0 -> sent = whole).
Proof.
  intros zone record Hrange. cbv zeta. simpl.
  unfold GoInt.inRange in Hrange.
  apply andb_true_iff in Hrange as [Hlo Hhi].
  apply Z.leb_le in Hlo, Hhi.
  destruct (ttlSec_near (libdns.TTL record) (conj Hlo Hhi))
    as [Hsame|[Hnz Hnext]].
  - split; [reflexivity | split; [now left | now intros _]].
  - split; [reflexivity | split; [now right | intros Hz; contradiction]].
Qed.

Lemma ttl_sent_within_one_second_witness :
  let record :=
    libdns.mkRecord "" "A" "www" "192.0.2.1" (-16777216999999999) 0 in
  GoInt.inRange (libdns.TTL record) = true
  /\ Z.quot (libdns.TTL record) time.Second = -16777216
  /\ Create_TTLSec (createOptions "example.com" record) = -16777217
  /\ (Create_TTLSec (createOptions "example.com" record)
        = Z.quot (libdns.TTL record) time.Second
      \/ Create_TTLSec (createOptions "example.com" record)
         = Z.quot (libdns.TTL record) time.Second
           + Z.sgn (libdns.TTL record)).
Proof.
  cbv zeta. split; [reflexivity |]. split; [reflexivity |].
  split; [vm_compute; reflexivity |].
  exact (proj1 (proj2 (ttl_sent_within_one_second "example.com"
                         (libdns.mkRecord "" "A" "www" "192.0.2.1"
                            (-16777216999999999) 0) eq_refl))).
Defined.

End Seconds.

(* ================================================================== *)
(** * The pages of the domain scan *)

Section Paging.
Import linodego Session Common Ops Service Samples.

Lemma pageLoop_pages {W} `{Client W} fuel zone :
  forall page opts r (c c0 : Conn W),
    page + Z.of_nat fuel <= GoInt.maxInt64 ->
    GoInt.minInt64 <= page ->
    Rev1.pageLoop fuel zone page opts c = Some (r, c0) ->
    exists asked,
      trace c0 = (trace c ++ map CallListDomains asked)%list
      /\ map Page asked
         = map (fun i => page + Z.of_nat i) (seq 0 (List.length asked))
      /\ (List.length asked <= fuel)%nat.
Proof.
  induction fuel as [|fuel IH]; intros page opts r c c0 Hfuel Hpage Hrun;
    [discriminate |].
  simpl in Hrun. destruct (page <=? Pages opts).
  - unfold doListDomains, perform in Hrun.
    destruct (ListDomains (withPage page opts) (remote c))
      as [[err|[ds o]] w] eqn:Hlist.
    + inversion Hrun. exists [withPage page opts]. simpl.
      rewrite Z.add_0_r. repeat split; lia.
    + destruct (Rev1.scanDomains ds zone).
      * inversion Hrun. exists [withPage page opts]. simpl.
        rewrite Z.add_0_r. repeat split; lia.
      * assert (Hnext : GoInt.add page 1 = page + 1).
        { apply wrap_small. lia. }
        rewrite Hnext in Hrun.
        apply IH in Hrun as (asked & Htr & Hpages & Hlen); [| lia | lia].
        exists (withPage page opts :: asked). simpl in *.
        rewrite Htr, <- app_assoc. split; [reflexivity |].
        split; [| lia].
        rewrite Z.add_0_r, Hpages. f_equal.
        rewrite <- seq_shift, map_map.
        apply map_ext. intros i. lia.
  - inversion Hrun. exists []. simpl. rewrite app_nil_r.
    repeat split; lia.
Qed.

(** X10 — The pages the first revision asks for: its domain scan asks
    the remote for page 1, then page 2 and so on with no page skipped
    or asked twice, makes no other call, and always asks for page 1
    before it gives an answer. *)
Theorem scan_asks_pages_in_order {W} `{Client W} :
  forall fuel zone r (c c0 : Conn W),
    Z.of_nat fuel < GoInt.maxInt64 ->
    Rev1.getDomainIDByZone fuel zone c = Some (r, c0) ->
    exists asked,
      trace c0 = (trace c ++ map CallListDomains asked)%list
      /\ map Page asked = map Z.of_nat (seq 1 (List.length asked))
      /\ (1 <= List.length asked <= fuel)%nat.
Proof.
  intros fuel zone r c c0 Hfuel Hrun.
  unfold Rev1.getDomainIDByZone in Hrun. simpl in Hrun.
  assert (Hfirst : (1 <= fuel)%nat).
  { destruct fuel; [discriminate | lia]. }
  pose proof Hrun as Hasked.
  apply pageLoop_pages in Hasked as (asked & Htr & Hpages & Hlen);
    [| lia | unfold GoInt.minInt64; lia].
  exists asked. split; [exact Htr |]. split.
  - rewrite Hpages, <- seq_shift, map_map.
    apply map_ext. intros i. lia.
  - split; [| exact Hlen].
    destruct asked as [|o rest]; [| simpl; lia].
    destruct fuel as [|fuel]; [discriminate |].
    simpl in Hrun. unfold doListDomains, perform in Hrun.
    destruct (ListDomains _ (remote c)) as [[err|[ds o]] w].
    + inversion Hrun as [[Hr Hc]]. rewrite <- Hc in Htr. simpl in Htr.
      rewrite app_nil_r in Htr.
      apply (f_equal (@List.length _)) in Htr.
      rewrite length_app in Htr. simpl in Htr. lia.
    + destruct (Rev1.scanDomains ds zone).
      * inversion Hrun as [[Hr Hc]]. rewrite <- Hc in Htr. simpl in Htr.
        rewrite app_nil_r in Htr.
        apply (f_equal (@List.length _)) in Htr.
        rewrite length_app in Htr. simpl in Htr. lia.
      * destruct (pageLoop_trace fuel zone _ _ _ _ _ Hrun)
          as (added & Hadded & _).
        simpl in Hadded, Htr. rewrite app_nil_r in Htr.
        rewrite Htr in Hadded.
        apply (f_equal (@List.length _)) in Hadded.
        rewrite !length_app in Hadded. simpl in Hadded. lia.
Qed.

Lemma scan_asks_pages_in_order_witness :
  let scan := Rev1.getDomainIDByZone 4 "example.com" (connect threePages) in
  let c0 := match scan with
            | Some (_, c0) => c0
            | None => connect threePages
            end in
  Z.of_nat 4 < GoInt.maxInt64
  /\ option_map fst scan = Some (42, None)
  /\ map (fun k => match k with
                   | CallListDomains o => Page o
                   | _ => 0
                   end) (trace c0) = [1; 2]
  /\ exists asked,
       trace c0
       = (trace (connect threePages) ++ map CallListDomains asked)%list
       /\ map Page asked = map Z.of_nat (seq 1 (List.length asked))
       /\ (1 <= List.length asked <= 4)%nat.
Proof.
  cbv zeta. split; [reflexivity |]. split; [vm_compute; reflexivity |].
  split; [vm_compute; reflexivity |].
  destruct (Rev1.getDomainIDByZone 4 "example.com" (connect threePages))
    as [[r c0]|] eqn:Hrun; [| vm_compute in Hrun; discriminate].
  exact (scan_asks_pages_in_order 4 "example.com" r (connect threePages) c0
           eq_refl Hrun).
Defined.

End Paging.

(* ================================================================== *)
(** * The records List returns *)

Section Listing.
Import linodego Session Common Ops Service Samples.

(** X11 — What List returns when it succeeds: after the domain lookup
    it makes one call, for all records of the domain found, with no
    filter, and returns the translation of each record the remote
    listed, as many and in the remote's order; the records passed in
    play no part. *)
Theorem list_returns_what_remote_lists {W} `{Client W} :
  forall rev zone records out (c c' : Conn W),
    run rev Get zone records c = Some ((out, None), c') ->
    exists domainID c0 rrs,
      lookup rev zone c = Some ((domainID, None), c0)
      /\ doListDomainRecords domainID (NewListOptions 0 NoFilter) c0
         = (inr rrs, c')
      /\ trace c'
         = (trace c0
            ++ [CallListDomainRecords domainID
                  (NewListOptions 0 NoFilter)])%list
      /\ out = map (convertToLibdns zone) rrs.
Proof.
  intros rev zone records out c c' Hrun.
  destruct (lookup rev zone c) as [[[domainID [lerr|]] c0]|] eqn:Hlook.
  - rewrite (run_lookup_failed rev Get zone records _ _ _ _ Hlook) in Hrun.
    discriminate.
  - rewrite (run_get rev zone records _ _ _ Hlook) in Hrun.
    inversion Hrun as [Hlist]. clear Hrun.
    unfold Common.listDomainRecords, bind in Hlist.
    pose proof (perform_trace
                  (CallListDomainRecords domainID (NewListOptions 0 NoFilter))
                  (ListDomainRecords domainID (NewListOptions 0 NoFilter))
                  c0) as Htr.
    fold (doListDomainRecords domainID (NewListOptions 0 NoFilter)) in Htr.
    destruct (doListDomainRecords domainID (NewListOptions 0 NoFilter) c0)
      as [[err|rrs] c1] eqn:Hcall; unfold ret in Hlist;
      inversion Hlist; subst.
    exists domainID, c0, rrs.
    split; [reflexivity | split; [exact Hcall | split]];
      [exact Htr | reflexivity].
  - rewrite (run_unfinished rev Get zone records c Hlook) in Hrun.
    discriminate.
Qed.

Lemma list_returns_what_remote_lists_witness :
  let r := run R2 Get "example.com." [] (connect oneDomain) in
  option_map fst r
  = Some ([libdns.mkRecord "7" "A" "www" "192.0.2.1" 300000000000 0], None)
  /\ forall out c',
       r = Some ((out, None), c') ->
       exists domainID c0 rrs,
         lookup R2 "example.com." (connect oneDomain)
         = Some ((domainID, None), c0)
         /\ doListDomainRecords domainID (NewListOptions 0 NoFilter) c0
            = (inr rrs, c')
         /\ trace c'
            = (trace c0
               ++ [CallListDomainRecords domainID
                     (NewListOptions 0 NoFilter)])%list
         /\ out = map (convertToLibdns "example.com.") rrs.
Proof.
  cbv zeta. split; [vm_compute; reflexivity |].
  intros out c' Hrun.
  exact (list_returns_what_remote_lists R2 "example.com." [] out
           (connect oneDomain) c' Hrun).
Defined.

End Listing.

(* ================================================================== *)
(** * From the remote and back: the round trip *)

Section RoundTrip.
Import linodego Common strings Zone.

Lemma len_substring_0 s :
  forall j, (j <= len s)%nat -> len (substring 0 j s) = j.
Proof.
  unfold len. induction s as [|a s IH]; intros j Hj; simpl in *.
  - destruct j; [reflexivity | lia].
  - destruct j; [reflexivity |]. simpl. rewrite IH; [reflexivity | lia].
Qed.

Lemma HasSuffix_len s suffix :
  HasSuffix s suffix = true -> (len suffix <= len s)%nat.
Proof.
  unfold HasSuffix. intros Hs. apply andb_true_iff in Hs as [Hlen _].
  now apply Nat.leb_le.
Qed.

Lemma TrimSuffix_len s suffix :
  len (TrimSuffix s suffix)
  = if HasSuffix s suffix then (len s - len suffix)%nat else len s.
Proof.
  unfold TrimSuffix. destruct (HasSuffix s suffix) eqn:Hs; [|reflexivity].
  unfold sliceTo. apply len_substring_0. lia.
Qed.

(** Trimming that removes nothing leaves the string as it was. *)
Lemma TrimSuffix_same_len s suffix :
  len (TrimSuffix s suffix) = len s ->
  TrimSuffix s suffix = s
  /\ (HasSuffix s suffix = false \/ suffix = "").
Proof.
  rewrite TrimSuffix_len. unfold TrimSuffix.
  destruct (HasSuffix s suffix) eqn:Hs; intros Hlen.
  - apply HasSuffix_len in Hs.
    assert (Hz : len suffix = 0%nat) by lia.
    split.
    + unfold sliceTo. rewrite Hz, Nat.sub_0_r. apply substring_all.
    + right. destruct suffix; [reflexivity | discriminate].
  - split; [reflexivity | now left].
Qed.

Lemma TrimSuffix_len_le s suffix : (len (TrimSuffix s suffix) <= len s)%nat.
Proof. rewrite TrimSuffix_len. destruct (HasSuffix s suffix); lia. Qed.

Lemma RelativeName_len_le name zone :
  (len (libdns.RelativeName name zone) <= len name)%nat.
Proof.
  unfold libdns.RelativeName.
  pose proof (TrimSuffix_len_le (TrimSuffix name zone) ".").
  pose proof (TrimSuffix_len_le name zone). lia.
Qed.

(** [RelativeName] leaves exactly the names alone that are relative to
    the zone already. *)
Lemma relativeTo_fixed zone name :
  relativeTo zone name = true <-> libdns.RelativeName name zone = name.
Proof.
  unfold relativeTo, libdns.RelativeName. split.
  - intros Hrel. apply andb_true_iff in Hrel as [Hzone Hdot].
    apply negb_true_iff in Hdot.
    assert (Hkeep : TrimSuffix name zone = name).
    { apply orb_true_iff in Hzone as [Hempty|Hno].
      - apply String.eqb_eq in Hempty. subst zone.
        apply TrimSuffix_same_len. rewrite TrimSuffix_len.
        destruct (HasSuffix name ""); simpl; lia.
      - apply negb_true_iff in Hno. unfold TrimSuffix. now rewrite Hno. }
    rewrite Hkeep. now apply TrimSuffix_no_dot.
  - intros Hfix.
    pose proof (TrimSuffix_len_le (TrimSuffix name zone) ".") as Hle2.
    pose proof (TrimSuffix_len_le name zone) as Hle1.
    assert (Hlen : len (TrimSuffix (TrimSuffix name zone) ".") = len name)
      by now rewrite Hfix.
    destruct (TrimSuffix_same_len name zone ltac:(lia)) as [Hkeep Hzone].
    rewrite Hkeep in *.
    destruct (TrimSuffix_same_len name "." Hlen) as [_ [Hdot|Hdot]];
      [| discriminate].
    rewrite Hdot. rewrite andb_true_r. apply orb_true_iff.
    destruct Hzone as [Hno| ->]; [right; now rewrite Hno | now left].
Qed.

(** Made relative twice, a name comes back only if it was relative. *)
Lemma RelativeName_twice zone name :
  libdns.RelativeName (libdns.RelativeName name zone) zone = name
  <-> libdns.RelativeName name zone = name.
Proof.
  split.
  - intros Htwice.
    pose proof (RelativeName_len_le (libdns.RelativeName name zone) zone)
      as Hle2.
    pose proof (RelativeName_len_le name zone) as Hle1.
    rewrite Htwice in Hle2.
    assert (Hlen : len (libdns.RelativeName name zone) = len name) by lia.
    unfold libdns.RelativeName in Hlen |- *.
    pose proof (TrimSuffix_len_le (TrimSuffix name zone) ".") as Hb.
    pose proof (TrimSuffix_len_le name zone) as Ha.
    destruct (TrimSuffix_same_len name zone ltac:(lia)) as [Hkeep _].
    rewrite Hkeep in *.
    now apply TrimSuffix_same_len.
  - intros Hfix. now rewrite !Hfix.
Qed.

Lemma wrap_range z : GoInt.minInt64 <= GoInt.wrap z <= GoInt.maxInt64.
Proof.
  unfold GoInt.wrap, GoInt.minInt64, GoInt.maxInt64.
  pose proof (Z.mod_pos_bound (z + 2 ^ 63) (2 ^ 64) ltac:(lia)). lia.
Qed.

(** No duration an [int64] holds has more than 9223372037 seconds, the
    way [ttlSec] counts them. *)
Lemma ttlSec_bound d :
  GoInt.minInt64 <= d <= GoInt.maxInt64 ->
  -9223372037 <= Common.ttlSec d <= 9223372037.
Proof.
  intros Hd.
  destruct (duration_parts d Hd) as (_ & _ & Hquot).
  unfold GoInt.minInt64, GoInt.maxInt64 in Hd.
  assert (Hq : 0 <= Z.abs d / 1000000000 <= 9223372036).
  { split; [apply Z.div_pos; lia |].
    apply Z.lt_succ_r. apply Z.div_lt_upper_bound; lia. }
  assert (Hs : -1 <= Z.sgn d <= 1) by (destruct d; simpl; lia).
  assert (Hsign : d < 0 -> Z.sgn d = -1) by (destruct d; simpl; lia).
  assert (Hsign' : 0 <= d -> 0 <= Z.sgn d) by (destruct d; simpl; lia).
  destruct (ttlSec_near d ltac:(unfold GoInt.minInt64, GoInt.maxInt64; lia))
    as [->|[_ ->]]; rewrite Hquot;
    destruct (Z.ltb_spec d 0); simpl; lia.
Qed.

(** The seconds of a remote record come back exactly when that many
    seconds fit a [Duration]. *)
Lemma ttl_round_trip sec :
  Common.ttlSec (Common.ttlOfSec sec) = sec
  <-> -9223372036 <= sec <= 9223372036.
Proof.
  split; [| apply ttlSec_ttlOfSec].
  intros Hback.
  pose proof (ttlSec_bound (Common.ttlOfSec sec) (wrap_range _)) as Hb.
  rewrite Hback in Hb.
  destruct (Z.eq_dec sec 9223372037) as [->|Hhi];
    [vm_compute in Hback; discriminate |].
  destruct (Z.eq_dec sec (-9223372037)) as [->|Hlo];
    [vm_compute in Hback; discriminate |].
  lia.
Qed.

(** C6, as the code has it — a remote record translated to the generic
    shape (into a fresh record or over an existing one) and back into
    update options gives options with the same type, name, target and
    TTL seconds exactly when its name is relative to the zone already,
    ending neither in a dot nor in the zone, and its TTL is at most
    9223372036 seconds in size.  Type and target come back always; the
    name comes back exactly when [RelativeName] leaves it alone. *)
Theorem round_trip_in_range :
  forall zone existing (remoteRecord : DomainRecord),
    (updateOptions zone (mergeWithExistingLibdns zone existing remoteRecord)
     = mkUpdateOptions (DomainRecord_Type remoteRecord)
         (DomainRecord_Name remoteRecord)
         (DomainRecord_Target remoteRecord)
         (DomainRecord_TTLSec remoteRecord)
     <-> relativeTo zone (DomainRecord_Name remoteRecord) = true
         /\ -9223372036 <= DomainRecord_TTLSec remoteRecord <= 9223372036)
    /\ (updateOptions zone (convertToLibdns zone remoteRecord)
        = mkUpdateOptions (DomainRecord_Type remoteRecord)
            (DomainRecord_Name remoteRecord)
            (DomainRecord_Target remoteRecord)
            (DomainRecord_TTLSec remoteRecord)
        <-> relativeTo zone (DomainRecord_Name remoteRecord) = true
            /\ -9223372036 <= DomainRecord_TTLSec remoteRecord
                <= 9223372036)
    /\ (relativeTo zone (DomainRecord_Name remoteRecord) = true
        <-> libdns.RelativeName (DomainRecord_Name remoteRecord) zone
            = DomainRecord_Name remoteRecord)
    /\ Update_Type
         (updateOptions zone
            (mergeWithExistingLibdns zone existing remoteRecord))
       = DomainRecord_Type remoteRecord
    /\ Update_Target
         (updateOptions zone
            (mergeWithExistingLibdns zone existing remoteRecord))
       = DomainRecord_Target remoteRecord.
Proof.
  intros zone existing remoteRecord.
  assert (Hany : forall e,
            updateOptions zone (mergeWithExistingLibdns zone e remoteRecord)
            = mkUpdateOptions (DomainRecord_Type remoteRecord)
                (DomainRecord_Name remoteRecord)
                (DomainRecord_Target remoteRecord)
                (DomainRecord_TTLSec remoteRecord)
            <-> relativeTo zone (DomainRecord_Name remoteRecord) = true
                /\ -9223372036 <= DomainRecord_TTLSec remoteRecord
                    <= 9223372036).
  { intros e.
    assert (Hopts :
      updateOptions zone (mergeWithExistingLibdns zone e remoteRecord)
      = mkUpdateOptions (DomainRecord_Type remoteRecord)
          (libdns.RelativeName
             (libdns.RelativeName (DomainRecord_Name remoteRecord) zone)
             zone)
          (DomainRecord_Target remoteRecord)
          (ttlSec (ttlOfSec (DomainRecord_TTLSec remoteRecord))))
      by (destruct e; reflexivity).
    rewrite Hopts, relativeTo_fixed, <- RelativeName_twice,
      <- ttl_round_trip.
    split.
    - intros Heq. injection Heq as Hname Hsec. now split.
    - intros [Hname Hsec]. now rewrite Hname, Hsec. }
  split; [apply Hany |]. split; [apply (Hany None) |].
  split; [apply relativeTo_fixed |].
  split; destruct existing; reflexivity.
Qed.

Lemma round_trip_in_range_witness :
  (relativeTo "example.com" "www" = true
   /\ -9223372036 <= 300 <= 9223372036)
  /\ updateOptions "example.com"
       (convertToLibdns "example.com"
          (mkDomainRecord 7 "A" "www" "192.0.2.1" 300))
     = mkUpdateOptions "A" "www" "192.0.2.1" 300.
Proof.
  assert (Hin : relativeTo "example.com" "www" = true
                /\ -9223372036 <= 300 <= 9223372036)
    by (split; [reflexivity | lia]).
  split; [exact Hin |].
  exact (proj2 (proj1 (proj2 (round_trip_in_range "example.com" None
                                (mkDomainRecord 7 "A" "www" "192.0.2.1"
                                   300)))) Hin).
Defined.

(** C6, as the spec has it, fails twice over.  A stored name can be
    relative to the zone and still end in the zone string: the record
    myexample.com of the zone example.com comes back with the name my.
    And 9223372037 seconds do not fit a [Duration]; the product wraps
    around and the seconds that come back are not the seconds that
    went in. *)
Lemma round_trip_loses_name_or_TTL :
  (Update_Name
     (updateOptions "example.com"
        (convertToLibdns "example.com"
           (mkDomainRecord 8 "A" "myexample.com" "192.0.2.1" 300)))
   = "my"
   /\ updateOptions "example.com"
        (convertToLibdns "example.com"
           (mkDomainRecord 8 "A" "myexample.com" "192.0.2.1" 300))
      <> mkUpdateOptions "A" "myexample.com" "192.0.2.1" 300)
  /\ (libdns.RelativeName "www" "example.com" = "www"
      /\ Update_TTLSec
           (updateOptions "example.com"
              (convertToLibdns "example.com"
                 (mkDomainRecord 7 "A" "www" "192.0.2.1" 9223372037)))
         = -9223372036
      /\ updateOptions "example.com"
           (convertToLibdns "example.com"
              (mkDomainRecord 7 "A" "www" "192.0.2.1" 9223372037))
         <> mkUpdateOptions "A" "www" "192.0.2.1" 9223372037).
Proof.
  split; [split | split; [| split]].
  - vm_compute; reflexivity.
  - vm_compute. discriminate.
  - reflexivity.
  - vm_compute; reflexivity.
  - vm_compute. discriminate.
Qed.

End RoundTrip.

(* ================================================================== *)
(** * The requests of Append *)

Section Appending.
Import linodego Session Common Batch Ops Service Samples Answers Remote.

(** A loop that ends in an error ran without error up to some record
    and failed at that one. *)
Lemma forEach_stop {W} `{Client W} step records :
  forall acc out err (c c' : Conn W),
    forEach step records acc c = ((out, Some err), c') ->
    exists pre x post acc' c1,
      records = (pre ++ x :: post)%list
      /\ forEach step pre acc c = ((acc', None), c1)
      /\ step x c1 = (inl err, c').
Proof.
  induction records as [|x rest IH]; intros acc out err c c' Hrun.
  - discriminate.
  - cbn [forEach] in Hrun. unfold bind in Hrun.
    destruct (step x c) as [[e|o] c0] eqn:Hx.
    + unfold ret in Hrun. inversion Hrun; subst.
      exists [], x, rest, acc, c. repeat split. exact Hx.
    + apply IH in Hrun as (pre & y & post & acc' & c1 & -> & Hpre & Hy).
      exists (x :: pre), y, post, acc', c1. repeat split.
      * cbn [forEach]. unfold bind. now rewrite Hx.
      * exact Hy.
Qed.

Lemma create_refused {W} `{Client W} rev zone domainID x err
    (c c' : Conn W) :
  step rev Append zone domainID x c = (inl err, c') ->
  CreateDomainRecord domainID (createOptions zone x) (remote c)
  = (inl err, remote c').
Proof.
  destruct rev as [fuel|]; simpl;
    unfold Rev1.createDomainRecord, Rev2.createDomainRecord, bind,
      doCreateDomainRecord, perform;
    destruct (CreateDomainRecord domainID (createOptions zone x) (remote c))
      as [[e|rr] w]; unfold ret; intros Hr; inversion Hr; reflexivity.
Qed.

Lemma append_run_calls {W} `{Client W} rev zone domainID records
    (c0 : Conn W) :
  let call r := CallCreateDomainRecord domainID (createOptions zone r) in
  let r := forEach (step rev Append zone domainID) records [] c0 in
  exists k,
    trace (snd r) = (trace c0 ++ map call (firstn k records))%list
    /\ (k <= List.length records)%nat
    /\ (snd (fst r) = None -> k = List.length records)
    /\ (forall err,
          snd (fst r) = Some err ->
          exists pre x post done w,
            records = (pre ++ x :: post)%list
            /\ k = S (List.length pre)
            /\ laid rev Append zone domainID pre (remote c0) = Some (done, w)
            /\ CreateDomainRecord domainID (createOptions zone x) w
               = (inl err, remote (snd r))).
Proof.
  cbv zeta.
  destruct (forEach (step rev Append zone domainID) records [] c0)
    as [[out [err|]] c'] eqn:Hrun; cbn [fst snd].
  - apply forEach_stop in Hrun
      as (pre & x & post & acc' & c1 & -> & Hpre & Hx).
    exists (S (List.length pre)).
    destruct (append_loop_calls rev zone domainID pre [] c0)
      as [k [Htr Hall]].
    rewrite Hpre in Htr, Hall. cbn [fst snd] in Htr, Hall.
    rewrite (Hall eq_refl), firstn_all in Htr.
    pose proof (create_trace rev zone domainID x c1) as Hcall.
    rewrite Hx in Hcall. cbn [snd] in Hcall.
    split; [| split; [| split]].
    + rewrite Hcall, Htr, <- app_assoc. f_equal.
      replace (S (List.length pre)) with (List.length (pre ++ [x]))
        by (rewrite length_app; simpl; lia).
      replace (pre ++ x :: post)%list with ((pre ++ [x]) ++ post)%list
        by now rewrite <- app_assoc.
      rewrite firstn_app, firstn_all, Nat.sub_diag. simpl.
      now rewrite app_nil_r, map_app.
    + rewrite length_app. simpl. lia.
    + discriminate.
    + intros err' Herr. inversion Herr; subst err'.
      apply (forEach_laid rev Append zone domainID pre (or_introl eq_refl))
        in Hpre as (done & _ & Hlaid).
      exists pre, x, post, done, (remote c1). repeat split.
      * exact Hlaid.
      * now apply (create_refused rev).
  - destruct (append_loop_calls rev zone domainID records [] c0)
      as [k [Htr Hall]].
    rewrite Hrun in Htr, Hall. cbn [fst snd] in Htr, Hall.
    exists (List.length records).
    rewrite (Hall eq_refl) in Htr.
    split; [exact Htr | split; [lia | split; [reflexivity | discriminate]]].
Qed.

(** C5 — Append asks the remote to create each record with options made
    of the record's type, its name relative to the zone, its value and
    its TTL in seconds; the options have no place for an ID.  Once the
    domain is found, [AppendRecords] of either revision makes exactly
    these create calls and no other, one per input record in input
    order: all of them when it reports no error, and otherwise up to
    and including the one the remote refused, whose error it reports.
    Giving the input records other IDs changes neither the calls made
    nor the result. *)
Theorem append_never_sends_ID {W} `{Client W} :
  forall rev zone domainID record records (relabel : libdns.Record -> string)
         (c : Conn W),
    createOptions zone record
    = mkCreateOptions (libdns.Type_ record)
        (libdns.RelativeName (libdns.Name record) zone)
        (libdns.Value record) (ttlSec (libdns.TTL record))
    /\ (forall c0,
          lookup rev zone c = Some ((domainID, None), c0) ->
          exists res c' k,
            run rev Append zone records c = Some (res, c')
            /\ trace c'
               = (trace c0
                  ++ map (fun r =>
                            CallCreateDomainRecord domainID
                              (createOptions zone r))
                         (firstn k records))%list
            /\ (k <= List.length records)%nat
            /\ (snd res = None -> k = List.length records)
            /\ (forall err,
                  snd res = Some err ->
                  exists pre x post done w,
                    records = (pre ++ x :: post)%list
                    /\ k = S (List.length pre)
                    /\ laid rev Append zone domainID pre (remote c0)
                       = Some (done, w)
                    /\ CreateDomainRecord domainID (createOptions zone x) w
                       = (inl err, remote c')))
    /\ trace (snd (step rev Append zone domainID record c))
       = (trace c
          ++ [CallCreateDomainRecord domainID (createOptions zone record)])%list
    /\ (exists k,
          trace (snd (forEach (step rev Append zone domainID) records
                        (start rev Append records) c))
          = (trace c
             ++ map (fun r =>
                       CallCreateDomainRecord domainID (createOptions zone r))
                    (firstn k records))%list
          /\ (snd (fst (forEach (step rev Append zone domainID) records
                          (start rev Append records) c)) = None
              -> k = List.length records))
    /\ run rev Append zone (map (fun r => withID (relabel r) r) records) c
       = run rev Append zone records c.
Proof.
  intros rev zone domainID record records relabel c.
  split; [reflexivity|]. split.
  { intros c0 Hlook.
    rewrite (run_batch rev Append zone records domainID c c0 eq_refl Hlook).
    replace (start rev Append records) with (@nil libdns.Record)
      by now destruct rev.
    destruct (append_run_calls rev zone domainID records c0)
      as (k & Htr & Hle & Hall & Hstop).
    destruct (forEach (step rev Append zone domainID) records [] c0)
      as [res c'].
    exists res, c', k. cbn [fst snd] in *.
    split; [reflexivity |]. now repeat split. }
  split; [apply create_trace|].
  split; [apply append_loop_calls|].
  destruct rev as [fuel|]; simpl.
  - unfold Rev1.AppendRecords, Rev1.withDomain.
    destruct (Rev1.getDomainIDByZone fuel zone c) as [[[d [err|]] c0]|];
      try reflexivity.
    f_equal. rewrite !appendLoop1_forEach.
    apply forEach_map. intros x c'.
    apply (create_ignores_ID (R1 fuel)).
  - unfold total, Rev2.AppendRecords, bind. f_equal.
    destruct (Rev2.getDomainIDByZone zone c) as [[d [err|]] c0];
      try reflexivity.
    rewrite !appendLoop2_forEach.
    apply forEach_map. intros x c'.
    apply (create_ignores_ID R2).
Qed.

Lemma append_never_sends_ID_witness :
  let c0 := snd (Rev2.getDomainIDByZone "example.com" (connect oneDomain)) in
  lookup R2 "example.com" (connect oneDomain) = Some ((42, None), c0)
  /\ option_map (fun x => (snd (fst x), List.skipn 1 (trace (snd x))))
       (run R2 Append "example.com" [txt; www] (connect oneDomain))
     = Some (None,
             [CallCreateDomainRecord 42
                (mkCreateOptions "TXT" "_acme-challenge" "abc123" 300);
              CallCreateDomainRecord 42
                (mkCreateOptions "A" "www" "192.0.2.1" 300)])
  /\ exists res c' k,
       run R2 Append "example.com" [txt; www] (connect oneDomain)
       = Some (res, c')
       /\ trace c'
          = (trace c0
             ++ map (fun r =>
                       CallCreateDomainRecord 42
                         (createOptions "example.com" r))
                    (firstn k [txt; www]))%list
       /\ (k <= List.length [txt; www])%nat
       /\ (snd res = None -> k = List.length [txt; www]).
Proof.
  cbv zeta. split; [vm_compute; reflexivity |].
  split; [vm_compute; reflexivity |].
  destruct (proj1 (proj2 (append_never_sends_ID R2 "example.com" 42 txt
                            [txt; www] libdns.ID (connect oneDomain)))
              (snd (Rev2.getDomainIDByZone "example.com"
                      (connect oneDomain))))
    as (res & c' & k & Hrun & Htr & Hle & Hall & _).
  { vm_compute; reflexivity. }
  exists res, c', k. now repeat split.
Defined.

End Appending.
